(** * zhili-file-organizer: the Organize Engine of [electron/main.ts]

    A shallow embedding of the main-process handlers (classification,
    messy-name detection, date extraction, plan analysis, duplicate
    detection, execute and undo) and the properties the specification
    states about them.

    Conventions.
    - A JavaScript string is the list of its UTF-16 code units
      ([jsstring]); literals are written [js "..."] and decoded from the
      UTF-8 bytes of the Rocq literal.
    - [path.*] is Node's POSIX implementation, modelled on segments.
    - The file system is a tree of directories and regular files; the
      process' working directory is the root. *)

From stdpp Require Import gmap list strings.
From Stdlib Require Import ZArith Lia.
From Stdlib Require DecimalN DecimalFacts.

#[local] Set Warnings "-register-all".
#[local] Open Scope N_scope.

(** ** JavaScript strings *)

Module JS.

Abbreviation jsstring := (list N) (only parsing).

(** UTF-8 bytes to code points; malformed input stops the decoding. *)
Fixpoint utf8_decode (bs : list N) : list N :=
  match bs with
  | [] => []
  | b :: r =>
    if b <? 128 then b :: utf8_decode r
    else if b <? 224 then
      match r with
      | b1 :: r1 => ((b - 192) * 64 + (b1 - 128)) :: utf8_decode r1
      | _ => []
      end
    else if b <? 240 then
      match r with
      | b1 :: b2 :: r2 =>
        ((b - 224) * 4096 + (b1 - 128) * 64 + (b2 - 128)) :: utf8_decode r2
      | _ => []
      end
    else
      match r with
      | b1 :: b2 :: b3 :: r3 =>
        ((b - 240) * 262144 + (b1 - 128) * 4096 + (b2 - 128) * 64 + (b3 - 128))
          :: utf8_decode r3
      | _ => []
      end
  end.

(** Code points to UTF-16 code units (surrogate pairs above the BMP). *)
Definition utf16_units (cp : N) : list N :=
  if cp <? 65536 then [cp]
  else [55296 + (cp - 65536) / 1024; 56320 + (cp - 65536) mod 1024].

Definition js (s : string) : jsstring :=
  flat_map utf16_units
    (utf8_decode (List.map Ascii.N_of_ascii (String.list_ascii_of_string s))).

Definition str_eqb (a b : jsstring) : bool := bool_decide (a = b).

Fixpoint startsWith (s pre : jsstring) : bool :=
  match pre, s with
  | [], _ => true
  | p :: pre', c :: s' => (c =? p) && startsWith s' pre'
  | _ :: _, [] => false
  end.

Definition endsWith (s suf : jsstring) : bool :=
  startsWith (rev s) (rev suf).

(** [s.includes(k)] *)
Fixpoint includes (s k : jsstring) : bool :=
  startsWith s k ||
  match s with
  | [] => false
  | _ :: s' => includes s' k
  end.

(** [l.includes(x)] on an array of strings *)
Definition arr_includes (l : list jsstring) (x : jsstring) : bool :=
  existsb (str_eqb x) l.

(** [String.prototype.toLowerCase], per code unit.  Basic Latin letters are
    folded; the only two code units outside ASCII whose lower case contains
    an ASCII letter are U+212A (KELVIN SIGN, to k) and U+0130 (to i followed
    by U+0307).  Every other code unit is left as it is: the program only
    compares lowered strings with ASCII and CJK constants, so the cased
    letters of other scripts can stand for their lower-case forms. *)
Definition lower_unit (c : N) : list N :=
  if (65 <=? c) && (c <=? 90) then [c + 32]
  else if c =? 8490 then [107]
  else if c =? 304 then [105; 775]
  else [c].

Definition toLowerCase (s : jsstring) : jsstring := flat_map lower_unit s.

(** Decimal digits of a natural number, as [String(n)] prints them. *)
Fixpoint uint_units (d : Decimal.uint) : jsstring :=
  match d with
  | Decimal.Nil => []
  | Decimal.D0 r => 48 :: uint_units r
  | Decimal.D1 r => 49 :: uint_units r
  | Decimal.D2 r => 50 :: uint_units r
  | Decimal.D3 r => 51 :: uint_units r
  | Decimal.D4 r => 52 :: uint_units r
  | Decimal.D5 r => 53 :: uint_units r
  | Decimal.D6 r => 54 :: uint_units r
  | Decimal.D7 r => 55 :: uint_units r
  | Decimal.D8 r => 56 :: uint_units r
  | Decimal.D9 r => 57 :: uint_units r
  end.

Definition String_N (n : N) : jsstring := uint_units (N.to_uint n).

(** [String(z)] for an integer-valued number *)
Definition String_Z (z : Z) : jsstring :=
  match z with
  | Zneg p => 45 :: String_N (Npos p)
  | _ => String_N (Z.to_N z)
  end.

(** [s.padStart(n, '0')] *)
Definition padStart0 (n : nat) (s : jsstring) : jsstring :=
  replicate (n - length s) 48 ++ s.

Definition is_digit (c : N) : bool := (48 <=? c) && (c <=? 57).

(** White space in the sense of [\s] and [String.prototype.trim]. *)
Definition is_space (c : N) : bool :=
  ((9 <=? c) && (c <=? 13)) || (c =? 32) || (c =? 160) || (c =? 5760)
  || ((8192 <=? c) && (c <=? 8202)) || (c =? 8232) || (c =? 8233)
  || (c =? 8239) || (c =? 8287) || (c =? 12288) || (c =? 65279).

Fixpoint trimStart (s : jsstring) : jsstring :=
  match s with
  | c :: s' => if is_space c then trimStart s' else s
  | [] => []
  end.

Definition trim (s : jsstring) : jsstring := rev (trimStart (rev (trimStart s))).

End JS.
Export JS.

(** ** Node's [path] module (POSIX flavour) *)

Module Path.

Definition SLASH : N := 47.
Definition DOT : N := 46.

(** The segments between the separators: ["/a//b"] has the segments
    [""], ["a"], [""], ["b"]. *)
Fixpoint split (s : jsstring) : list jsstring :=
  match s with
  | [] => [[]]
  | c :: r =>
    if c =? SLASH then [] :: split r
    else match split r with
         | seg :: segs => (c :: seg) :: segs
         | [] => [[c]]
         end
  end.

Fixpoint unsplit (segs : list jsstring) : jsstring :=
  match segs with
  | [] => []
  | [seg] => seg
  | seg :: rest => seg ++ SLASH :: unsplit rest
  end.

Fixpoint dropEmpty (segs : list jsstring) : list jsstring :=
  match segs with
  | [] :: rest => dropEmpty rest
  | _ => segs
  end.

(** Segments with the empty ones that trailing separators produce removed. *)
Definition trimmedSegs (p : jsstring) : list jsstring :=
  rev (dropEmpty (rev (split p))).

(** The last path component, trailing separators ignored. *)
Definition lastSegment (p : jsstring) : jsstring :=
  match rev (trimmedSegs p) with
  | g :: _ => g
  | [] => []
  end.

Fixpoint lastDot (g : jsstring) (i : nat) (found : option nat) : option nat :=
  match g with
  | [] => found
  | c :: r => lastDot r (S i) (if c =? DOT then Some i else found)
  end.

(** [path.extname]: from the last dot of the last component, unless there
    is none, it is the component's first character, or the component is
    [".."]. *)
Definition extname (p : jsstring) : jsstring :=
  let g := lastSegment p in
  match lastDot g 0 None with
  | None => []
  | Some O => []
  | Some d => if str_eqb g [DOT; DOT] then [] else drop d g
  end.

Fixpoint trailingSlashes (r : jsstring) : jsstring :=
  match r with
  | c :: r' => if c =? SLASH then c :: trailingSlashes r' else []
  | [] => []
  end.

(** [path.basename(p, suffix)].  Node scans the last component from its end
    against the suffix; when the component runs out before the suffix does,
    the slice runs to the end of the path and keeps the trailing
    separators. *)
Definition basename (p suffix : jsstring) : jsstring :=
  let g := lastSegment p in
  if bool_decide (suffix = []) || (length p <? length suffix)%nat then g
  else if str_eqb suffix p then []
  else if bool_decide (g = []) then p
  else if endsWith g suffix then
    (if str_eqb g suffix then g else take (length g - length suffix) g)
  else if endsWith suffix g then g ++ rev (trailingSlashes (rev p))
  else g.

(** [path.dirname] *)
Definition dirname (p : jsstring) : jsstring :=
  match p with
  | [] => [DOT]
  | c0 :: _ =>
    let hasRoot := c0 =? SLASH in
    let d := unsplit (removelast (trimmedSegs p)) in
    match d with
    | [] => if hasRoot then [SLASH] else [DOT]
    | _ => if hasRoot && str_eqb d [SLASH] then [SLASH; SLASH] else d
    end
  end.

(** One segment of [normalizeString]: empty and ["."] segments are skipped,
    [".."] removes the last kept segment unless there is none or it is
    itself [".."], in which case it is kept when the path is relative. *)
Definition normStep (allowAboveRoot : bool) (res : list jsstring) (seg : jsstring)
  : list jsstring :=
  if bool_decide (seg = []) || str_eqb seg [DOT] then res
  else if str_eqb seg [DOT; DOT] then
    match rev res with
    | l :: _ =>
      if str_eqb l [DOT; DOT]
      then (if allowAboveRoot then res ++ [seg] else res)
      else removelast res
    | [] => if allowAboveRoot then res ++ [seg] else res
    end
  else res ++ [seg].

Definition normSegs (allowAboveRoot : bool) (segs : list jsstring) : list jsstring :=
  fold_left (normStep allowAboveRoot) segs [].

Definition isAbsolute (p : jsstring) : bool :=
  match p with c :: _ => c =? SLASH | [] => false end.

Definition hasTrailingSlash (p : jsstring) : bool :=
  match rev p with c :: _ => c =? SLASH | [] => false end.

(** [path.normalize] *)
Definition normalize (p : jsstring) : jsstring :=
  match p with
  | [] => [DOT]
  | _ =>
    let abs := isAbsolute p in
    let body := unsplit (normSegs (negb abs) (split p)) in
    match body with
    | [] => if abs then [SLASH]
            else if hasTrailingSlash p then [DOT; SLASH] else [DOT]
    | _ =>
      let body' := if hasTrailingSlash p then body ++ [SLASH] else body in
      if abs then SLASH :: body' else body'
    end
  end.

(** [path.join(...args)] *)
Definition join (args : list jsstring) : jsstring :=
  match unsplit (List.filter (fun a => negb (bool_decide (a = []))) args) with
  | [] => [DOT]
  | joined => normalize joined
  end.

(** The components the kernel walks from the root for a path: relative
    paths start at the root (the working directory), [".."] is resolved
    lexically and cannot climb above the root. *)
Definition resolve (p : jsstring) : list jsstring := normSegs false (split p).

End Path.

(** ** Regular expressions, as far as the program uses them

    A backtracking matcher with JavaScript's priorities (greedy
    quantifiers, left alternative first).  Quantifiers in the program's
    patterns only ever apply to a character class or to a group that cannot
    match the empty string. *)

Module Regex.

Inductive citem :=
| Ch (c : N)            (* a literal character *)
| Rg (lo hi : N)        (* lo-hi *)
| Dg                    (* \d *)
| Sp.                   (* \s *)

Definition class := list citem.

Definition item_mem (c : N) (i : citem) : bool :=
  match i with
  | Ch x => c =? x
  | Rg lo hi => (lo <=? c) && (c <=? hi)
  | Dg => is_digit c
  | Sp => is_space c
  end.

(** The other case of a Basic Latin letter.  With the [i] flag and without
    the [u] flag a character outside ASCII never canonicalizes to an ASCII
    one, so for the ASCII-only patterns of the program ignoring case means
    trying both cases of a Basic Latin letter. *)
Definition swapcase (c : N) : N :=
  if (65 <=? c) && (c <=? 90) then c + 32
  else if (97 <=? c) && (c <=? 122) then c - 32
  else c.

Definition class_mem (icase : bool) (cs : class) (c : N) : bool :=
  existsb (item_mem c) cs || (icase && existsb (item_mem (swapcase c)) cs).

Inductive re :=
| Eps
| Lit (s : jsstring)                           (* literal text *)
| Rep (cs : class) (lo : nat) (hi : option nat) (* cs{lo,hi}, greedy *)
| Seq (a b : re)
| Alt (a b : re)
| Opt (a : re)                                 (* (a)? *)
| Grp (a : re)                                 (* (a), captured *)
| Eos.                                         (* $ *)

(** [cs{lo,hi}] followed by the continuation [k]: as many characters as
    possible first, then one fewer, down to [lo]. *)
Fixpoint rep {A} (mem : N -> bool) (lo : nat) (hi : option nat) (s : jsstring)
    (k : jsstring -> option A) : option A :=
  let stop := match lo with O => k s | S _ => None end in
  match hi with
  | Some O => stop
  | _ =>
    match s with
    | c :: s' =>
      if mem c then
        match rep mem (pred lo) (option_map pred hi) s' k with
        | Some x => Some x
        | None => stop
        end
      else stop
    | [] => stop
    end
  end.

Fixpoint lit_match (icase : bool) (p s : jsstring) : option jsstring :=
  match p with
  | [] => Some s
  | x :: p' =>
    match s with
    | c :: s' =>
      if (c =? x) || (icase && (swapcase c =? x)) then lit_match icase p' s' else None
    | [] => None
    end
  end.

(** [run icase r s caps k]: match [r] at the head of [s], then continue with
    the rest of the input and the captures made so far. *)
Fixpoint run {A} (icase : bool) (r : re) (s : jsstring) (caps : list jsstring)
    (k : jsstring -> list jsstring -> option A) : option A :=
  match r with
  | Eps => k s caps
  | Lit p => match lit_match icase p s with Some s' => k s' caps | None => None end
  | Rep cs lo hi => rep (class_mem icase cs) lo hi s (fun s' => k s' caps)
  | Seq a b => run icase a s caps (fun s' caps' => run icase b s' caps' k)
  | Alt a b =>
    match run icase a s caps k with
    | Some x => Some x
    | None => run icase b s caps k
    end
  | Opt a =>
    match run icase a s caps k with
    | Some x => Some x
    | None => k s caps
    end
  | Grp a =>
    run icase a s caps
      (fun s' caps' => k s' (caps' ++ [take (length s - length s') s]))
  | Eos => match s with [] => k s caps | _ :: _ => None end
  end.

Record pattern := Pattern {
  anchored : bool;     (* the pattern starts with ^ *)
  icase : bool;        (* the i flag *)
  body : re
}.

Record match_result := Match {
  m_before : jsstring;         (* input before the match *)
  m_after : jsstring;          (* input after the match *)
  m_groups : list jsstring     (* match[1], match[2], ... *)
}.

Definition match_here (p : pattern) (pre s : jsstring) : option match_result :=
  run (icase p) (body p) s [] (fun s' caps => Some (Match pre s' caps)).

Fixpoint search (p : pattern) (pre s : jsstring) : option match_result :=
  match match_here p pre s with
  | Some m => Some m
  | None =>
    match s with
    | c :: s' => search p (pre ++ [c]) s'
    | [] => None
    end
  end.

(** [s.match(p)] / [p.exec(s)] for a pattern without the [g] flag *)
Definition exec (p : pattern) (s : jsstring) : option match_result :=
  if anchored p then match_here p [] s else search p [] s.

(** [p.test(s)] *)
Definition test (p : pattern) (s : jsstring) : bool :=
  match exec p s with Some _ => true | None => false end.

(** [s.replace(p, '')] for a pattern without the [g] flag *)
Definition replace_empty (p : pattern) (s : jsstring) : jsstring :=
  match exec p s with
  | Some m => m_before m ++ m_after m
  | None => s
  end.

(** Building blocks that read like the source patterns. *)
Definition cat (rs : list re) : re := fold_right Seq Eps rs.
Definition alts (rs : list re) : re :=
  match rs with
  | [] => Eps
  | r :: rest => fold_left Alt rest r
  end.
Definition chars (s : string) : class := List.map Ch (js s).
Definition lit (s : string) : re := Lit (js s).
Definition az09 : class := [Rg 97 122; Rg 48 57].          (* [a-z0-9] *)
Definition af09 : class := [Rg 97 102; Rg 48 57].          (* [a-f0-9] *)
Definition digits (n : nat) : re := Rep [Dg] n (Some n).     (* \d{n} *)
Definition digitsMin (n : nat) : re := Rep [Dg] n None.      (* \d{n,} *)
Definition maybe (cs : class) : re := Rep cs 0 (Some 1%nat). (* [..]? *)
Definition one (cs : class) : re := Rep cs 1 (Some 1%nat).
Definition dash_ : class := [Ch 45; Ch 95].                 (* [-_] *)

End Regex.

(** ** [electron/main.ts]: analysis helpers *)

Import Regex.

(** Category labels, as the string constants of the source. *)
Definition Contract : jsstring := js "合同".
Definition Invoice : jsstring := js "发票".
Definition Screenshot : jsstring := js "截图".
Definition Manual : jsstring := js "说明书".
Definition Image : jsstring := js "图片".
Definition Video : jsstring := js "视频".
Definition Audio : jsstring := js "音频".
Definition Document : jsstring := js "文档".
Definition Archive : jsstring := js "压缩包".
Definition Code : jsstring := js "代码".
Definition Program : jsstring := js "程序".
Definition Shortcut : jsstring := js "快捷方式".
Definition Folder : jsstring := js "文件夹".
Definition Download : jsstring := js "下载".
Definition Backup : jsstring := js "备份".
Definition Other : jsstring := js "其他".

Definition isShortcutOrLink (fileName : jsstring) : bool :=
  let ext := toLowerCase (Path.extname fileName) in
  arr_includes [js ".lnk"; js ".desktop"; js ".url"; js ".webloc"] ext.

Definition P (r : list re) : pattern := Pattern true false (cat r).   (* /^.../ *)
Definition Pi (r : list re) : pattern := Pattern true true (cat r).   (* /^.../i *)

Definition messyPatterns : list pattern := [
  (* hashes and random strings *)
  Pi [Rep af09 8 None; Eos];                                   (* /^[a-f0-9]{8,}$/i *)
  Pi [Rep az09 24 None; Eos];                                  (* /^[a-z0-9]{24,}$/i *)
  Pi [Rep (af09 ++ [Ch 45]) 32 None; Eos];                     (* /^[a-f0-9-]{32,}$/i *)
  (* cameras and phones *)
  Pi [lit "IMG_"; digits 8; maybe dash_; digits 6];            (* /^IMG_\d{8}[-_]?\d{6}/i *)
  Pi [lit "DSC"; maybe [Ch 95]; digitsMin 4];                  (* /^DSC_?\d{4,}/i *)
  Pi [lit "DCIM"; maybe [Ch 95]; digitsMin 1];                 (* /^DCIM_?\d+/i *)
  Pi [lit "P"; maybe [Ch 95]; digits 8; maybe dash_; digits 6];(* /^P_?\d{8}[-_]?\d{6}/i *)
  Pi [lit "VID_"; digits 8; maybe dash_; digits 6];            (* /^VID_\d{8}[-_]?\d{6}/i *)
  Pi [lit "PHOTO"; maybe dash_; digitsMin 1];                  (* /^PHOTO[-_]?\d+/i *)
  Pi [lit "VIDEO"; maybe dash_; digitsMin 1];                  (* /^VIDEO[-_]?\d+/i *)
  Pi [lit "PXL_"; digits 8; maybe dash_; digitsMin 1];         (* /^PXL_\d{8}[-_]?\d+/i *)
  (* screenshots *)
  Pi [lit "Screenshot_"; digitsMin 1];                         (* /^Screenshot_\d+/i *)
  Pi [lit "Snipaste_"; digitsMin 1];                           (* /^Snipaste_\d+/i *)
  Pi [lit "Screen"; maybe [Sp]; lit "Shot"; maybe [Sp]; digitsMin 1];
                                                               (* /^Screen\s?Shot\s?\d+/i *)
  P [lit "屏幕截图"; maybe [Sp]; digitsMin 1];                  (* /^屏幕截图\s?\d+/ *)
  P [lit "截屏"; digitsMin 1];                                  (* /^截屏\d+/ *)
  P [lit "企业微信截图"; maybe dash_; digitsMin 1];             (* /^企业微信截图[-_]?\d+/ *)
  P [lit "微信图片"; maybe dash_; digitsMin 1];                 (* /^微信图片[-_]?\d+/ *)
  P [lit "QQ截图"; digitsMin 1];                                (* /^QQ截图\d+/ *)
  P [lit "钉钉截图"; maybe dash_; digitsMin 1];                 (* /^钉钉截图[-_]?\d+/ *)
  P [lit "飞书截图"; maybe dash_; digitsMin 1];                 (* /^飞书截图[-_]?\d+/ *)
  P [lit "腾讯会议截图"; maybe dash_; digitsMin 1];             (* /^腾讯会议截图[-_]?\d+/ *)
  Pi [lit "Wechat"; maybe dash_; digitsMin 1];                 (* /^Wechat[-_]?\d+/i *)
  (* time stamps *)
  P [digitsMin 13; Eos];                                       (* /^\d{13,}$/ *)
  P [digits 10; Eos];                                          (* /^\d{10}$/ *)
  P [digits 8; maybe dash_; digits 6; Eos];                    (* /^\d{8}[-_]?\d{6}$/ *)
  (* temporary and default names *)
  Pi [lit "tmp"; maybe dash_; Rep az09 1 None; Eos];           (* /^tmp[_-]?[a-z0-9]+$/i *)
  Pi [lit "temp"; maybe dash_; Rep az09 1 None; Eos];          (* /^temp[_-]?[a-z0-9]+$/i *)
  Pi [lit "download"; maybe dash_; maybe [Ch 40]; digitsMin 0; maybe [Ch 41]; Eos];
                                                               (* /^download[_-]?\(?\d*\)?$/i *)
  Pi [lit "untitled"; maybe dash_; digitsMin 0; Eos];          (* /^untitled[-_]?\d*$/i *)
  Pi [lit "unnamed"; maybe dash_; digitsMin 0; Eos];           (* /^unnamed[-_]?\d*$/i *)
  P [lit "新建"; Rep (chars "文档文本表格幻灯片") 0 None; maybe dash_; digitsMin 0; Eos];
                                            (* /^新建[文档文本表格幻灯片]*[-_]?\d*$/ *)
  P [lit "未命名"; maybe dash_; digitsMin 0; Eos];              (* /^未命名[-_]?\d*$/ *)
  P [lit "副本"; maybe dash_; digitsMin 0; Eos];                (* /^副本[-_]?\d*$/ *)
  P [lit "文档"; digitsMin 0; Eos];                             (* /^文档\d*$/ *)
  Pi [lit "Copy"; maybe [Sp]; Opt (cat [lit "of"; maybe [Sp]])];
                                                               (* /^Copy\s?(of\s?)?/i *)
  P [lit "复制"; maybe [Sp]];                                   (* /^复制\s?/ *)
  P [lit "("; digitsMin 1; lit ")"; Eos];                      (* /^\(\d+\)$/ *)
  (* downloads *)
  Pi [Rep az09 8 (Some 8%nat); lit "-"; Rep az09 4 (Some 4%nat); lit "-";
      Rep az09 4 (Some 4%nat)]              (* /^[a-z0-9]{8}-[a-z0-9]{4}-[a-z0-9]{4}/i *)
].

Definition isMessyFileName (fileName : jsstring) : bool :=
  let ext := Path.extname fileName in
  let name := Path.basename fileName ext in
  if (length name <? 4)%nat then false
  else existsb (fun pattern => test pattern name) messyPatterns.

Definition isDocumentFile (ext : jsstring) : bool :=
  let docExtensions := [
    js ".doc"; js ".docx"; js ".pdf"; js ".txt"; js ".rtf"; js ".odt"; js ".md";
    js ".xls"; js ".xlsx"; js ".csv";
    js ".ppt"; js ".pptx"; js ".key" ] in
  arr_includes docExtensions (toLowerCase ext).

(** A [Date] read in local time: [None] is the invalid date, whose getters
    return [NaN]. *)
Record civil := Civil {
  getFullYear : Z;
  getMonth : Z;      (* 0 .. 11 *)
  getDate : Z        (* 1 .. 31 *)
}.
Definition JsDate := option civil.

Definition NaN_str : jsstring := js "NaN".

(** The template
    [`${d.getFullYear()}${String(d.getMonth() + 1).padStart(2, '0')}${String(d.getDate()).padStart(2, '0')}`] *)
Definition dateToken (d : JsDate) : jsstring :=
  match d with
  | Some c =>
    String_Z (getFullYear c)
      ++ padStart0 2 (String_Z (getMonth c + 1))
      ++ padStart0 2 (String_Z (getDate c))
  | None => NaN_str ++ padStart0 2 NaN_str ++ padStart0 2 NaN_str
  end.

(** [/(\d{4})[-_]?(\d{2})[-_]?(\d{2})/] *)
Definition yearFirstPattern : pattern :=
  Pattern false false
    (cat [Grp (digits 4); maybe dash_; Grp (digits 2); maybe dash_; Grp (digits 2)]).

(** [/(\d{2})[-_](\d{2})[-_](\d{4})/] *)
Definition yearLastPattern : pattern :=
  Pattern false false
    (cat [Grp (digits 2); one dash_; Grp (digits 2); one dash_; Grp (digits 4)]).

Definition datePatterns : list pattern := [yearFirstPattern; yearLastPattern].

Definition group (m : match_result) (i : nat) : jsstring :=
  default [] (m_groups m !! (i - 1)%nat).

Section Environment.

(** [new Date(s)] read in the local time zone *)
Variable Date_parse : jsstring -> JsDate.

Fixpoint dateFromName (patterns : list pattern) (name : jsstring) : option jsstring :=
  match patterns with
  | [] => None
  | pattern :: rest =>
    match exec pattern name with
    | Some m =>
      if (length (group m 1) =? 4)%nat
      then Some (group m 1 ++ group m 2 ++ group m 3)
      else Some (group m 3 ++ group m 1 ++ group m 2)
    | None => dateFromName rest name
    end
  end.

(** [now] is the value of [new Date()] at the call. *)
Definition extractDateFromFile (fileName : jsstring) (modifiedTime : option jsstring)
    (now : civil) : jsstring :=
  let name := Path.basename fileName (Path.extname fileName) in
  match dateFromName datePatterns name with
  | Some token => token
  | None =>
    match modifiedTime with
    | Some (c :: t) => dateToken (Date_parse (c :: t))
    | _ => dateToken (Some now)
    end
  end.

(** The class [[^一-龥a-zA-Z0-9\-_]] of the global replacement. *)
Definition keptChar (c : N) : bool :=
  class_mem false [Rg 19968 40869; Rg 97 122; Rg 65 90; Rg 48 57; Ch 45; Ch 95] c.

Definition cleanFileName (fileName : jsstring) : jsstring :=
  let ext := Path.extname fileName in
  let name := Path.basename fileName ext in
  let name := replace_empty
    (Pi [alts [lit "IMG_"; cat [lit "DSC"; maybe [Ch 95]]; lit "VID_";
               lit "Screenshot_"; lit "Snipaste_"; lit "P_"; lit "DCIM_"]]) name in
  let name := replace_empty
    (Pi [digits 8; maybe dash_; digits 6; maybe dash_]) name in
  let name := replace_empty (P [digitsMin 13; maybe dash_]) name in
  let name := List.filter keptChar name in
  let name := if (30 <? length name)%nat then take 30 name else name in
  trim name.

End Environment.

(** ** Classification *)

Definition extCategoryMap : gmap jsstring jsstring :=
  list_to_map (
    List.map (fun e => (js e, Image))
      [".jpg"; ".jpeg"; ".png"; ".gif"; ".bmp"; ".webp"; ".svg"; ".ico";
       ".tiff"; ".raw"; ".heic"; ".heif"]%string
    ++ List.map (fun e => (js e, Video))
      [".mp4"; ".avi"; ".mov"; ".wmv"; ".flv"; ".mkv"; ".webm"; ".m4v";
       ".rmvb"; ".rm"; ".3gp"]%string
    ++ List.map (fun e => (js e, Audio))
      [".mp3"; ".wav"; ".flac"; ".aac"; ".ogg"; ".wma"; ".m4a"; ".ape"]%string
    ++ List.map (fun e => (js e, Document))
      [".doc"; ".docx"; ".pdf"; ".txt"; ".rtf"; ".odt"; ".md"; ".epub";
       ".xls"; ".xlsx"; ".csv"; ".ppt"; ".pptx"; ".key"]%string
    ++ List.map (fun e => (js e, Archive))
      [".zip"; ".rar"; ".7z"; ".tar"; ".gz"; ".bz2"; ".xz"]%string
    ++ List.map (fun e => (js e, Code))
      [".js"; ".jsx"; ".ts"; ".tsx"; ".py"; ".java"; ".c"; ".cpp";
       ".h"; ".hpp"; ".css"; ".scss"; ".less"; ".html"; ".htm"; ".vue";
       ".json"; ".xml"; ".sql"; ".sh"; ".bat"; ".ps1"; ".go"; ".rs";
       ".rb"; ".php"; ".swift"; ".kt"; ".scala"; ".r"; ".m"; ".lua";
       ".yml"; ".yaml"; ".toml"; ".ini"]%string
    ++ List.map (fun e => (js e, Program))
      [".exe"; ".msi"; ".dmg"; ".app"; ".apk"; ".deb"; ".rpm"; ".pkg"]%string
    ++ List.map (fun e => (js e, Shortcut))
      [".lnk"; ".desktop"; ".url"; ".webloc"]%string).

Definition codeProjectFolders : list jsstring :=
  List.map js [
    "node_modules"; "src"; "dist"; "build"; "lib"; "bin"; "out"; "target";
    "test"; "tests"; "__tests__"; "spec"; "specs"; "coverage";
    ".git"; ".svn"; ".hg"; ".vscode"; ".idea";
    "packages"; "vendor"; "venv"; "env"; ".env"; "__pycache__" ]%string.

Record rule := Rule { keywords : list jsstring; category : jsstring }.

Definition keywordRules : list rule := [
  Rule (List.map js ["发票"; "invoice"; "receipt"; "收据"]%string) Invoice;
  Rule (List.map js ["合同"; "contract"; "协议"; "agreement"]%string) Contract;
  Rule (List.map js ["截图"; "screenshot"; "snip"; "capture"]%string) Screenshot;
  Rule (List.map js ["说明书"; "manual"; "guide"; "指南"; "教程"]%string) Manual;
  Rule (List.map js ["简历"; "resume"; "cv"]%string) Document;
  Rule (List.map js ["报告"; "report"]%string) Document
].

Definition folderKeywordRules : list rule := [
  Rule (List.map js ["图片"; "images"; "photos"; "pictures"; "img"; "pic"; "照片"; "相册"]%string) Image;
  Rule (List.map js ["视频"; "videos"; "movies"; "电影"; "影片"; "video"]%string) Video;
  Rule (List.map js ["音乐"; "music"; "audio"; "歌曲"; "songs"]%string) Audio;
  Rule (List.map js ["文档"; "documents"; "docs"; "资料"]%string) Document;
  Rule (List.map js ["代码"; "code"; "source"; "project"; "projects"; "项目"; "开发"]%string) Code;
  Rule (List.map js ["下载"; "downloads"]%string) Download;
  Rule (List.map js ["备份"; "backup"; "backups"]%string) Backup;
  Rule (List.map js ["程序"; "software"; "apps"; "applications"; "软件"]%string) Program
].

(** [rule.keywords.some(k => lowerName.includes(k.toLowerCase()))] *)
Definition ruleMatches (lowerName : jsstring) (r : rule) : bool :=
  existsb (fun k => includes lowerName (toLowerCase k)) (keywords r).

(** The [for (const rule of rules)] loop that returns at the first match. *)
Fixpoint firstRule (rules : list rule) (lowerName : jsstring) : option jsstring :=
  match rules with
  | [] => None
  | r :: rest =>
    if ruleMatches lowerName r then Some (category r) else firstRule rest lowerName
  end.

Definition classifyFile (fileName : jsstring) (isDirectory isSymlink : bool) : jsstring :=
  let ext := toLowerCase (Path.extname fileName) in
  let lowerName := toLowerCase (Path.basename fileName ext) in
  if isSymlink then Shortcut
  else if isDirectory then
    if existsb (fun k => str_eqb lowerName k) codeProjectFolders then Code
    else match firstRule folderKeywordRules lowerName with
         | Some c => c
         | None => Folder
         end
  else if isShortcutOrLink fileName then Shortcut
  else
    match firstRule keywordRules lowerName with
    | Some c => c
    | None =>
      if arr_includes [js ".jpg"; js ".jpeg"; js ".png"; js ".gif"; js ".webp"] ext
         && (includes lowerName (js "screenshot") || includes lowerName (js "截图")
             || includes lowerName (js "screen") || startsWith lowerName (js "snip"))
      then Screenshot
      else default Other (extCategoryMap !! ext)
    end.

(** ** Insertion-ordered maps

    A JavaScript [Map], and a plain object with string keys that are not
    array indices, enumerate their entries in insertion order; updating an
    existing key keeps its place. *)

Module OMap.
Section OMap.
Context {K V : Type} `{EqDecision K}.

Definition t := list (K * V).

Fixpoint get (m : t) (k : K) : option V :=
  match m with
  | [] => None
  | (k', v) :: r => if decide (k = k') then Some v else get r k
  end.

Fixpoint set (m : t) (k : K) (v : V) : t :=
  match m with
  | [] => [(k, v)]
  | (k', v') :: r =>
    if decide (k = k') then (k, v) :: r else (k', v') :: set r k v
  end.

Definition keys (m : t) : list K := List.map fst m.
End OMap.
Arguments t : clear implicits.
End OMap.

(** ** [ipcMain.handle('ai:analyzeFiles')] *)

Record FileInfo := {
  f_name : jsstring;
  f_path : jsstring;
  f_extension : jsstring;
  f_size : N;
  f_isDirectory : option bool;        (* isDirectory?: boolean *)
  f_isSymlink : option bool;          (* isSymlink?: boolean *)
  f_modifiedTime : option jsstring    (* modifiedTime?: string *)
}.

Record AnalysisResult := {
  r_path : jsstring;
  r_category : jsstring;
  r_suggestedName : jsstring;
  r_needsRename : bool;
  r_needsMove : bool;
  r_isShortcut : bool;
  r_confidence : N;                   (* in tenths: 8 is 0.8 *)
  r_aiReason : option jsstring
}.

(** One element of [parsed.files] in the oracle's answer. *)
Record AiResult := {
  ai_name : jsstring;
  ai_category : jsstring;
  ai_reason : jsstring
}.

Record AnalyzeOutput := {
  results : list AnalysisResult;
  usedAI : bool;
  categoriesNeedingFolders : list jsstring
}.

(** [x === true] on an optional boolean *)
Definition isTrue (x : option bool) : bool :=
  match x with Some true => true | _ => false end.

(** Truthiness of an optional boolean *)
Definition truthy (x : option bool) : bool := isTrue x.

Definition findIndex {A} (f : A -> bool) (l : list A) : option nat :=
  (fix go (l : list A) (i : nat) : option nat :=
     match l with
     | [] => None
     | x :: r => if f x then Some i else go r (S i)
     end) l 0%nat.

Section Analyze.

Variable Date_parse : jsstring -> JsDate.
Variable currentUser : jsstring.
(** [new Date()] while the handler runs *)
Variable now : civil.
Variable isOpencodeAvailable : bool.
(** [callOpencode] followed by the extraction of [parsed.files]: [None]
    when the tool is missing, times out, fails, or answers without a JSON
    object holding a [files] array.  An element is [None] when reading its
    properties throws, which ends the merge loop in the [catch]. *)
Variable oracle : list jsstring -> option (list (option AiResult)).

Definition classifyOf (file : FileInfo) : jsstring :=
  classifyFile (f_name file) (isTrue (f_isDirectory file)) (isTrue (f_isSymlink file)).

(** First pass, one entry: classify and count the non-directories per
    category. *)
Definition firstPassStep (acc : list (FileInfo * jsstring) * OMap.t jsstring N)
    (file : FileInfo) : list (FileInfo * jsstring) * OMap.t jsstring N :=
  let '(classifiedFiles, categoryCount) := acc in
  let isDir := isTrue (f_isDirectory file) in
  let category := classifyOf file in
  (classifiedFiles ++ [(file, category)],
   if negb isDir
   then OMap.set categoryCount category
          (default 0 (OMap.get categoryCount category) + 1)
   else categoryCount).

Definition firstPass (files : list FileInfo)
  : list (FileInfo * jsstring) * OMap.t jsstring N :=
  fold_left firstPassStep files ([], []).

Definition foldersNeeded (categoryCount : OMap.t jsstring N) : list jsstring :=
  List.map fst
    (List.filter
       (fun '(cat, count) =>
          (3 <=? count) && negb (str_eqb cat Shortcut) && negb (str_eqb cat Other))
       categoryCount).

Definition suggest (file : FileInfo) (category : jsstring) : jsstring :=
  let dateStr := extractDateFromFile Date_parse (f_name file) (f_modifiedTime file) now in
  let cleanName := cleanFileName (f_name file) in
  let ext := f_extension file in
  let und := js "_" in
  if isDocumentFile ext then
    if negb (bool_decide (cleanName = []))
    then dateStr ++ und ++ currentUser ++ und ++ cleanName ++ ext
    else dateStr ++ und ++ currentUser ++ und ++ Document ++ ext
  else if str_eqb category Screenshot then dateStr ++ und ++ Screenshot ++ ext
  else if negb (bool_decide (cleanName = [])) then dateStr ++ und ++ cleanName ++ ext
  else
    let categoryLabel := if negb (str_eqb category Other) then category else js "文件" in
    dateStr ++ und ++ categoryLabel ++ ext.

(** Second pass, one entry. *)
Definition advise (needing : list jsstring) (cf : FileInfo * jsstring) : AnalysisResult :=
  let '(file, category) := cf in
  let isDir := isTrue (f_isDirectory file) in
  let isSymlink := isTrue (f_isSymlink file) in
  let isShortcut := isShortcutOrLink (f_name file) || isSymlink in
  let needsMove := negb isShortcut && negb isDir && arr_includes needing category in
  let needsRename := negb isDir && negb isShortcut && isMessyFileName (f_name file) in
  {| r_path := f_path file;
     r_category := category;
     r_suggestedName := if needsRename then suggest file category else f_name file;
     r_needsRename := needsRename;
     r_needsMove := needsMove;
     r_isShortcut := isShortcut;
     r_confidence := 8;
     r_aiReason := None |}.

(** The loop over [parsed.files]. *)
Fixpoint mergeOracle (answers : list (option AiResult))
    (st : list AnalysisResult * OMap.t jsstring N)
  : list AnalysisResult * OMap.t jsstring N :=
  match answers with
  | [] => st
  | None :: _ => st
  | Some aiResult :: rest =>
    let '(results, categoryCount) := st in
    match findIndex
            (fun r => str_eqb (Path.basename (r_path r) []) (ai_name aiResult)
                      && str_eqb (r_category r) Other) results with
    | Some resultIndex =>
      if negb (str_eqb (ai_category aiResult) Other) then
        let results' :=
          alter (fun r =>
                   {| r_path := r_path r;
                      r_category := ai_category aiResult;
                      r_suggestedName := r_suggestedName r;
                      r_needsRename := r_needsRename r;
                      r_needsMove := r_needsMove r;
                      r_isShortcut := r_isShortcut r;
                      r_confidence := 9;
                      r_aiReason := Some (ai_reason aiResult) |})
                resultIndex results in
        let categoryCount' :=
          match OMap.get categoryCount (ai_category aiResult) with
          | Some (Npos n) =>
            OMap.set categoryCount (ai_category aiResult) (Npos n + 1)
          | _ => OMap.set categoryCount (ai_category aiResult) 1
          end in
        mergeOracle rest (results', categoryCount')
      else mergeOracle rest st
    | None => mergeOracle rest st
    end
  end.

Definition analyzeFiles (files : list FileInfo) : AnalyzeOutput :=
  let '(classifiedFiles, categoryCount) := firstPass files in
  let needing := foldersNeeded categoryCount in
  let results := List.map (advise needing) classifiedFiles in
  let filesToAnalyze :=
    List.filter (fun '(file, category) =>
                   negb (truthy (f_isDirectory file)) && str_eqb category Other)
                classifiedFiles in
  let n := length filesToAnalyze in
  let merged :=
    if isOpencodeAvailable && (0 <? n)%nat && (n <=? 30)%nat then
      match oracle (List.map (fun cf => f_name (fst cf)) filesToAnalyze) with
      | Some answers => fst (mergeOracle answers (results, categoryCount))
      | None => results
      end
    else results in
  {| results := merged;
     usedAI := isOpencodeAvailable;
     categoriesNeedingFolders := needing |}.

End Analyze.

(** ** [ipcMain.handle('fs:detectDuplicates')] *)

Record DupInput := { d_path : jsstring; d_size : N; d_name : jsstring }.

Record DupMember := {
  m_path : jsstring; m_name : jsstring; m_size : N; isKeep : bool
}.

Record DuplicateGroup := { hash : jsstring; files : list DupMember }.

Section Duplicates.

(** [calculateFileHash]: the MD5 digest, or [None] when the read fails. *)
Variable calculateFileHash : jsstring -> option jsstring.

Definition sizeGroupsOf (files : list DupInput) : OMap.t N (list DupInput) :=
  fold_left
    (fun sizeGroups file =>
       if d_size file =? 0 then sizeGroups
       else
         let group := default [] (OMap.get sizeGroups (d_size file)) in
         OMap.set sizeGroups (d_size file) (group ++ [file]))
    files [].

Definition hashGroup (hashMap : OMap.t jsstring (list DupInput)) (group : list DupInput)
  : OMap.t jsstring (list DupInput) :=
  fold_left
    (fun hashMap file =>
       match calculateFileHash (d_path file) with
       | Some h =>
         let existing := default [] (OMap.get hashMap h) in
         OMap.set hashMap h (existing ++ [file])
       | None => hashMap
       end)
    group hashMap.

Definition hashMapOf (sizeGroups : OMap.t N (list DupInput))
  : OMap.t jsstring (list DupInput) :=
  fold_left
    (fun hashMap '(_, group) =>
       if (1 <? length group)%nat then hashGroup hashMap group else hashMap)
    sizeGroups [].

(** [group.map((f, i) => ({ ...f, isKeep: i === 0 }))] *)
Definition markKeep (group : list DupInput) : list DupMember :=
  imap (fun i f =>
          {| m_path := d_path f; m_name := d_name f; m_size := d_size f;
             isKeep := bool_decide (i = 0%nat) |}) group.

Definition detectDuplicates (files : list DupInput) : list DuplicateGroup :=
  flat_map
    (fun '(h, group) =>
       if (1 <? length group)%nat
       then [ {| hash := h; files := markKeep group |} ]
       else [])
    (hashMapOf (sizeGroupsOf files)).

End Duplicates.

(** ** The file system

    A tree: a directory maps names to nodes, a regular file holds bytes.
    Permissions, links and devices are not modelled, so an operation fails
    only for the structural reasons below. *)

Module FS.

Inductive node :=
| File (data : list N)
| Dir (entries : gmap jsstring node).

Abbreviation path := (list jsstring) (only parsing).

Inductive errno := ENOENT | ENOTDIR | EISDIR | EEXIST | ENOTEMPTY | EINVAL | EBUSY.

Inductive result (A : Type) :=
| Ok (a : A)
| Err (e : errno).
Arguments Ok {A} a.
Arguments Err {A} e.

Fixpoint lookup (p : path) (t : node) : option node :=
  match p with
  | [] => Some t
  | x :: p' =>
    match t with
    | Dir m => match m !! x with Some c => lookup p' c | None => None end
    | File _ => None
    end
  end.

(** Set ([Some]) or remove ([None]) the entry that the path names in its
    parent directory; nothing changes when the parent is missing. *)
Fixpoint update (p : path) (v : option node) (t : node) : node :=
  match p, t with
  | x :: p', Dir m =>
    Dir (partial_alter
           (fun o => match p' with
                     | [] => v
                     | _ :: _ => update p' v <$> o
                     end) x m)
  | _, _ => t
  end.

Definition parent (p : path) : path := removelast p.

Fixpoint isPrefix (a b : path) : bool :=
  match a, b with
  | [], _ => true
  | x :: a', y :: b' => bool_decide (x = y) && isPrefix a' b'
  | _ :: _, [] => false
  end.

Definition isDir (p : path) (t : node) : bool :=
  match lookup p t with Some (Dir _) => true | _ => false end.

Definition isFile (p : path) (t : node) : bool :=
  match lookup p t with Some (File _) => true | _ => false end.

Definition exists_ (p : path) (t : node) : bool :=
  match lookup p t with Some _ => true | None => false end.

(** [mkdir(p, { recursive: true })]: every missing directory on the way is
    created; an existing directory is not an error. *)
Fixpoint mkdirp (p : path) (t : node) : result node :=
  match t with
  | File _ => Err (match p with [] => EEXIST | _ :: _ => ENOTDIR end)
  | Dir m =>
    match p with
    | [] => Ok t
    | x :: p' =>
      match mkdirp p' (default (Dir ∅) (m !! x)) with
      | Ok c => Ok (Dir (<[x := c]> m))
      | Err e => Err e
      end
    end
  end.

(** Whether the parent of [p] is a directory, as an error otherwise. *)
Definition checkParent (p : path) (t : node) : option errno :=
  match lookup (parent p) t with
  | Some (Dir _) => None
  | Some (File _) => Some ENOTDIR
  | None => Some ENOENT
  end.

(** [rename(a, b)]: replaces a file by a file and an empty directory by a
    directory; a directory cannot move into itself. *)
Definition rename (a b : path) (t : node) : result node :=
  match lookup a t with
  | None => Err ENOENT
  | Some v =>
    if bool_decide (a = b) then Ok t
    else if bool_decide (a = []) then Err EBUSY
    else if isPrefix a b then Err EINVAL
    else
      match checkParent b t with
      | Some e => Err e
      | None =>
        let moved := update b (Some v) (update a None t) in
        match lookup b t, v with
        | None, _ => Ok moved
        | Some (File _), File _ => Ok moved
        | Some (Dir _), File _ => Err EISDIR
        | Some (File _), Dir _ => Err ENOTDIR
        | Some (Dir m), Dir _ =>
          if bool_decide (m = ∅) then Ok moved else Err ENOTEMPTY
        end
      end
  end.

(** [copyFile(src, dst)] with the default mode: an existing destination
    file is overwritten. *)
Definition copyFile (src dst : path) (t : node) : result node :=
  match lookup src t with
  | None => Err ENOENT
  | Some (Dir _) => Err EISDIR
  | Some (File c) =>
    match checkParent dst t with
    | Some e => Err e
    | None =>
      match lookup dst t with
      | Some (Dir _) => Err EISDIR
      | _ => Ok (update dst (Some (File c)) t)
      end
    end
  end.

Definition unlink (p : path) (t : node) : result node :=
  match lookup p t with
  | None => Err ENOENT
  | Some (Dir _) => Err EISDIR
  | Some (File _) => Ok (update p None t)
  end.

Definition rmdir (p : path) (t : node) : result node :=
  match lookup p t with
  | None => Err ENOENT
  | Some (File _) => Err ENOTDIR
  | Some (Dir m) =>
    if bool_decide (m = ∅)
    then (if bool_decide (p = []) then Err EBUSY else Ok (update p None t))
    else Err ENOTEMPTY
  end.

(** [fs.existsSync] *)
Definition existsSync (p : jsstring) (t : node) : bool := exists_ (Path.resolve p) t.

(** Number of entries of the directory at [p] (0 when there is none). *)
Definition entryCount (p : path) (t : node) : nat :=
  match lookup p t with
  | Some (Dir m) => size m
  | _ => 0%nat
  end.

End FS.

(** ** [ipcMain.handle('fs:executeOrganize')] and
       [ipcMain.handle('fs:undoOrganize')] *)

Inductive opType := Move | Rename | Delete | Mkdir.

#[global] Instance opType_eq_dec : EqDecision opType.
Proof. solve_decision. Defined.

(** An element of [UndoInfo['operations']] *)
Record Operation := {
  type : opType;
  from : jsstring;
  to : option jsstring;           (* to?: string *)
  backupPath : option jsstring    (* backupPath?: string *)
}.

Record UndoInfo := {
  timestamp : Z;
  operations : list Operation
}.

Record PlanFile := {
  p_path : jsstring;
  p_category : jsstring;
  p_newName : jsstring;
  p_needsMove : bool;
  p_needsRename : bool
}.

Record Plan := {
  folderPath : jsstring;
  categories : list jsstring;
  plan_files : list PlanFile;
  duplicatesToDelete : list jsstring
}.

(** What the handlers act on: the disk, the module-level [undoStack] and
    the number of [Date.now()] readings taken so far. *)
Record World := {
  disk : FS.node;
  undoStack : list UndoInfo;
  ticks : nat
}.

Inductive ExecResult :=
| ExecSuccess (movedFiles renamedFiles deletedFiles createdDirs : nat)
| ExecFailure (error : FS.errno).

Inductive UndoResult :=
| UndoSuccess (restoredFiles : nat)
| UndoFailure (error : jsstring).

(** Truthiness of an optional string: present and not empty. *)
Definition nonEmpty (s : option jsstring) : option jsstring :=
  match s with
  | Some (c :: r) => Some (c :: r)
  | _ => None
  end.

Definition countType (ty : opType) (ops : list Operation) : nat :=
  length (List.filter (fun o => bool_decide (type o = ty)) ops).

Section Engine.

(** [app.getPath('temp')] and the successive values of [Date.now()]. *)
Variable tempDir : jsstring.
Variable Date_now : nat -> Z.

Definition backupDirAt (tick : nat) : jsstring :=
  Path.join [tempDir; js "zhili-backup-" ++ String_Z (Date_now tick)].

(** Step 1: the loop over [plan.categories].  [createdDirs] is the [Set]
    of created paths.  A failing [mkdir] leaves the loop with the error
    and what was done before it. *)
Fixpoint createCategories (folder : jsstring) (cats : list jsstring)
    (st : FS.node * list jsstring * list Operation)
  : FS.node * list jsstring * list Operation * option FS.errno :=
  match cats with
  | [] => (st, None)
  | category :: rest =>
    let '(t, createdDirs, ops) := st in
    let categoryPath := Path.join [folder; category] in
    if negb (FS.existsSync categoryPath t) then
      match FS.mkdirp (Path.resolve categoryPath) t with
      | FS.Ok t' =>
        createCategories folder rest
          (t',
           if arr_includes createdDirs categoryPath then createdDirs
           else createdDirs ++ [categoryPath],
           ops ++ [ {| type := Mkdir; from := categoryPath;
                       to := None; backupPath := None |} ])
      | FS.Err e => (st, Some e)
      end
    else createCategories folder rest st
  end.

(** The name tried after [counter - 1] failed attempts. *)
Definition candidate (targetPath : jsstring) (counter : N) : jsstring :=
  let ext := Path.extname targetPath in
  let base := Path.basename targetPath ext in
  Path.join [Path.dirname targetPath; base ++ js "_" ++ String_N counter ++ ext].

(** [while (fs.existsSync(finalPath)) { finalPath = ...; counter++ }] *)
Fixpoint conflictLoop (fuel : nat) (t : FS.node) (targetPath finalPath : jsstring)
    (counter : N) : jsstring :=
  match fuel with
  | O => finalPath
  | S fuel' =>
    if FS.existsSync finalPath t
    then conflictLoop fuel' t targetPath (candidate targetPath counter) (counter + 1)
    else finalPath
  end.

(** The loop looks at the target and then at names in one directory, so
    it runs at most two more times than that directory has entries. *)
Definition conflictFuel (t : FS.node) (targetPath : jsstring) : nat :=
  S (S (FS.entryCount (Path.resolve (Path.dirname targetPath)) t)).

Definition resolveConflict (t : FS.node) (targetPath : jsstring) : jsstring :=
  conflictLoop (conflictFuel t targetPath) t targetPath targetPath 1.

Definition targetPathOf (folder : jsstring) (file : PlanFile) : jsstring :=
  let currentPath := p_path file in
  if p_needsMove file then
    let targetDir := Path.join [folder; p_category file] in
    Path.join [targetDir;
               if p_needsRename file then p_newName file
               else Path.basename currentPath []]
  else if p_needsRename file then
    Path.join [Path.dirname currentPath; p_newName file]
  else currentPath.

(** Step 2, one file. *)
Definition processFile (folder : jsstring) (st : FS.node * list Operation)
    (file : PlanFile) : FS.node * list Operation :=
  let '(t, ops) := st in
  let currentPath := p_path file in
  let targetPath := targetPathOf folder file in
  if negb (str_eqb targetPath currentPath) then
    let finalPath := resolveConflict t targetPath in
    match FS.rename (Path.resolve currentPath) (Path.resolve finalPath) t with
    | FS.Ok t' =>
      (t', ops ++ [ {| type := if p_needsMove file then Move else Rename;
                       from := currentPath; to := Some finalPath;
                       backupPath := None |} ])
    | FS.Err _ => st
    end
  else st.

Definition backupPathOf (backupDir duplicatePath : jsstring) (tick : nat) : jsstring :=
  Path.join [backupDir;
             Path.basename duplicatePath [] ++ js "_" ++ String_Z (Date_now tick)].

(** Step 3, one duplicate; each takes one reading of the clock. *)
Definition processDuplicate (backupDir : jsstring)
    (st : FS.node * list Operation * nat) (duplicatePath : jsstring)
  : FS.node * list Operation * nat :=
  let '(t, ops, tick) := st in
  let backupPath := backupPathOf backupDir duplicatePath tick in
  match FS.copyFile (Path.resolve duplicatePath) (Path.resolve backupPath) t with
  | FS.Ok t1 =>
    match FS.unlink (Path.resolve duplicatePath) t1 with
    | FS.Ok t2 =>
      (t2, ops ++ [ {| type := Delete; from := duplicatePath; to := None;
                       backupPath := Some backupPath |} ], S tick)
    | FS.Err _ => (t1, ops, S tick)
    end
  | FS.Err _ => (t, ops, S tick)
  end.

Definition executeOrganize (plan : Plan) (w : World) : ExecResult * World :=
  let backupDir := backupDirAt (ticks w) in
  let tick := S (ticks w) in
  match FS.mkdirp (Path.resolve backupDir) (disk w) with
  | FS.Err e =>
    (ExecFailure e, {| disk := disk w; undoStack := undoStack w; ticks := tick |})
  | FS.Ok t0 =>
    match createCategories (folderPath plan) (categories plan) (t0, [], []) with
    | (t, _, _, Some e) =>
      (ExecFailure e, {| disk := t; undoStack := undoStack w; ticks := tick |})
    | (t1, createdDirs, ops1, None) =>
      let '(t2, ops2) :=
        fold_left (processFile (folderPath plan)) (plan_files plan) (t1, ops1) in
      let '(t3, ops3, tick3) :=
        fold_left (processDuplicate backupDir) (duplicatesToDelete plan)
                  (t2, ops2, tick) in
      (ExecSuccess (countType Move ops3) (countType Rename ops3)
                   (countType Delete ops3) (length createdDirs),
       {| disk := t3;
          undoStack := undoStack w ++
                         [ {| timestamp := Date_now tick3; operations := ops3 |} ];
          ticks := S tick3 |})
    end
  end.

(** One iteration of the undo loop: the tree and the [restored] counter. *)
Definition undoOperation (st : FS.node * nat) (op : Operation) : FS.node * nat :=
  let '(t, restored) := st in
  match type op, nonEmpty (to op), nonEmpty (backupPath op) with
  | Move, Some dest, _
  | Rename, Some dest, _ =>
    match FS.rename (Path.resolve dest) (Path.resolve (from op)) t with
    | FS.Ok t' => (t', S restored)
    | FS.Err _ => st
    end
  | Delete, _, Some backup =>
    match FS.copyFile (Path.resolve backup) (Path.resolve (from op)) t with
    | FS.Ok t1 =>
      match FS.unlink (Path.resolve backup) t1 with
      | FS.Ok t2 => (t2, S restored)
      | FS.Err _ => (t1, restored)
      end
    | FS.Err _ => st
    end
  | Mkdir, _, _ =>
    match FS.rmdir (Path.resolve (from op)) t with
    | FS.Ok t' => (t', restored)
    | FS.Err _ => st
    end
  | _, _, _ => st
  end.

Definition NOTHING_TO_UNDO : jsstring := js "没有可撤销的操作".

Definition undoOrganize (w : World) : UndoResult * World :=
  match rev (undoStack w) with
  | [] => (UndoFailure NOTHING_TO_UNDO, w)
  | lastUndo :: rest =>
    let '(t, restored) :=
      fold_left undoOperation (rev (operations lastUndo)) (disk w, 0%nat) in
    (UndoSuccess restored,
     {| disk := t; undoStack := rev rest; ticks := ticks w |})
  end.

End Engine.

(** ** [FileService.undoOrganize] (the file service class) *)

Module FileService.

Inductive fopType := Move | Rename | Delete | CreateDir.

Record FileOperation := {
  type : fopType;
  sourcePath : jsstring;
  targetPath : option jsstring;
  originalName : option jsstring;
  newName : option jsstring;
  timestamp : Z
}.

Record OperationHistory := {
  id : jsstring;
  folderPath : jsstring;
  h_timestamp : Z;
  operations : list FileOperation
}.

(** The disk and the private [history] field. *)
Record State := {
  disk : FS.node;
  history : list OperationHistory
}.

Inductive Outcome :=
| Success
| Failure (error : jsstring).

Definition rollbackOperation (t : FS.node) (op : FileOperation) : FS.node :=
  match type op with
  | Move | Delete =>
    match nonEmpty (targetPath op) with
    | Some target =>
      match FS.rename (Path.resolve target) (Path.resolve (sourcePath op)) t with
      | FS.Ok t' => t'
      | FS.Err _ => t
      end
    | None => t
    end
  | CreateDir =>
    match FS.rmdir (Path.resolve (sourcePath op)) t with
    | FS.Ok t' => t'
    | FS.Err _ => t
    end
  | Rename => t
  end.

Definition rollbackOperations (ops : list FileOperation) (t : FS.node) : FS.node :=
  fold_left rollbackOperation (rev ops) t.

(** [this.history.splice(index, 1)] at the first entry with the id *)
Fixpoint removeFirst (hid : jsstring) (h : list OperationHistory) : list OperationHistory :=
  match h with
  | [] => []
  | x :: r => if str_eqb (id x) hid then r else x :: removeFirst hid r
  end.

Definition NOTHING_TO_UNDO : jsstring := js "没有可撤销的操作".

Definition undoOrganize (historyId : option jsstring) (s : State) : Outcome * State :=
  match nonEmpty historyId with
  | Some hid =>
    match List.find (fun h => str_eqb (id h) hid) (history s) with
    | None => (Failure NOTHING_TO_UNDO, s)
    | Some h =>
      (Success, {| disk := rollbackOperations (operations h) (disk s);
                   history := removeFirst hid (history s) |})
    end
  | None =>
    match rev (history s) with
    | [] => (Failure NOTHING_TO_UNDO, s)
    | h :: rest =>
      (Success, {| disk := rollbackOperations (operations h) (disk s);
                   history := rev rest |})
    end
  end.

End FileService.

(** ** Vocabulary of the properties *)


(** Number of non-directory entries that [classifyFile] puts in a category. *)
Definition nonDirCount (files : list FileInfo) (c : jsstring) : nat :=
  length (List.filter
            (fun f => negb (isTrue (f_isDirectory f)) && str_eqb (classifyOf f) c) files).

(** The flags that the oracle's answer never touches. *)
Definition sameAdvice (r r' : AnalysisResult) : Prop :=
  r_path r = r_path r' /\ r_suggestedName r = r_suggestedName r'
  /\ r_needsRename r = r_needsRename r' /\ r_needsMove r = r_needsMove r'
  /\ r_isShortcut r = r_isShortcut r'.

Definition shortcutEntry (file : FileInfo) : bool :=
  isShortcutOrLink (f_name file) || isTrue (f_isSymlink file).

Definition jpg (n : string) : FileInfo :=
  {| f_name := js n; f_path := js "/d/" ++ js n; f_extension := js ".jpg";
     f_size := 2048; f_isDirectory := Some false; f_isSymlink := Some false;
     f_modifiedTime := None |}.

(** A base name of at least four characters that one of the patterns
    matches. *)
Definition messyName (fileName : jsstring) : Prop :=
  let name := Path.basename fileName (Path.extname fileName) in
  (4 <= length name)%nat /\ exists p, p ∈ messyPatterns /\ test p name = true.

Definition named (n : string) : FileInfo :=
  {| f_name := js n; f_path := js "/d/" ++ js n;
     f_extension := toLowerCase (Path.extname (js n));
     f_size := 2048; f_isDirectory := Some false; f_isSymlink := Some false;
     f_modifiedTime := None |}.

(** Exactly eight decimal digits. *)
Definition eightDigits (token : jsstring) : Prop :=
  length token = 8%nat /\ forallb is_digit token = true.

(** A calendar date whose year prints with four digits. *)
Definition fourDigitYear (d : civil) : Prop :=
  (1000 <= getFullYear d <= 9999)%Z /\ (0 <= getMonth d <= 11)%Z
  /\ (1 <= getDate d <= 31)%Z.

(** The date the fall-back reads: the modification time when it is a
    non-empty string, the clock otherwise. *)
Definition fallbackDate (Date_parse : jsstring -> JsDate)
    (modifiedTime : option jsstring) (now : civil) : JsDate :=
  match nonEmpty modifiedTime with
  | Some s => Date_parse s
  | None => Some now
  end.

(** Following the specification's words: a day-month-year date, normalized
    to YYYYMMDD. *)
Definition dayMonthYear_as_YYYYMMDD (day month year : jsstring) : jsstring :=
  year ++ month ++ day.

(** A run of [n] decimal digits. *)
Definition digitString (n : nat) (g : jsstring) : Prop :=
  length g = n /\ forallb is_digit g = true.

Definition printsAs (n : nat) (s : jsstring) : bool :=
  bool_decide (length s = n) && forallb is_digit s.

(** The grouping step shared by the two maps of the duplicate detector:
    append the element to the list stored under its key, if it has one. *)
Definition groupStep {K A : Type} `{EqDecision K} (key : A -> option K)
    (m : OMap.t K (list A)) (x : A) : OMap.t K (list A) :=
  match key x with
  | Some k => OMap.set m k (default [] (OMap.get m k) ++ [x])
  | None => m
  end.

(** The elements with a given key, in their order. *)
Definition keyed {K A : Type} `{EqDecision K} (key : A -> option K) (k : K)
    (xs : list A) : list A :=
  List.filter (fun x => bool_decide (key x = Some k)) xs.

Definition sizeKey (file : DupInput) : option N :=
  if d_size file =? 0 then None else Some (d_size file).

(** The files that get hashed, in hashing order. *)
Definition hashCandidates (sizeGroups : OMap.t N (list DupInput)) : list DupInput :=
  flat_map (fun '(_, group) => if (1 <? length group)%nat then group else [])
           sizeGroups.

Definition toInput (m : DupMember) : DupInput :=
  {| d_path := m_path m; d_size := m_size m; d_name := m_name m |}.


(** What a path holds, directory contents aside. *)
Inductive kind :=
| KNone
| KFile (data : list N)
| KDir.

#[global] Instance kind_eq_dec : EqDecision kind.
Proof. solve_decision. Defined.

Definition kindOf (o : option FS.node) : kind :=
  match o with
  | None => KNone
  | Some (FS.File c) => KFile c
  | Some (FS.Dir _) => KDir
  end.

(** Neither path is at or above the other. *)
Definition incomparable (p q : FS.path) : Prop :=
  FS.isPrefix p q = false /\ FS.isPrefix q p = false.

(** A path segment that names an entry: not empty, not ["."], not [".."]. *)
Definition normal (seg : jsstring) : Prop :=
  seg <> [] /\ seg <> [Path.DOT] /\ seg <> [Path.DOT; Path.DOT].

Definition slashFree (seg : jsstring) : Prop := Path.SLASH ∉ seg.

(** The file name of the candidate tried with a given counter. *)
Definition candidateName (targetPath : jsstring) (counter : N) : jsstring :=
  let ext := Path.extname targetPath in
  let base := Path.basename targetPath ext in
  base ++ js "_" ++ String_N counter ++ ext.

(** Building example trees: a directory from named entries. *)
Definition dir (entries : list (string * FS.node)) : FS.node :=
  FS.Dir (list_to_map (List.map (fun e => (js (fst e), snd e)) entries)).

Definition file (data : list N) : FS.node := FS.File data.

(** A folder [/d] with two screenshots and a text file. *)
Definition exampleTree : FS.node :=
  dir [("d", dir [("x.png", file [1]); ("y.png", file [2]); ("keep.txt", file [3])]);
       ("tmp", dir [])].


(** The segment that names the parent directory. *)
Definition dd : jsstring := [Path.DOT; Path.DOT].

(** The names in the directory in which the conflict loop looks. *)
Definition siblingNames (t : FS.node) (targetPath : jsstring) : gset jsstring :=
  match FS.lookup (Path.resolve (Path.dirname targetPath)) t with
  | Some (FS.Dir m) => dom m
  | _ => ∅
  end.

(** The log entry of a duplicate removed at clock reading [tick]. *)
Definition deleteOp (Date_now : nat -> Z) (backupDir duplicatePath : jsstring)
    (tick : nat) : Operation :=
  {| type := Delete; from := duplicatePath; to := None;
     backupPath := Some (backupPathOf Date_now backupDir duplicatePath tick) |}.

(** What [restoredFiles] counts when every entry of a log is undone. *)
Definition restoredCount (ops : list Operation) : nat :=
  (countType Move ops + countType Rename ops + countType Delete ops)%nat.

(** Replaying [new] backwards on [t'] gives [t], every file entry counted. *)
Definition undoes (new : list Operation) (t t' : FS.node) : Prop :=
  forall n,
    fold_left undoOperation (rev new) (t', n) = (t, (n + restoredCount new)%nat).

(** Every category directory that step 1 has to make lies directly inside
    a directory that exists when its turn comes, so that the recursive
    [mkdir] makes that one directory and no ancestor. *)
Fixpoint directCategories (folder : jsstring) (cats : list jsstring)
    (t : FS.node) : Prop :=
  match cats with
  | [] => True
  | category :: rest =>
    let p := Path.resolve (Path.join [folder; category]) in
    if FS.exists_ p t then directCategories folder rest t
    else FS.isDir (FS.parent p) t = true
         /\ directCategories folder rest (FS.update p (Some (FS.Dir ∅)) t)
  end.

(** Every backup name that step 3 draws is unused when it is drawn. *)
Fixpoint freshBackups (Date_now : nat -> Z) (backupDir : jsstring)
    (dups : list jsstring) (st : FS.node * list Operation * nat) : Prop :=
  match dups with
  | [] => True
  | duplicatePath :: rest =>
    FS.existsSync (backupPathOf Date_now backupDir duplicatePath (snd st))
      (fst (fst st)) = false
    /\ freshBackups Date_now backupDir rest
         (processDuplicate Date_now backupDir st duplicatePath)
  end.

(** A run over [exampleTree]: one category, two moves into it, one
    duplicate. *)
Definition moveTo (p category : string) : PlanFile :=
  {| p_path := js p; p_category := js category; p_newName := [];
     p_needsMove := true; p_needsRename := false |}.

Definition examplePlan : Plan :=
  {| folderPath := js "/d";
     categories := [js "pics"];
     plan_files := [moveTo "/d/x.png" "pics"; moveTo "/d/y.png" "pics"];
     duplicatesToDelete := [js "/d/keep.txt"] |}.

Definition exampleWorld : World :=
  {| disk := exampleTree; undoStack := []; ticks := 0 |}.

Definition exampleClock (tick : nat) : Z := 1700000000000 + Z.of_nat tick.

(** [exampleTree] once the backup directory of the example run exists. *)
Definition exampleBackedUp : FS.node :=
  FS.update [js "tmp"; js "zhili-backup-1700000000000"] (Some (FS.Dir ∅)) exampleTree.

(** The same plan with a category two levels below the folder. *)
Definition nestedPlan : Plan :=
  {| folderPath := js "/d";
     categories := [js "a/b"];
     plan_files := [];
     duplicatesToDelete := [] |}.

(** Three files to compare: two of three bytes with one digest, one of
    five bytes with another. *)
Definition exampleHash (p : jsstring) : option jsstring :=
  if str_eqb p (js "/d/c.bin") then Some (js "h2") else Some (js "h1").

Definition exampleInputs : list DupInput :=
  [ {| d_path := js "/d/a.bin"; d_size := 3; d_name := js "a.bin" |};
    {| d_path := js "/d/c.bin"; d_size := 5; d_name := js "c.bin" |};
    {| d_path := js "/d/b.bin"; d_size := 3; d_name := js "b.bin" |} ].

Definition exampleGroup : DuplicateGroup :=
  {| hash := js "h1";
     files := [ {| m_path := js "/d/a.bin"; m_name := js "a.bin"; m_size := 3;
                   isKeep := true |};
                {| m_path := js "/d/b.bin"; m_name := js "b.bin"; m_size := 3;
                   isKeep := false |} ] |}.


(** ** Vocabulary of the further properties *)

(** The labels [classifyFile] can give to a regular file and to a
    directory. *)
Definition fileCategories : list jsstring :=
  [Shortcut; Invoice; Contract; Screenshot; Manual; Document; Image; Video;
   Audio; Archive; Code; Program; Other].

Definition folderCategories : list jsstring :=
  [Code; Image; Video; Audio; Document; Download; Backup; Program; Folder].

(** The entries whose names are sent to the tool. *)
Definition unclassified (files : list FileInfo) : list FileInfo :=
  List.filter
    (fun f => negb (truthy (f_isDirectory f)) && str_eqb (classifyOf f) Other) files.

(** A result after the tool's answer [a] has been merged into it. *)
Definition reclassified (a : AiResult) (r : AnalysisResult) : AnalysisResult :=
  {| r_path := r_path r;
     r_category := ai_category a;
     r_suggestedName := r_suggestedName r;
     r_needsRename := r_needsRename r;
     r_needsMove := r_needsMove r;
     r_isShortcut := r_isShortcut r;
     r_confidence := 9;
     r_aiReason := Some (ai_reason a) |}.

(** A result is the rule-based one, or the rule-based one of category 其他
    with an answer for its base name merged into it. *)
Definition mergedFrom (answers : list (option AiResult)) (r0 r : AnalysisResult) : Prop :=
  r = r0
  \/ (r_category r0 = Other
      /\ exists a, Some a ∈ answers
                   /\ ai_category a <> Other
                   /\ ai_name a = Path.basename (r_path r0) []
                   /\ r = reclassified a r0).

(** A tool that never answers. *)
Definition silent : list jsstring -> option (list (option AiResult)) := fun _ => None.

(** A tool that files [random_file.xyz] under 文档. *)
Definition exampleAnswers : list (option AiResult) :=
  [Some {| ai_name := js "random_file.xyz"; ai_category := Document;
           ai_reason := js "notes" |}].

Definition exampleOracle : list jsstring -> option (list (option AiResult)) :=
  fun _ => Some exampleAnswers.

(** A hash function that cannot read [/d/c.bin]. *)
Definition exampleHash' (p : jsstring) : option jsstring :=
  if str_eqb p (js "/d/c.bin") then None else Some (js "h1").

(** The three kinds of entries of a run's log. *)
Definition mkdirEntry (folder : jsstring) (cats : list jsstring) (op : Operation) : Prop :=
  exists category,
    category ∈ cats
    /\ op = {| type := Mkdir; from := Path.join [folder; category];
               to := None; backupPath := None |}.

Definition fileEntry (files : list PlanFile) (op : Operation) : Prop :=
  exists file target,
    file ∈ files
    /\ op = {| type := if p_needsMove file then Move else Rename;
               from := p_path file; to := Some target; backupPath := None |}.

Definition deleteEntry (dups : list jsstring) (op : Operation) : Prop :=
  exists duplicatePath backup,
    duplicatePath ∈ dups
    /\ op = {| type := Delete; from := duplicatePath; to := None;
               backupPath := Some backup |}.

(** A log whose only entry can no longer be undone: the moved file is
    gone. *)
Definition staleLog : UndoInfo :=
  {| timestamp := 0;
     operations := [ {| type := Move; from := js "/d/gone.png";
                        to := Some (js "/d/pics/gone.png"); backupPath := None |} ] |}.

Definition staleWorld : World :=
  {| disk := exampleTree; undoStack := [staleLog]; ticks := 5 |}.

(** ** [electron/main.ts]: the AI log *)

Module AILog.

Inductive entryType := request | response | error | fallback | info.

Record AILogEntry := {
  id : jsstring;
  timestamp : jsstring;
  type : entryType;
  content : jsstring;
  duration : option Z              (* duration?: number *)
}.

(** The module-level [aiLogs], whether [mainWindow] is set, and what has
    been sent to it on the channel [ai-log-update]. *)
Record State := {
  aiLogs : list AILogEntry;
  mainWindow : bool;
  sent : list AILogEntry
}.

(** What a call reads from its environment: [Date.now()], the digits
    [Math.random().toString(36).substr(2, 9)] and
    [new Date().toISOString()]. *)
Record Readings := {
  now : Z;
  random36 : jsstring;
  isoNow : jsstring
}.

Definition entryOf (r : Readings) (type : entryType) (content : jsstring)
    (duration : option Z) : AILogEntry :=
  {| id := String_Z (now r) ++ js "-" ++ random36 r;
     timestamp := isoNow r;
     type := type;
     content := content;
     duration := duration |}.

(** [l.slice(-n)] *)
Definition sliceLast {A} (n : nat) (l : list A) : list A := drop (length l - n) l.

Definition addAILog (r : Readings) (type : entryType) (content : jsstring)
    (duration : option Z) (s : State) : State :=
  let entry := entryOf r type content duration in
  let logs := aiLogs s ++ [entry] in
  let logs := if (200 <? length logs)%nat then sliceLast 200 logs else logs in
  {| aiLogs := logs;
     mainWindow := mainWindow s;
     sent := if mainWindow s then sent s ++ [entry] else sent s |}.

(** [ai:getLogs] and [ai:clearLogs] *)
Definition getLogs (s : State) : list AILogEntry := aiLogs s.

Definition clearLogs (s : State) : State :=
  {| aiLogs := []; mainWindow := mainWindow s; sent := sent s |}.

(** One call of [addAILog], with what it reads. *)
Record Call := {
  c_readings : Readings;
  c_type : entryType;
  c_content : jsstring;
  c_duration : option Z
}.

Definition call (s : State) (c : Call) : State :=
  addAILog (c_readings c) (c_type c) (c_content c) (c_duration c) s.

Definition entryOfCall (c : Call) : AILogEntry :=
  entryOf (c_readings c) (c_type c) (c_content c) (c_duration c).

End AILog.

(** An empty log with a window, and one call. *)
Definition emptyLog : AILog.State :=
  {| AILog.aiLogs := []; AILog.mainWindow := true; AILog.sent := [] |}.

Definition exampleCall : AILog.Call :=
  {| AILog.c_readings := {| AILog.now := 17; AILog.random36 := js "k3j9x0q1z";
                            AILog.isoNow := js "2024-01-08T00:00:00.000Z" |};
     AILog.c_type := AILog.info; AILog.c_content := js "start";
     AILog.c_duration := None |}.

(** ** [FileService.executeOrganize] *)

Module FileServiceRun.

Record RunFile := {
  rf_path : jsstring;
  rf_newName : jsstring;
  rf_category : jsstring;
  rf_selected : bool
}.

(** A duplicate group: the paths of its files, and [keepIndex]. *)
Record RunGroup := {
  g_files : list jsstring;
  keepIndex : Z
}.

Record RunPlan := {
  sourceFolder : jsstring;
  run_files : list RunFile;
  duplicates : option (list RunGroup)      (* duplicates?: ... *)
}.

Inductive RunResult :=
| RunSuccess (historyId : jsstring)
| RunFailure (error : FS.errno).

Definition maxHistorySize : nat := 10.

(** [[...new Set(xs)]]: the first occurrence of each element, in order. *)
Fixpoint uniq (seen xs : list jsstring) : list jsstring :=
  match xs with
  | [] => []
  | x :: rest =>
    if arr_includes seen x then uniq seen rest else x :: uniq (seen ++ [x]) rest
  end.

(** [fileExists]: whether [fs.promises.access] succeeds. *)
Definition fileExists (filePath : jsstring) (t : FS.node) : bool :=
  FS.existsSync filePath t.

(** [makeUniqueName]: the loop is the one of the main process, with
    [dir], [ext] and [base] read once before it. *)
Definition makeUniqueName (t : FS.node) (filePath : jsstring) : jsstring :=
  conflictLoop (conflictFuel t filePath) t filePath filePath 1.

Section Run.

(** The successive values of [Date.now()] and [new Date()], and of
    [Math.random().toString(36).substr(2, 9)]. *)
Variable Date_now : nat -> Z.
Variable random36 : nat -> jsstring.

Definition generateId (tick : nat) : jsstring :=
  String_Z (Date_now tick) ++ js "-" ++ random36 tick.

Definition operation (ty : FileService.fopType) (source : jsstring)
    (target : option jsstring) (tick : nat) : FileService.FileOperation :=
  {| FileService.type := ty;
     FileService.sourcePath := source;
     FileService.targetPath := target;
     FileService.originalName := None;
     FileService.newName := None;
     FileService.timestamp := Date_now tick |}.

(** The state inside the [try] block: the tree, [operations] and the
    number of clock readings; [Some e] is the error that was thrown. *)
Definition RunState : Type := FS.node * list FileService.FileOperation * nat.

(** Step 1: one [mkdir] with [recursive] for each category. *)
Fixpoint createDirs (targetRoot : jsstring) (cats : list jsstring) (st : RunState)
  : RunState * option FS.errno :=
  match cats with
  | [] => (st, None)
  | category :: rest =>
    let '(t, ops, tick) := st in
    let categoryPath := Path.join [targetRoot; category] in
    match FS.mkdirp (Path.resolve categoryPath) t with
    | FS.Ok t' =>
      createDirs targetRoot rest
        (t', ops ++ [operation FileService.CreateDir categoryPath None tick], S tick)
    | FS.Err e => (st, Some e)
    end
  end.

Definition destination (targetRoot : jsstring) (t : FS.node) (file : RunFile) : jsstring :=
  let targetDir := Path.join [targetRoot; rf_category file] in
  let targetPath := Path.join [targetDir; rf_newName file] in
  if fileExists targetPath t then makeUniqueName t targetPath else targetPath.

(** Step 2: the selected files. *)
Fixpoint moveFiles (targetRoot : jsstring) (files : list RunFile) (st : RunState)
  : RunState * option FS.errno :=
  match files with
  | [] => (st, None)
  | file :: rest =>
    if negb (rf_selected file) then moveFiles targetRoot rest st
    else
      let '(t, ops, tick) := st in
      let dest := destination targetRoot t file in
      match FS.rename (Path.resolve (rf_path file)) (Path.resolve dest) t with
      | FS.Ok t' =>
        moveFiles targetRoot rest
          (t', ops ++ [operation FileService.Move (rf_path file) (Some dest) tick], S tick)
      | FS.Err e => (st, Some e)
      end
  end.

(** Step 3, the files of one group from index [i] on. *)
Fixpoint backupGroup (targetRoot : jsstring) (keep : Z) (i : Z) (files : list jsstring)
    (st : RunState) : RunState * option FS.errno :=
  match files with
  | [] => (st, None)
  | filePath :: rest =>
    if bool_decide (i <> keep) then
      let '(t, ops, tick) := st in
      let backupPath :=
        Path.join [targetRoot; js ".duplicates_backup"; Path.basename filePath []] in
      match FS.mkdirp (Path.resolve (Path.dirname backupPath)) t with
      | FS.Ok t1 =>
        match FS.rename (Path.resolve filePath) (Path.resolve backupPath) t1 with
        | FS.Ok t2 =>
          backupGroup targetRoot keep (i + 1)%Z rest
            (t2, ops ++ [operation FileService.Delete filePath (Some backupPath) tick],
             S tick)
        | FS.Err e => ((t1, ops, tick), Some e)
        end
      | FS.Err e => (st, Some e)
      end
    else backupGroup targetRoot keep (i + 1)%Z rest st
  end.

Fixpoint backupDuplicates (targetRoot : jsstring) (groups : list RunGroup)
    (st : RunState) : RunState * option FS.errno :=
  match groups with
  | [] => (st, None)
  | group :: rest =>
    match backupGroup targetRoot (keepIndex group) 0%Z (g_files group) st with
    | (st', None) => backupDuplicates targetRoot rest st'
    | failed => failed
    end
  end.

(** The body of the [try] block up to the history. *)
Definition steps (plan : RunPlan) (st : RunState) : RunState * option FS.errno :=
  let targetRoot := sourceFolder plan ++ js "_整理后" in
  let categories :=
    uniq [] (List.map rf_category (List.filter rf_selected (run_files plan))) in
  match createDirs targetRoot categories st with
  | (st1, None) =>
    match moveFiles targetRoot (run_files plan) st1 with
    | (st2, None) =>
      match duplicates plan with
      | Some groups => backupDuplicates targetRoot groups st2
      | None => (st2, None)
      end
    | failed => failed
    end
  | failed => failed
  end.

(** [this.history.push(entry)], then [shift] above [maxHistorySize]. *)
Definition pushHistory (history : list FileService.OperationHistory)
    (entry : FileService.OperationHistory) : list FileService.OperationHistory :=
  let history := history ++ [entry] in
  if (maxHistorySize <? length history)%nat then tail history else history.

Definition executeOrganize (plan : RunPlan) (s : FileService.State) (tick : nat)
  : RunResult * FileService.State * nat :=
  let historyId := generateId tick in
  match steps plan (FileService.disk s, [], S tick) with
  | ((t, ops, tick'), None) =>
    (RunSuccess historyId,
     {| FileService.disk := t;
        FileService.history :=
          pushHistory (FileService.history s)
            {| FileService.id := historyId;
               FileService.folderPath := sourceFolder plan;
               FileService.h_timestamp := Date_now tick';
               FileService.operations := ops |} |},
     S tick')
  | ((t, ops, tick'), Some e) =>
    (RunFailure e,
     {| FileService.disk := FileService.rollbackOperations ops t;
        FileService.history := FileService.history s |},
     tick')
  end.

End Run.

End FileServiceRun.

(** A run of the service over [exampleTree]: both screenshots go to
    [/d_整理后/pics] under the same new name. *)
Definition exampleRun : FileServiceRun.RunPlan :=
  {| FileServiceRun.sourceFolder := js "/d";
     FileServiceRun.run_files :=
       [ {| FileServiceRun.rf_path := js "/d/x.png";
            FileServiceRun.rf_newName := js "shot.png";
            FileServiceRun.rf_category := js "pics";
            FileServiceRun.rf_selected := true |};
         {| FileServiceRun.rf_path := js "/d/y.png";
            FileServiceRun.rf_newName := js "shot.png";
            FileServiceRun.rf_category := js "pics";
            FileServiceRun.rf_selected := true |} ];
     FileServiceRun.duplicates := None |}.

Definition exampleService : FileService.State :=
  {| FileService.disk := exampleTree; FileService.history := [] |}.

Definition exampleRandom (tick : nat) : jsstring := js "k3j9x0q1z".

(** A history of two runs without operations. *)
Definition emptyRun (hid : string) : FileService.OperationHistory :=
  {| FileService.id := js hid; FileService.folderPath := js "/d";
     FileService.h_timestamp := 0; FileService.operations := [] |}.

Definition twoRuns : FileService.State :=
  {| FileService.disk := exampleTree;
     FileService.history := [emptyRun "run-1"; emptyRun "run-2"] |}.

(** ** Plain objects used as dictionaries

    An object literal [{}] inherits the properties of [Object.prototype];
    [Object.entries] lists the own keys that are array indices first, in
    ascending order, then the other keys in insertion order. *)

Module JSObject.

(** The property names of [Object.prototype] in Node.  Reading any of them
    from an object without such an own property gives a function, or for
    [__proto__] the prototype itself: a truthy value without [push]. *)
Definition inherited : list jsstring :=
  List.map js
    [ "constructor"; "__defineGetter__"; "__defineSetter__"; "hasOwnProperty";
      "__lookupGetter__"; "__lookupSetter__"; "isPrototypeOf";
      "propertyIsEnumerable"; "toString"; "valueOf"; "__proto__";
      "toLocaleString" ]%string.

Definition digitsValue (s : jsstring) : N :=
  fold_left (fun acc c => acc * 10 + (c - 48)) s 0.

(** The array index that a key denotes: the canonical decimal form of an
    integer from 0 to 2^32 - 2. *)
Definition arrayIndex (s : jsstring) : option N :=
  if forallb is_digit s && negb (bool_decide (s = []))
     && str_eqb (String_N (digitsValue s)) s
     && (digitsValue s <=? 4294967294)
  then Some (digitsValue s) else None.

Section Entries.
Context {V : Type}.

Fixpoint insertIndexed (x : N * (jsstring * V)) (l : list (N * (jsstring * V)))
  : list (N * (jsstring * V)) :=
  match l with
  | [] => [x]
  | y :: r => if fst x <=? fst y then x :: l else y :: insertIndexed x r
  end.

Definition indexed (m : OMap.t jsstring V) : list (N * (jsstring * V)) :=
  flat_map (fun kv => match arrayIndex (fst kv) with
                      | Some n => [(n, kv)]
                      | None => []
                      end) m.

Definition named (m : OMap.t jsstring V) : list (jsstring * V) :=
  List.filter (fun kv => match arrayIndex (fst kv) with
                         | Some _ => false
                         | None => true
                         end) m.

(** [Object.entries(obj)] *)
Definition entries (m : OMap.t jsstring V) : list (jsstring * V) :=
  List.map snd (fold_right insertIndexed [] (indexed m)) ++ named m.

(** [if (!obj[key]) obj[key] = []; obj[key].push(x)]: [None] is the
    [TypeError] raised when [obj[key]] is an inherited value. *)
Definition pushTo (obj : OMap.t jsstring (list V)) (key : jsstring) (x : V)
  : option (OMap.t jsstring (list V)) :=
  match OMap.get obj key with
  | Some l => Some (OMap.set obj key (l ++ [x]))
  | None =>
    if arr_includes inherited key then None
    else Some (OMap.set obj key ([] ++ [x]))
  end.

(** [xs.forEach(x => { ...push x under key(x)... })] *)
Fixpoint groupInto (key : V -> jsstring) (xs : list V)
    (obj : OMap.t jsstring (list V)) : option (OMap.t jsstring (list V)) :=
  match xs with
  | [] => Some obj
  | x :: rest =>
    match pushTo obj (key x) x with
    | Some obj' => groupInto key rest obj'
    | None => None
    end
  end.

End Entries.

End JSObject.

(** ** [data/mockData.ts]: [generateOrganizePlan] *)

Module MockData.

(** [types.ts]: a [Date] object is its time value, [None] when that is
    [NaN]. *)
Record FileItem := {
  id : jsstring;
  name : jsstring;
  originalName : jsstring;
  newName : jsstring;
  type : jsstring;
  size : N;
  category : jsstring;
  path : jsstring;
  hash : option jsstring;             (* hash?: string *)
  duplicateOf : option jsstring;
  content : option jsstring;
  createdAt : option Z;
  modifiedAt : option Z;
  selected : bool;
  keepInDuplicate : option bool;
  isDirectory : option bool;
  isSymlink : option bool;
  isShortcut : option bool;
  needsRename : option bool;
  needsMove : option bool
}.

Record DuplicateGroup := {
  g_hash : jsstring;
  g_files : list FileItem;
  keepIndex : Z
}.

Record Stats := {
  totalFiles : nat;
  totalFolders : nat;
  totalSize : N;
  categorizedCount : list (jsstring * nat);
  duplicateCount : nat;
  renamedCount : nat;
  movedCount : nat;
  shortcutCount : nat
}.

Record NamingRules := {
  addDatePrefix : bool;
  extractTheme : bool;
  keepOriginalName : bool;
  dateFormat : jsstring
}.

Record OrganizePlan := {
  files : list FileItem;
  categories : OMap.t jsstring (list FileItem);
  duplicates : list DuplicateGroup;
  stats : Stats;
  namingRules : NamingRules;
  categoriesNeedingFolders : list jsstring
}.

(** [file.hash || 'no-hash'] *)
Definition hashKey (file : FileItem) : jsstring :=
  match hash file with
  | Some (c :: r) => c :: r
  | _ => js "no-hash"
  end.

Definition needsFolder (entry : jsstring * list FileItem) : bool :=
  (3 <=? length (snd entry))%nat
  && negb (str_eqb (fst entry) Shortcut) && negb (str_eqb (fst entry) Other)
  && negb (str_eqb (fst entry) Folder).

(** The sizes are byte counts; their sum is exact below 2^53.  [None] is a
    [TypeError] thrown by one of the two grouping loops. *)
Definition generateOrganizePlan (files : list FileItem) : option OrganizePlan :=
  match JSObject.groupInto category files [] with
  | None => None
  | Some categorizedFiles =>
    match JSObject.groupInto hashKey files [] with
    | None => None
    | Some hashMap =>
      let duplicates :=
        List.map (fun '(h, fs) => {| g_hash := h; g_files := fs; keepIndex := 0%Z |})
          (List.filter (fun '(_, fs) => (1 <? length fs)%nat)
             (JSObject.entries hashMap)) in
      let filesOnly := List.filter (fun f => negb (truthy (isDirectory f))) files in
      let foldersOnly := List.filter (fun f => truthy (isDirectory f)) files in
      let shortcuts := List.filter (fun f => truthy (isShortcut f)) files in
      let needsRename := List.filter (fun f => truthy (needsRename f)) files in
      let needsMove := List.filter (fun f => truthy (needsMove f)) files in
      Some
        {| files := files;
           categories := categorizedFiles;
           duplicates := duplicates;
           stats :=
             {| totalFiles := length filesOnly;
                totalFolders := length foldersOnly;
                totalSize := fold_left (fun sum f => sum + size f) files 0;
                categorizedCount :=
                  List.map (fun '(k, v) => (k, length v))
                    (JSObject.entries categorizedFiles);
                duplicateCount :=
                  fold_left (fun sum g => (sum + length (g_files g) - 1)%nat) duplicates 0%nat;
                renamedCount := length needsRename;
                movedCount := length needsMove;
                shortcutCount := length shortcuts |};
           namingRules :=
             {| addDatePrefix := true; extractTheme := true;
                keepOriginalName := false; dateFormat := js "YYYYMMDD" |};
           categoriesNeedingFolders :=
             List.map fst (List.filter needsFolder (JSObject.entries categorizedFiles)) |}
    end
  end.

End MockData.

(** The items with a given key, in their order. *)
Definition withKey {A} (key : A -> jsstring) (k : jsstring) (xs : list A) : list A :=
  List.filter (fun x => str_eqb (key x) k) xs.

Definition mockItem (n : string) (cat : jsstring) (h : option jsstring) : MockData.FileItem :=
  {| MockData.id := js n; MockData.name := js n; MockData.originalName := js n;
     MockData.newName := js n; MockData.type := js "jpg"; MockData.size := 10;
     MockData.category := cat; MockData.path := js "/Downloads/" ++ js n;
     MockData.hash := h; MockData.duplicateOf := None; MockData.content := None;
     MockData.createdAt := Some 0%Z; MockData.modifiedAt := Some 0%Z;
     MockData.selected := true; MockData.keepInDuplicate := Some true;
     MockData.isDirectory := None; MockData.isSymlink := None;
     MockData.isShortcut := None; MockData.needsRename := None;
     MockData.needsMove := None |}.

(** Three images, two of them without a hash. *)
Definition mockItems : list MockData.FileItem :=
  [ mockItem "a.jpg" Image None; mockItem "b.jpg" Image (Some (js "h"));
    mockItem "c.jpg" Image None ].

(** A hexadecimal digit, in either case. *)
Definition isHexDigit (c : N) : bool :=
  is_digit c || ((97 <=? c) && (c <=? 102)) || ((65 <=? c) && (c <=? 70)).

(** ** The renderer: from a scan to the plan that is executed *)

Module App.

(** [hooks/useElectron.ts] *)
Record ScannedFile := {
  name : jsstring;
  path : jsstring;
  size : N;
  modifiedTime : jsstring;
  extension : jsstring;
  isDirectory : bool;
  isSymlink : option bool             (* isSymlink?: boolean *)
}.

(** [s.replace('.', '')]: the first dot is removed. *)
Fixpoint removeFirstDot (s : jsstring) : jsstring :=
  match s with
  | [] => []
  | c :: r => if c =? Path.DOT then r else c :: removeFirstDot r
  end.

(** [s.split('.').pop()]: what follows the last dot, or all of [s]. *)
Fixpoint afterLastDot (s : jsstring) : jsstring :=
  match s with
  | [] => []
  | c :: r =>
    if existsb (N.eqb Path.DOT) r then afterLastDot r
    else if c =? Path.DOT then r else c :: r
  end.

(** [xs.filter((_, i) => i !== keep)] *)
Definition othersThan {A} (keep : Z) (xs : list A) : list A :=
  List.map snd
    (List.filter (fun ix => negb (Z.of_nat (fst ix) =? keep)%Z) (imap pair xs)).

(** [components/Executing.tsx]: the object sent to [fs:executeOrganize].
    Its files carry [path], [category] and [newName] only, so that the
    handler reads [needsMove] and [needsRename] as [undefined]. *)
Definition organizePlan (folder : jsstring) (plan : MockData.OrganizePlan) : Plan :=
  {| folderPath := folder;
     categories := List.map fst (JSObject.entries (MockData.categories plan));
     plan_files :=
       List.map (fun f => {| p_path := MockData.path f;
                             p_category := MockData.category f;
                             p_newName := MockData.newName f;
                             p_needsMove := false;
                             p_needsRename := false |})
         (List.filter MockData.selected (MockData.files plan));
     duplicatesToDelete :=
       flat_map (fun g => List.map MockData.path
                            (othersThan (MockData.keepIndex g) (MockData.g_files g)))
         (MockData.duplicates plan) |}.

Section Desktop.

(** [new Date(s).getTime()], [None] for [NaN], and the successive values
    of [Date.now()] and [new Date()]. *)
Variable Date_value : jsstring -> option Z.
Variable Date_now : nat -> Z.

(** [App.tsx]: [convertToFileItems], one element. *)
Definition convertToFileItem (analysisResults : option (list AnalysisResult))
    (tick : nat) (index : nat) (sf : ScannedFile) : MockData.FileItem :=
  let analysis :=
    match analysisResults with
    | Some rs => List.find (fun r => str_eqb (r_path r) (path sf)) rs
    | None => None
    end in
  let category :=
    match analysis with
    | Some a => match r_category a with [] => Other | c => c end
    | None => Other
    end in
  let isShortcut :=
    match analysis with
    | Some a => r_isShortcut a || str_eqb category Shortcut
    | None => str_eqb category Shortcut
    end in
  let needsRename := match analysis with Some a => r_needsRename a | None => false end in
  let needsMove := match analysis with Some a => r_needsMove a | None => false end in
  let newName :=
    if isDirectory sf || negb needsRename then name sf
    else match analysis with
         | Some a => match r_suggestedName a with [] => name sf | s => s end
         | None => name sf
         end in
  {| MockData.id := js "file-" ++ String_N (N.of_nat index) ++ js "-"
                      ++ String_Z (Date_now tick);
     MockData.name := name sf;
     MockData.originalName := name sf;
     MockData.newName := newName;
     MockData.type := if isDirectory sf then js "folder"
                      else removeFirstDot (extension sf);
     MockData.size := size sf;
     MockData.category := category;
     MockData.path := path sf;
     MockData.hash := None;
     MockData.duplicateOf := None;
     MockData.content := None;
     MockData.createdAt := Date_value (modifiedTime sf);
     MockData.modifiedAt := Date_value (modifiedTime sf);
     MockData.selected := true;
     MockData.keepInDuplicate := Some true;
     MockData.isDirectory := Some (isDirectory sf);
     MockData.isSymlink := isSymlink sf;
     MockData.isShortcut := Some isShortcut;
     MockData.needsRename := Some needsRename;
     MockData.needsMove := Some needsMove |}.

(** Each element reads the clock once, in order. *)
Definition convertToFileItems (scannedFiles : list ScannedFile)
    (analysisResults : option (list AnalysisResult)) (tick : nat)
  : list MockData.FileItem :=
  imap (fun index sf => convertToFileItem analysisResults (tick + index) index sf)
    scannedFiles.

(** [convertDuplicates], one file: two readings of the clock. *)
Definition convertMember (h : jsstring) (tick : nat) (idx : nat) (f : DupMember)
  : MockData.FileItem :=
  {| MockData.id := js "dup-" ++ h ++ js "-" ++ String_N (N.of_nat idx);
     MockData.name := m_name f;
     MockData.originalName := m_name f;
     MockData.newName := m_name f;
     MockData.type := afterLastDot (m_name f);
     MockData.size := m_size f;
     MockData.category := Other;
     MockData.path := m_path f;
     MockData.hash := None;
     MockData.duplicateOf := None;
     MockData.content := None;
     MockData.createdAt := Some (Date_now tick);
     MockData.modifiedAt := Some (Date_now (S tick));
     MockData.selected := true;
     MockData.keepInDuplicate := Some (isKeep f);
     MockData.isDirectory := None;
     MockData.isSymlink := None;
     MockData.isShortcut := None;
     MockData.needsRename := None;
     MockData.needsMove := None |}.

Definition keepIndexOf (members : list DupMember) : Z :=
  match findIndex isKeep members with
  | Some i => Z.of_nat i
  | None => (-1)%Z
  end.

Fixpoint convertDuplicates (dups : list DuplicateGroup) (tick : nat)
  : list MockData.DuplicateGroup :=
  match dups with
  | [] => []
  | dup :: rest =>
    {| MockData.g_hash := hash dup;
       MockData.g_files :=
         imap (fun idx f => convertMember (hash dup) (tick + 2 * idx) idx f) (files dup);
       MockData.keepIndex := keepIndexOf (files dup) |}
    :: convertDuplicates rest (tick + 2 * length (files dup))
  end.

Definition emptyPlan : MockData.OrganizePlan :=
  {| MockData.files := [];
     MockData.categories := [];
     MockData.duplicates := [];
     MockData.stats :=
       {| MockData.totalFiles := 0; MockData.totalFolders := 0;
          MockData.totalSize := 0; MockData.categorizedCount := [];
          MockData.duplicateCount := 0; MockData.renamedCount := 0;
          MockData.movedCount := 0; MockData.shortcutCount := 0 |};
     MockData.namingRules :=
       {| MockData.addDatePrefix := true; MockData.extractTheme := true;
          MockData.keepOriginalName := false; MockData.dateFormat := js "YYYYMMDD" |};
     MockData.categoriesNeedingFolders := [] |}.

(** What [handleScanComplete] sends to the two handlers. *)
Definition toAnalyze (sf : ScannedFile) : FileInfo :=
  {| f_name := name sf; f_path := path sf; f_extension := extension sf;
     f_size := size sf; f_isDirectory := Some (isDirectory sf);
     f_isSymlink := None; f_modifiedTime := None |}.

Definition filesForDupCheck (scannedFiles : list ScannedFile) : list DupInput :=
  List.map (fun sf => {| d_path := path sf; d_size := size sf; d_name := name sf |})
    (List.filter (fun sf => negb (isDirectory sf)) scannedFiles).

(** [stats.duplicateCount = duplicates.reduce(...)] *)
Definition withDuplicates (plan : MockData.OrganizePlan)
    (dups : list MockData.DuplicateGroup) (count : nat) : MockData.OrganizePlan :=
  {| MockData.files := MockData.files plan;
     MockData.categories := MockData.categories plan;
     MockData.duplicates := dups;
     MockData.stats :=
       {| MockData.totalFiles := MockData.totalFiles (MockData.stats plan);
          MockData.totalFolders := MockData.totalFolders (MockData.stats plan);
          MockData.totalSize := MockData.totalSize (MockData.stats plan);
          MockData.categorizedCount := MockData.categorizedCount (MockData.stats plan);
          MockData.duplicateCount := count;
          MockData.renamedCount := MockData.renamedCount (MockData.stats plan);
          MockData.movedCount := MockData.movedCount (MockData.stats plan);
          MockData.shortcutCount := MockData.shortcutCount (MockData.stats plan) |};
     MockData.namingRules := MockData.namingRules plan;
     MockData.categoriesNeedingFolders := MockData.categoriesNeedingFolders plan |}.

(** The desktop branch of [handleScanComplete] after the scan, given the
    answers of [ai:analyzeFiles] and [fs:detectDuplicates]; [None] when an
    exception sends the user back to the folder selection. *)
Definition planFrom (scannedFiles : list ScannedFile) (results : list AnalysisResult)
    (duplicates : list DuplicateGroup) (tick : nat) : option MockData.OrganizePlan :=
  match scannedFiles with
  | [] => Some emptyPlan
  | _ :: _ =>
    let fileItems := convertToFileItems scannedFiles (Some results) tick in
    match MockData.generateOrganizePlan fileItems with
    | None => None
    | Some generatedPlan =>
      if (0 <? length duplicates)%nat then
        Some (withDuplicates generatedPlan
                (convertDuplicates duplicates (tick + length scannedFiles))
                (fold_left (fun sum d => (sum + length (files d) - 1)%nat) duplicates 0%nat))
      else Some generatedPlan
    end
  end.

Variable Date_parse : jsstring -> JsDate.
Variable currentUser : jsstring.
Variable now : civil.
Variable isOpencodeAvailable : bool.
Variable oracle : list jsstring -> option (list (option AiResult)).
Variable calculateFileHash : jsstring -> option jsstring.

Definition handleScanComplete (scannedFiles : list ScannedFile) (tick : nat)
  : option MockData.OrganizePlan :=
  planFrom scannedFiles
    (results (analyzeFiles Date_parse currentUser now isOpencodeAvailable oracle
                (List.map toAnalyze scannedFiles)))
    (detectDuplicates calculateFileHash (filesForDupCheck scannedFiles))
    tick.

End Desktop.

End App.

(** The scan of [/d] in [exampleTree], with sizes that differ. *)
Definition scanned (n : string) (sz : N) : App.ScannedFile :=
  {| App.name := js n; App.path := js "/d/" ++ js n; App.size := sz;
     App.modifiedTime := js "2024-01-08T00:00:00.000Z";
     App.extension := toLowerCase (Path.extname (js n));
     App.isDirectory := false; App.isSymlink := Some false |}.

Definition exampleScan : list App.ScannedFile :=
  [scanned "x.png" 1; scanned "y.png" 2; scanned "keep.txt" 3].

Definition exampleDates (s : jsstring) : option Z := Some 1704672000000%Z.

(** The plan of the example scan when no tool is installed. *)
Definition exampleDesktopPlan : MockData.OrganizePlan :=
  default App.emptyPlan
    (App.handleScanComplete exampleDates exampleClock (fun _ => None) (js "me")
       (Civil 2024 0 8) false silent (fun _ => Some (js "h1")) exampleScan 0).

(** The same scan with two files of one size and one digest. *)
Definition twinScan : list App.ScannedFile :=
  [scanned "x.png" 1; scanned "y.png" 1; scanned "keep.txt" 3].

Definition twinPlan : MockData.OrganizePlan :=
  default App.emptyPlan
    (App.handleScanComplete exampleDates exampleClock (fun _ => None) (js "me")
       (Civil 2024 0 8) false silent (fun _ => Some (js "h1")) twinScan 0).

(** The plan made of [mockItems]. *)
Definition mockPlan : MockData.OrganizePlan :=
  default App.emptyPlan (MockData.generateOrganizePlan mockItems).

(** ** [components/PreviewPlan.tsx]: the edits of the preview *)

Module PreviewPlan.

(** [{ ...f, selected: v }] and [{ ...f, newName: v }] *)
Definition setSelected (v : bool) (f : MockData.FileItem) : MockData.FileItem :=
  {| MockData.id := MockData.id f; MockData.name := MockData.name f;
     MockData.originalName := MockData.originalName f;
     MockData.newName := MockData.newName f; MockData.type := MockData.type f;
     MockData.size := MockData.size f; MockData.category := MockData.category f;
     MockData.path := MockData.path f; MockData.hash := MockData.hash f;
     MockData.duplicateOf := MockData.duplicateOf f;
     MockData.content := MockData.content f;
     MockData.createdAt := MockData.createdAt f;
     MockData.modifiedAt := MockData.modifiedAt f;
     MockData.selected := v;
     MockData.keepInDuplicate := MockData.keepInDuplicate f;
     MockData.isDirectory := MockData.isDirectory f;
     MockData.isSymlink := MockData.isSymlink f;
     MockData.isShortcut := MockData.isShortcut f;
     MockData.needsRename := MockData.needsRename f;
     MockData.needsMove := MockData.needsMove f |}.

Definition setNewName (v : jsstring) (f : MockData.FileItem) : MockData.FileItem :=
  {| MockData.id := MockData.id f; MockData.name := MockData.name f;
     MockData.originalName := MockData.originalName f;
     MockData.newName := v; MockData.type := MockData.type f;
     MockData.size := MockData.size f; MockData.category := MockData.category f;
     MockData.path := MockData.path f; MockData.hash := MockData.hash f;
     MockData.duplicateOf := MockData.duplicateOf f;
     MockData.content := MockData.content f;
     MockData.createdAt := MockData.createdAt f;
     MockData.modifiedAt := MockData.modifiedAt f;
     MockData.selected := MockData.selected f;
     MockData.keepInDuplicate := MockData.keepInDuplicate f;
     MockData.isDirectory := MockData.isDirectory f;
     MockData.isSymlink := MockData.isSymlink f;
     MockData.isShortcut := MockData.isShortcut f;
     MockData.needsRename := MockData.needsRename f;
     MockData.needsMove := MockData.needsMove f |}.

(** [{ ...plan, files }] and [{ ...plan, duplicates }] *)
Definition withFiles (plan : MockData.OrganizePlan) (files : list MockData.FileItem)
  : MockData.OrganizePlan :=
  {| MockData.files := files;
     MockData.categories := MockData.categories plan;
     MockData.duplicates := MockData.duplicates plan;
     MockData.stats := MockData.stats plan;
     MockData.namingRules := MockData.namingRules plan;
     MockData.categoriesNeedingFolders := MockData.categoriesNeedingFolders plan |}.

Definition withGroups (plan : MockData.OrganizePlan)
    (duplicates : list MockData.DuplicateGroup) : MockData.OrganizePlan :=
  {| MockData.files := MockData.files plan;
     MockData.categories := MockData.categories plan;
     MockData.duplicates := duplicates;
     MockData.stats := MockData.stats plan;
     MockData.namingRules := MockData.namingRules plan;
     MockData.categoriesNeedingFolders := MockData.categoriesNeedingFolders plan |}.

(** The plan handed to [onUpdatePlan]. *)
Definition toggleFileSelection (fileId : jsstring) (plan : MockData.OrganizePlan)
  : MockData.OrganizePlan :=
  withFiles plan
    (List.map (fun f => if str_eqb (MockData.id f) fileId
                        then setSelected (negb (MockData.selected f)) f else f)
       (MockData.files plan)).

(** [editingFileId] is a string or [null]; the plan stays as it is when
    the guard returns. *)
Definition saveFileName (editingFileId : option jsstring) (editingName : jsstring)
    (plan : MockData.OrganizePlan) : MockData.OrganizePlan :=
  match editingFileId, trim editingName with
  | None, _ | Some [], _ | _, [] => plan
  | Some fileId, trimmed =>
    withFiles plan
      (List.map (fun f => if str_eqb (MockData.id f) fileId
                          then setNewName trimmed f else f)
         (MockData.files plan))
  end.

Definition updateDuplicateKeep (groupHash : jsstring) (keepIndex : Z)
    (plan : MockData.OrganizePlan) : MockData.OrganizePlan :=
  withGroups plan
    (List.map (fun g => if str_eqb (MockData.g_hash g) groupHash
                        then {| MockData.g_hash := MockData.g_hash g;
                                MockData.g_files := MockData.g_files g;
                                MockData.keepIndex := keepIndex |}
                        else g)
       (MockData.duplicates plan)).

End PreviewPlan.

(** The group that [generateOrganizePlan] makes of the two items of
    [mockItems] without a hash. *)
Definition mockGroup : MockData.DuplicateGroup :=
  {| MockData.g_hash := js "no-hash";
     MockData.g_files := [mockItem "a.jpg" Image None; mockItem "c.jpg" Image None];
     MockData.keepIndex := 0 |}.

(* ====================================================================== *)
(** * Properties *)

(** ** The path and classification functions on the names the
    specification mentions *)

Section PathExamples.
Import Path.

Example extname_jpg : extname (js "IMG_20231215_143022.jpg") = js ".jpg".
Proof. reflexivity. Qed.
Example extname_hidden : extname (js ".bashrc") = js "".
Proof. reflexivity. Qed.
Example extname_dots : extname (js "/a/b.tar.gz/") = js ".gz".
Proof. reflexivity. Qed.
Example extname_dotdot : extname (js "..") = js "" /\ extname (js "...") = js ".".
Proof. split; reflexivity. Qed.
Example basename_cjk :
  basename (js "年度报告.docx") (js ".docx") = js "年度报告"
  /\ length (js "年度报告") = 4%nat.
Proof. split; reflexivity. Qed.
Example basename_quirk : basename (js "a/b/") (js "xb") = js "b/".
Proof. reflexivity. Qed.
Example dirname_ex :
  dirname (js "/d/a.txt") = js "/d" /\ dirname (js "/a") = js "/"
  /\ dirname (js "a") = js "." /\ dirname (js "/a//b//") = js "/a/"
  /\ dirname (js "//b") = js "//".
Proof. repeat split; reflexivity. Qed.
Example join_ex :
  join [js "/d"; js "图片"] = js "/d/图片"
  /\ join [js "/d/x"; js "../y/"] = js "/d/y/"
  /\ join [js ""; js ""] = js "."
  /\ join [js "a"; js "../../b"] = js "../b".
Proof. repeat split; reflexivity. Qed.
Example resolve_ex :
  resolve (js "/d//a/./b/../c") = [js "d"; js "a"; js "c"].
Proof. reflexivity. Qed.
End PathExamples.

Section ClassifierExamples.
Example messy_img : isMessyFileName (js "IMG_20231215_143022.jpg") = true.
Proof. vm_compute. reflexivity. Qed.
Example messy_report : isMessyFileName (js "年度报告.docx") = false.
Proof. vm_compute. reflexivity. Qed.
Example messy_more :
  List.map isMessyFileName
    [js "a1b2c3d4e5f6.bin"; js "Screen Shot 2023-12-01.png"; js "download(1).jpg";
     js "Copy of plan.txt"; js "新建文本文档.txt"; js "(1).txt"; js "notes.txt";
     js "550e8400-e29b-41d4-a716-446655440000.pdf"; js "1701388800000"]
  = [true; true; true; true; true; false; false; true; true].
Proof. vm_compute. reflexivity. Qed.
Example classify_contract : classifyFile (js "合同-资料.jpg") false false = Contract.
Proof. vm_compute. reflexivity. Qed.
Example classify_more :
  List.map (fun n => classifyFile n false false)
    [js "Screenshot_2024-01-08.png"; js "a.jpg"; js "x.xyz"; js "foo.lnk";
     js "screen_recording_2024.mov"; js "photo.CV"; js "README"]
  = [Screenshot; Image; Other; Shortcut; Video; Document; Other].
Proof. vm_compute. reflexivity. Qed.
Example classify_dirs :
  List.map (fun n => classifyFile n true false)
    [js "node_modules"; js "My Photos"; js "stuff"; js "项目A"]
  = [Code; Image; Folder; Code].
Proof. vm_compute. reflexivity. Qed.
Example clean_ex :
  cleanFileName (js "IMG_20231215_143022.jpg") = js ""
  /\ cleanFileName (js "Screenshot_2024-01-08 会议.png") = js "2024-01-08会议"
  /\ cleanFileName (js "Copy of plan (2).txt") = js "Copyofplan2".
Proof. vm_compute. repeat split; reflexivity. Qed.
End ClassifierExamples.

(** ** Undo on an empty stack *)

(** C10: with an empty undo stack [undoOrganize] returns the failure that
    carries 没有可撤销的操作; it is a plain return value, the disk is the one
    before the call and the stack is still empty.  The same holds of
    [FileService.undoOrganize] on an empty history, with or without an
    identifier. *)
Theorem undo_empty_stack :
  (forall (t : FS.node) (n : nat),
      let w := {| disk := t; undoStack := []; ticks := n |} in
      undoOrganize w = (UndoFailure (js "没有可撤销的操作"), w))
  /\ (forall (historyId : option jsstring) (t : FS.node),
         let s := {| FileService.disk := t; FileService.history := [] |} in
         FileService.undoOrganize historyId s
         = (FileService.Failure (js "没有可撤销的操作"), s)).
Proof.
  split.
  - intros t n w. reflexivity.
  - intros historyId t s. unfold FileService.undoOrganize.
    destruct (nonEmpty historyId); reflexivity.
Qed.

(** ** Classification *)




(** ** Insertion-ordered maps *)

Lemma fold_left_pointwise {A B} (f g : A -> B -> A) (l : list B) (a : A) :
  (forall a b, f a b = g a b) -> fold_left f l a = fold_left g l a.
Proof.
  intros Hfg. revert a. induction l as [|b l IH]; intros a; simpl; [done|].
  by rewrite Hfg, IH.
Qed.

Section OMapFacts.
Context {K V : Type} `{EqDecision K}.
Implicit Types (m : OMap.t K V) (k : K) (v : V).

Lemma omap_get_set m k v k' :
  OMap.get (OMap.set m k v) k' = if decide (k' = k) then Some v else OMap.get m k'.
Proof.
  induction m as [|[k0 v0] m IH]; simpl.
  - done.
  - destruct (decide (k = k0)) as [->|Hne]; simpl.
    + destruct (decide (k' = k0)); done.
    + rewrite IH. destruct (decide (k' = k0)) as [->|]; [|done].
      destruct (decide (k0 = k)); congruence.
Qed.

Lemma omap_keys_set m k v :
  OMap.keys (OMap.set m k v)
  = if bool_decide (k ∈ OMap.keys m) then OMap.keys m else OMap.keys m ++ [k].
Proof.
  induction m as [|[k0 v0] m IH]; simpl.
  - done.
  - destruct (decide (k = k0)) as [->|Hne]; simpl.
    + rewrite bool_decide_eq_true_2; [done | left].
    + rewrite IH. unfold OMap.keys. simpl.
      destruct (bool_decide_reflect (k ∈ List.map fst m)).
      * rewrite bool_decide_eq_true_2; [done | by right].
      * rewrite bool_decide_eq_false_2; [done |].
        intros [?|?]%elem_of_cons; done.
Qed.

Lemma omap_NoDup_set m k v : NoDup (OMap.keys m) -> NoDup (OMap.keys (OMap.set m k v)).
Proof.
  intros Hnd. rewrite omap_keys_set. case_bool_decide; [done|].
  apply NoDup_app. split; [done|]. split; [|apply NoDup_singleton].
  intros x Hx ->%list_elem_of_singleton. done.
Qed.

Lemma omap_elem_get m k v :
  NoDup (OMap.keys m) -> (k, v) ∈ m <-> OMap.get m k = Some v.
Proof.
  induction m as [|[k0 v0] m IH]; simpl; intros Hnd.
  - split; [intros []%elem_of_nil | done].
  - apply NoDup_cons in Hnd as [Hk0 Hnd].
    destruct (decide (k = k0)) as [->|Hne].
    + split.
      * intros [Heq|Hin]%elem_of_cons; [congruence|].
        exfalso. apply Hk0. apply list_elem_of_fmap. by exists (k0, v).
      * intros [= ->]. left.
    + rewrite <- IH by done. split.
      * intros [Heq|Hin]%elem_of_cons; [congruence | done].
      * intros Hin. by right.
Qed.

Lemma omap_get_None m k : OMap.get m k = None <-> k ∉ OMap.keys m.
Proof.
  induction m as [|[k0 v0] m IH]; simpl.
  - split; [intros _ []%elem_of_nil | done].
  - destruct (decide (k = k0)) as [->|Hne].
    + split; [done | intros Hn; exfalso; apply Hn; left].
    + rewrite IH. unfold OMap.keys; simpl. rewrite not_elem_of_cons. tauto.
Qed.
End OMapFacts.

(** ** Plan analysis *)

Lemma nonDirCount_cons f files c :
  nonDirCount (f :: files) c
  = if negb (isTrue (f_isDirectory f)) && bool_decide (classifyOf f = c)
    then S (nonDirCount files c) else nonDirCount files c.
Proof.
  unfold nonDirCount, str_eqb. simpl.
  by destruct (negb _ && bool_decide _).
Qed.

Lemma firstPass_fold files cl0 cc0 :
  NoDup (OMap.keys cc0) ->
  exists cc,
    fold_left firstPassStep files (cl0, cc0)
    = (cl0 ++ List.map (fun f => (f, classifyOf f)) files, cc)
    /\ NoDup (OMap.keys cc)
    /\ forall c,
        OMap.get cc c
        = match nonDirCount files c with
          | O => OMap.get cc0 c
          | S n => Some (default 0 (OMap.get cc0 c) + N.of_nat (S n))
          end.
Proof.
  revert cl0 cc0. induction files as [|f files IH]; intros cl0 cc0 Hnd.
  - exists cc0. simpl. rewrite app_nil_r. done.
  - cbn [fold_left]. change (firstPassStep (cl0, cc0) f) with
      (cl0 ++ [(f, classifyOf f)],
       if negb (isTrue (f_isDirectory f))
       then OMap.set cc0 (classifyOf f) (default 0 (OMap.get cc0 (classifyOf f)) + 1)
       else cc0).
    set (cc1 := if negb (isTrue (f_isDirectory f)) then _ else cc0).
    assert (Hnd1 : NoDup (OMap.keys cc1)).
    { subst cc1. destruct (negb _); [by apply omap_NoDup_set | done]. }
    destruct (IH (cl0 ++ [(f, classifyOf f)]) cc1 Hnd1) as (cc & Heq & Hnd' & Hget).
    exists cc. split; [|split; [done|]].
    + rewrite Heq. simpl. by rewrite <- app_assoc.
    + intros c. rewrite Hget, nonDirCount_cons.
      subst cc1. destruct (negb (isTrue (f_isDirectory f))) eqn:Hd; simpl.
      * rewrite omap_get_set.
        destruct (decide (c = classifyOf f)) as [->|Hne].
        -- rewrite bool_decide_eq_true_2 by done.
           destruct (nonDirCount files (classifyOf f)); simpl; f_equal; lia.
        -- rewrite bool_decide_eq_false_2 by congruence. done.
      * done.
Qed.

Lemma firstPass_spec files :
  exists cc,
    firstPass files = (List.map (fun f => (f, classifyOf f)) files, cc)
    /\ NoDup (OMap.keys cc)
    /\ forall c,
        OMap.get cc c
        = match nonDirCount files c with
          | O => None
          | S n => Some (N.of_nat (S n))
          end.
Proof.
  destruct (firstPass_fold files [] []) as (cc & Heq & Hnd & Hget); [constructor|].
  exists cc. split; [|split; [done|]].
  - simpl in Heq. by rewrite <- Heq.
  - intros c. rewrite Hget. destruct (nonDirCount files c); [done|].
    simpl. f_equal.
Qed.


Lemma sameAdvice_refl rs : Forall2 sameAdvice rs rs.
Proof.
  apply Forall2_same_length_lookup_2; [done|]. intros i x y ? ?.
  assert (x = y) as -> by congruence. by repeat split.
Qed.

Lemma sameAdvice_chain {A} (P : A -> AnalysisResult -> Prop) l rs rs' :
  (forall x r r', P x r -> sameAdvice r r' -> P x r') ->
  Forall2 P l rs -> Forall2 sameAdvice rs rs' -> Forall2 P l rs'.
Proof.
  intros HP H1 H2. eapply Forall2_trans; cycle 1; [exact H1 | exact H2 | exact HP].
Qed.

Lemma mergeOracle_sameAdvice answers rs cc :
  Forall2 sameAdvice rs (fst (mergeOracle answers (rs, cc))).
Proof.
  revert rs cc. induction answers as [|[a|] answers IH]; intros rs cc; simpl.
  - apply sameAdvice_refl.
  - destruct (findIndex _ rs) as [idx|]; [|apply IH].
    destruct (negb _); [|apply IH].
    eapply sameAdvice_chain; [| |apply IH].
    + intros x y z (?&?&?&?&?) (?&?&?&?&?). repeat split; congruence.
    + apply Forall2_same_length_lookup_2; [by rewrite length_alter|].
      intros i x y Hx Hy.
      destruct (decide (idx = i)) as [->|Hne].
      * rewrite list_lookup_alter_eq, Hx in Hy. injection Hy as <-. by repeat split.
      * rewrite list_lookup_alter_ne, Hx in Hy by done.
        injection Hy as <-. by repeat split.
  - apply sameAdvice_refl.
Qed.

Section AnalyzeFacts.
Variable Date_parse : jsstring -> JsDate.
Variable currentUser : jsstring.
Variable now : civil.
Variable isOpencodeAvailable : bool.
Variable oracle : list jsstring -> option (list (option AiResult)).

Let analyze := analyzeFiles Date_parse currentUser now isOpencodeAvailable oracle.
Let adviseOf := advise Date_parse currentUser now.


Lemma analyze_results files :
  Forall2 (fun file r =>
             sameAdvice
               (adviseOf (categoriesNeedingFolders (analyze files)) (file, classifyOf file)) r)
          files (results (analyze files)).
Proof.
  subst analyze adviseOf. unfold analyzeFiles.
  destruct (firstPass_spec files) as (cc & -> & Hnd & Hget).
  cbv zeta. cbn [results categoriesNeedingFolders].
  set (rs := List.map _ (List.map _ files)).
  assert (Hrs : Forall2 (fun file r =>
             sameAdvice (advise Date_parse currentUser now (foldersNeeded cc)
                                (file, classifyOf file)) r) files rs).
  { subst rs. rewrite List.map_map.
    apply Forall2_same_length_lookup_2; [by rewrite length_map|].
    intros i x y Hx Hy. change (List.map ?f ?l) with (f <$> l) in Hy.
    rewrite list_lookup_fmap, Hx in Hy. injection Hy as <-. by repeat split. }
  match goal with |- Forall2 _ _ (if ?b then _ else _) => destruct b end; [|done].
  destruct (oracle _) as [answers|]; [|done].
  eapply sameAdvice_chain; [| apply Hrs | apply mergeOracle_sameAdvice].
  intros x y z (?&?&?&?&?) (?&?&?&?&?). repeat split; congruence.
Qed.
End AnalyzeFacts.



(** ** Rename advice *)

Lemma isMessyFileName_iff fileName :
  isMessyFileName fileName = true <-> messyName fileName.
Proof.
  unfold isMessyFileName, messyName. cbv zeta.
  set (name := Path.basename _ _).
  destruct (Nat.ltb_spec (length name) 4) as [Hlt|Hge].
  - split; [done | intros [? _]; lia].
  - rewrite existsb_exists. split.
    + intros (p & Hp & Ht). split; [done|]. exists p. by rewrite list_elem_of_In.
    + intros (_ & p & Hp & Ht). exists p. by rewrite <- list_elem_of_In.
Qed.

(** C8: [needsRename] is true exactly for an entry that is neither a
    directory nor a shortcut and whose base name has at least four
    characters and matches one of the messy-name patterns;
    "IMG_20231215_143022.jpg" gets it, "年度报告.docx" does not, and no base
    name shorter than four characters is messy. *)
Theorem needsRename_messy :
  forall Date_parse currentUser now isOpencodeAvailable oracle,
    let analyze :=
      analyzeFiles Date_parse currentUser now isOpencodeAvailable oracle in
    (forall files i file,
        files !! i = Some file ->
        exists r,
          results (analyze files) !! i = Some r
          /\ r_isShortcut r = shortcutEntry file
          /\ (r_needsRename r = true
              <-> isTrue (f_isDirectory file) = false
                  /\ shortcutEntry file = false
                  /\ messyName (f_name file)))
    /\ List.map r_needsRename (results (analyze [named "IMG_20231215_143022.jpg"]))
       = [true]
    /\ List.map r_needsRename (results (analyze [named "年度报告.docx"])) = [false]
    /\ (forall fileName,
           (length (Path.basename fileName (Path.extname fileName)) < 4)%nat ->
           isMessyFileName fileName = false).
Proof.
  intros Date_parse currentUser now avail oracle analyze.
  split; [|split; [|split]].
  - intros files i file Hfile.
    pose proof (analyze_results Date_parse currentUser now avail oracle files) as HF.
    destruct (Forall2_lookup_l _ _ _ _ _ HF Hfile) as (r & Hr & Hsame).
    exists r. split; [exact Hr|].
    destruct Hsame as (_ & _ & Hn & _ & Hs). simpl in Hn, Hs.
    split; [done|]. rewrite <- Hn. fold (shortcutEntry file).
    rewrite !andb_true_iff, !negb_true_iff, isMessyFileName_iff. tauto.
  - subst analyze. destruct avail; vm_compute; done.
  - subst analyze. destruct avail; vm_compute; done.
  - intros fileName Hlt. unfold isMessyFileName. cbv zeta.
    by apply Nat.ltb_lt in Hlt as ->.
Qed.

Lemma needsRename_messy_witness :
  (exists r,
      results (analyzeFiles (fun _ => None) (js "u") (Civil 2024 0 8) false
                 (fun _ => None) [named "IMG_20231215_143022.jpg"])
        !! 0%nat = Some r
      /\ r_isShortcut r = shortcutEntry (named "IMG_20231215_143022.jpg")
      /\ (r_needsRename r = true
          <-> isTrue (f_isDirectory (named "IMG_20231215_143022.jpg")) = false
              /\ shortcutEntry (named "IMG_20231215_143022.jpg") = false
              /\ messyName (f_name (named "IMG_20231215_143022.jpg"))))
  /\ isMessyFileName (js "a1b.txt") = false.
Proof.
  split.
  - apply (proj1 (needsRename_messy (fun _ => None) (js "u") (Civil 2024 0 8)
                    false (fun _ => None))
             [named "IMG_20231215_143022.jpg"] 0%nat
             (named "IMG_20231215_143022.jpg")).
    reflexivity.
  - apply (proj2 (proj2 (proj2 (needsRename_messy (fun _ => None) (js "u")
                                  (Civil 2024 0 8) false (fun _ => None))))
             (js "a1b.txt")).
    vm_compute. lia.
Defined.

(** ** The matcher on the date patterns *)

Lemma rep_exact {A} mem n s (k : jsstring -> option A) x :
  rep mem n (Some n) s k = Some x ->
  exists pre rest,
    s = pre ++ rest /\ length pre = n /\ forallb mem pre = true /\ k rest = Some x.
Proof.
  revert s. induction n as [|n IH]; intros s H.
  - exists [], s. destruct s; simpl in H; done.
  - destruct s as [|c s]; simpl in H; [done|].
    destruct (mem c) eqn:Hc; [|done].
    destruct (rep mem n (Some n) s k) as [y|] eqn:Hr; [|done].
    injection H as <-. destruct (IH _ Hr) as (pre & rest & -> & Hl & Hm & Hk).
    exists (c :: pre), rest. simpl. rewrite Hc, Hm, Hl. done.
Qed.

Lemma rep_maybe {A} mem s (k : jsstring -> option A) x :
  rep mem 0 (Some 1%nat) s k = Some x ->
  exists pre rest, s = pre ++ rest /\ k rest = Some x.
Proof.
  destruct s as [|c s]; simpl.
  - intros H. by exists [], [].
  - destruct (mem c).
    + destruct s as [|c' s]; simpl.
      * destruct (k []) eqn:Hk.
        -- intros [= <-]. by exists [c], [].
        -- intros H. by exists [], [c].
      * destruct (k (c' :: s)) eqn:Hk.
        -- intros [= <-]. by exists [c], (c' :: s).
        -- intros H. by exists [], (c :: c' :: s).
    + intros H. by exists [], (c :: s).
Qed.

Lemma take_app_length_diff (pre rest : jsstring) :
  take (length (pre ++ rest) - length rest) (pre ++ rest) = pre.
Proof.
  rewrite length_app. replace (length pre + length rest - length rest)%nat
    with (length pre) by lia. by rewrite take_app_length.
Qed.

Lemma digit_mem c : class_mem false [Dg] c = is_digit c.
Proof. unfold class_mem. simpl. by rewrite !orb_false_r. Qed.

Lemma forallb_digit_mem g :
  forallb (class_mem false [Dg]) g = forallb is_digit g.
Proof. induction g as [|c g IH]; simpl; [done|]. by rewrite digit_mem, IH. Qed.

(** A captured group of [n] digits. *)
Lemma run_digit_group {A} n s caps (k : jsstring -> list jsstring -> option A) x :
  run false (Grp (digits n)) s caps k = Some x ->
  exists g rest, s = g ++ rest /\ digitString n g /\ k rest (caps ++ [g]) = Some x.
Proof.
  simpl. intros H. apply rep_exact in H as (pre & rest & -> & Hl & Hm & Hk).
  rewrite take_app_length_diff in Hk. rewrite forallb_digit_mem in Hm.
  exists pre, rest. done.
Qed.

Lemma run_sep {A} lo s caps (k : jsstring -> list jsstring -> option A) x :
  (lo <= 1)%nat ->
  run false (Rep dash_ lo (Some 1%nat)) s caps k = Some x ->
  exists rest, k rest caps = Some x.
Proof.
  intros Hlo. simpl. destruct lo as [|[|lo]]; [| |lia]; intros H.
  - apply rep_maybe in H as (pre & rest & _ & Hk). by exists rest.
  - apply (rep_exact _ 1%nat) in H as (pre & rest & _ & _ & _ & Hk). by exists rest.
Qed.

Lemma run_Seq {A} ic a b s caps (k : jsstring -> list jsstring -> option A) :
  run ic (Seq a b) s caps k = run ic a s caps (fun s' caps' => run ic b s' caps' k).
Proof. reflexivity. Qed.

Lemma three_groups p pre s m a b c lo :
  (lo <= 1)%nat ->
  body p = cat [Grp (digits a); Rep dash_ lo (Some 1%nat); Grp (digits b);
                Rep dash_ lo (Some 1%nat); Grp (digits c)] ->
  icase p = false ->
  match_here p pre s = Some m ->
  exists g1 g2 g3,
    m_groups m = [g1; g2; g3]
    /\ digitString a g1 /\ digitString b g2 /\ digitString c g3.
Proof.
  intros Hlo Hbody Hic. unfold match_here. rewrite Hbody, Hic.
  cbn [cat fold_right]. intros H.
  rewrite run_Seq in H. apply run_digit_group in H as (g1 & r1 & -> & Hg1 & H).
  rewrite run_Seq in H. apply (run_sep lo) in H as (r2 & H); [|done].
  rewrite run_Seq in H. apply run_digit_group in H as (g2 & r3 & -> & Hg2 & H).
  rewrite run_Seq in H. apply (run_sep lo) in H as (r4 & H); [|done].
  rewrite run_Seq in H. apply run_digit_group in H as (g3 & r5 & -> & Hg3 & H).
  simpl in H. injection H as <-. exists g1, g2, g3. done.
Qed.

Lemma search_match_here p pre s m :
  search p pre s = Some m -> exists pre' s', match_here p pre' s' = Some m.
Proof.
  revert pre. induction s as [|c s IH]; intros pre; simpl.
  - destruct (match_here p pre []) eqn:H; [|done]. intros [= <-]. eauto.
  - destruct (match_here p pre (c :: s)) eqn:H.
    + intros [= <-]. eauto.
    + apply IH.
Qed.

Lemma exec_yearFirst name m :
  exec yearFirstPattern name = Some m ->
  exists g1 g2 g3,
    m_groups m = [g1; g2; g3]
    /\ digitString 4 g1 /\ digitString 2 g2 /\ digitString 2 g3.
Proof.
  unfold exec. change (anchored yearFirstPattern) with false. cbv iota.
  intros (pre & s & H)%search_match_here.
  apply (three_groups _ _ _ _ 4%nat 2%nat 2%nat 0%nat) in H; [done | lia | done | done].
Qed.

Lemma exec_yearLast name m :
  exec yearLastPattern name = Some m ->
  exists g1 g2 g3,
    m_groups m = [g1; g2; g3]
    /\ digitString 2 g1 /\ digitString 2 g2 /\ digitString 4 g3.
Proof.
  unfold exec. change (anchored yearLastPattern) with false. cbv iota.
  intros (pre & s & H)%search_match_here.
  apply (three_groups _ _ _ _ 2%nat 2%nat 4%nat 1%nat) in H; [done | lia | done | done].
Qed.

Lemma digitString_app a b g h :
  digitString a g -> digitString b h -> digitString (a + b) (g ++ h).
Proof.
  intros [Hl Hd] [Hl' Hd']. split.
  - rewrite length_app. lia.
  - by rewrite forallb_app, Hd, Hd'.
Qed.

(** ** Printing a date with a four-digit year *)

Lemma forall_range (f : Z -> bool) (lo : Z) (n : nat) :
  forallb (fun i => f (lo + Z.of_nat i)%Z) (seq 0 n) = true ->
  forall z, (lo <= z < lo + Z.of_nat n)%Z -> f z = true.
Proof.
  intros H z Hz. rewrite forallb_forall in H.
  specialize (H (Z.to_nat (z - lo))).
  replace (lo + Z.of_nat (Z.to_nat (z - lo)))%Z with z in H by lia.
  apply H. apply in_seq. lia.
Qed.

Lemma year_digits y :
  (1000 <= y <= 9999)%Z -> digitString 4 (String_Z y).
Proof.
  intros Hy.
  assert (H : printsAs 4 (String_Z y) = true).
  { apply (forall_range (fun z => printsAs 4 (String_Z z)) 1000 (Z.to_nat 9000)); [|lia].
    vm_compute. reflexivity. }
  apply andb_prop in H as [Hl%bool_decide_eq_true Hd]. done.
Qed.

Lemma two_digits z :
  (1 <= z <= 31)%Z -> digitString 2 (padStart0 2 (String_Z z)).
Proof.
  intros Hz.
  assert (H : printsAs 2 (padStart0 2 (String_Z z)) = true).
  { apply (forall_range (fun z => printsAs 2 (padStart0 2 (String_Z z))) 1 31); [|lia].
    vm_compute. reflexivity. }
  apply andb_prop in H as [Hl%bool_decide_eq_true Hd]. done.
Qed.

Lemma dateToken_digits d : fourDigitYear d -> eightDigits (dateToken (Some d)).
Proof.
  intros (Hy & Hm & Hd). unfold dateToken.
  apply (digitString_app 4 (2 + 2)); [by apply year_digits|].
  apply (digitString_app 2 2); apply two_digits; lia.
Qed.

Lemma digitString_eight a b c g1 g2 g3 :
  (a + b + c = 8)%nat ->
  digitString a g1 -> digitString b g2 -> digitString c g3 ->
  eightDigits (g1 ++ g2 ++ g3).
Proof.
  intros Hs H1 H2 H3.
  pose proof (digitString_app _ _ _ _ H1 (digitString_app _ _ _ _ H2 H3)) as [Hl Hd].
  split; [lia | done].
Qed.

(** C9, as amended: the token is read from the first match of the
    year-first pattern in the base name, else from the first match of the
    pattern with the year last, whose two leading groups are copied in the
    order they are written (a month-day-year date becomes YYYYMMDD); else it
    is printed from the modification time when that is a non-empty string,
    else from the clock.  A token read from the name has exactly eight
    digits; a printed one has exactly eight digits when the date read is
    valid and its year has four digits. *)
Theorem date_token_sources :
  forall Date_parse fileName modifiedTime now,
    let name := Path.basename fileName (Path.extname fileName) in
    let token := extractDateFromFile Date_parse fileName modifiedTime now in
    (forall m,
        exec yearFirstPattern name = Some m ->
        token = group m 1 ++ group m 2 ++ group m 3 /\ eightDigits token)
    /\ (forall m,
          exec yearFirstPattern name = None ->
          exec yearLastPattern name = Some m ->
          token = group m 3 ++ group m 1 ++ group m 2 /\ eightDigits token)
    /\ (exec yearFirstPattern name = None ->
        exec yearLastPattern name = None ->
        token = dateToken (fallbackDate Date_parse modifiedTime now)
        /\ forall d,
            fallbackDate Date_parse modifiedTime now = Some d ->
            fourDigitYear d -> eightDigits token)
    /\ extractDateFromFile Date_parse (js "12-01-2023.pdf") modifiedTime now
       = js "20231201".
Proof.
  intros Date_parse fileName modifiedTime now name token.
  subst token. unfold extractDateFromFile. fold name.
  unfold datePatterns. cbn [dateFromName].
  split; [|split; [|split]].
  - intros m Hm. rewrite Hm.
    destruct (exec_yearFirst _ _ Hm) as (g1 & g2 & g3 & Hg & H1 & H2 & H3).
    unfold group. rewrite Hg. simpl.
    destruct H1 as [Hl1 Hd1]. rewrite Hl1. simpl. split; [done|].
    by apply (digitString_eight 4 2 2).
  - intros m Hn Hm. rewrite Hn, Hm.
    destruct (exec_yearLast _ _ Hm) as (g1 & g2 & g3 & Hg & H1 & H2 & H3).
    unfold group. rewrite Hg. simpl.
    destruct H1 as [Hl1 Hd1]. rewrite Hl1. simpl. split; [done|].
    by apply (digitString_eight 4 2 2).
  - intros Hn1 Hn2. rewrite Hn1, Hn2.
    assert (Heq : match modifiedTime with
                  | Some (c :: t) => dateToken (Date_parse (c :: t))
                  | _ => dateToken (Some now)
                  end = dateToken (fallbackDate Date_parse modifiedTime now)).
    { unfold fallbackDate. by destruct modifiedTime as [[|c t]|]. }
    rewrite Heq. split; [done|].
    intros d -> Hd. by apply dateToken_digits.
  - vm_compute. reflexivity.
Qed.

Lemma date_token_sources_witness :
  (extractDateFromFile (fun _ => None) (js "IMG_20231215_143022.jpg") None
     (Civil 2024 0 8) = js "20231215"
   /\ eightDigits (js "20231215"))
  /\ (extractDateFromFile (fun _ => None) (js "12-01-2023.pdf") None
        (Civil 2024 0 8) = js "20231201"
      /\ eightDigits (js "20231201"))
  /\ eightDigits (extractDateFromFile (fun _ => None) (js "notes.txt") None
                    (Civil 2024 0 8)).
Proof.
  split; [|split].
  - exact (proj1 (date_token_sources (fun _ => None) (js "IMG_20231215_143022.jpg")
                    None (Civil 2024 0 8)) _ eq_refl).
  - exact (proj1 (proj2 (date_token_sources (fun _ => None) (js "12-01-2023.pdf")
                           None (Civil 2024 0 8))) _ eq_refl eq_refl).
  - refine (proj2 (proj1 (proj2 (proj2 (date_token_sources (fun _ => None)
              (js "notes.txt") None (Civil 2024 0 8)))) eq_refl eq_refl)
              (Civil 2024 0 8) eq_refl _).
    unfold fourDigitYear; simpl; lia.
Defined.

(** C9, as stated, fails: "25-12-2023" read as day-month-year is 25 December
    2023, but the token is 20232512; and a modification time that does not
    parse gives "NaNNaNNaN". *)
Lemma date_token_counterexample :
  extractDateFromFile (fun _ => None) (js "25-12-2023.txt") None (Civil 2024 0 8)
  = js "20232512"
  /\ extractDateFromFile (fun _ => None) (js "25-12-2023.txt") None (Civil 2024 0 8)
     <> dayMonthYear_as_YYYYMMDD (js "25") (js "12") (js "2023")
  /\ extractDateFromFile (fun _ => None) (js "notes.txt") (Some (js "not a date"))
       (Civil 2024 0 8) = js "NaNNaNNaN"
  /\ ~ eightDigits
        (extractDateFromFile (fun _ => None) (js "notes.txt")
           (Some (js "not a date")) (Civil 2024 0 8)).
Proof.
  split; [vm_compute; reflexivity|].
  split; [vm_compute; discriminate|].
  split; [vm_compute; reflexivity|].
  intros [Hl _]. vm_compute in Hl. discriminate.
Qed.

(** ** Grouping into an insertion-ordered map *)

Section Grouping.
Context {K A : Type} `{EqDecision K}.
Variable key : A -> option K.

Lemma group_fold xs (m0 : OMap.t K (list A)) :
  NoDup (OMap.keys m0) ->
  NoDup (OMap.keys (fold_left (groupStep key) xs m0))
  /\ forall k,
      OMap.get (fold_left (groupStep key) xs m0) k
      = match OMap.get m0 k, keyed key k xs with
        | None, [] => None
        | o, l => Some (default [] o ++ l)
        end.
Proof.
  revert m0. induction xs as [|x xs IH]; intros m0 Hnd.
  - split; [done|]. intros k. simpl.
    destruct (OMap.get m0 k); simpl; [by rewrite List.app_nil_r | done].
  - cbn [fold_left].
    assert (Hnd1 : NoDup (OMap.keys (groupStep key m0 x))).
    { unfold groupStep. destruct (key x); [by apply omap_NoDup_set | done]. }
    destruct (IH _ Hnd1) as [Hnd2 Hget]. split; [done|].
    intros k. rewrite Hget. unfold keyed. cbn [List.filter].
    unfold groupStep. destruct (key x) as [kx|] eqn:Hkx.
    + rewrite omap_get_set. destruct (decide (k = kx)) as [->|Hne].
      * rewrite bool_decide_eq_true_2 by done. simpl.
        rewrite <- List.app_assoc. simpl.
        by destruct (OMap.get m0 kx).
      * rewrite bool_decide_eq_false_2 by congruence. done.
    + rewrite bool_decide_eq_false_2 by congruence. done.
Qed.

Lemma group_fold_empty xs k grp :
  (k, grp) ∈ fold_left (groupStep key) xs [] ->
  grp = keyed key k xs /\ grp <> [].
Proof.
  destruct (group_fold xs []) as [Hnd Hget]; [constructor|].
  intros Hin%omap_elem_get; [|done]. rewrite Hget in Hin. simpl in Hin.
  destruct (keyed key k xs) eqn:Hk; [done|]. by injection Hin as <-.
Qed.
End Grouping.

Lemma flat_map_all_nil {A B} (F : A -> list B) (l : list A) :
  (forall x, x ∈ l -> F x = []) -> flat_map F l = [].
Proof.
  induction l as [|x l IH]; intros H; simpl; [done|].
  rewrite (H x) by left. simpl. apply IH. intros y Hy. apply H. by right.
Qed.


(** ** Duplicate detection *)

Section DuplicateFacts.
Variable calculateFileHash : jsstring -> option jsstring.

Let hashKey (f : DupInput) : option jsstring := calculateFileHash (d_path f).

Lemma sizeGroupsOf_group inputs :
  sizeGroupsOf inputs = fold_left (groupStep sizeKey) inputs [].
Proof.
  apply fold_left_pointwise. intros m f. unfold groupStep, sizeKey.
  by destruct (d_size f =? 0).
Qed.

Lemma hashMapOf_group sg hm :
  fold_left
    (fun hashMap '(_, group) =>
       if (1 <? length group)%nat
       then hashGroup calculateFileHash hashMap group else hashMap) sg hm
  = fold_left (groupStep hashKey) (hashCandidates sg) hm.
Proof.
  revert hm. induction sg as [|[z g] sg IH]; intros hm; [done|].
  cbn [fold_left hashCandidates flat_map]. rewrite fold_left_app, IH.
  by destruct (1 <? length g)%nat.
Qed.

Lemma sizeGroups_entry inputs z gz :
  (z, gz) ∈ sizeGroupsOf inputs -> gz = keyed sizeKey z inputs /\ gz <> [].
Proof. rewrite sizeGroupsOf_group. apply group_fold_empty. Qed.


Lemma keyed_elem {K A} `{EqDecision K} (key : A -> option K) k xs x :
  x ∈ keyed key k xs <-> x ∈ xs /\ key x = Some k.
Proof.
  unfold keyed. rewrite !list_elem_of_In, filter_In, bool_decide_eq_true. done.
Qed.

Lemma sizeKey_Some f z : sizeKey f = Some z <-> d_size f = z /\ z <> 0.
Proof.
  unfold sizeKey. destruct (N.eqb_spec (d_size f) 0) as [H0|Hn].
  - split; [done | intros [<- ?]; done].
  - split; [intros [= <-]; done | intros [<- _]; done].
Qed.

Lemma candidate_entry inputs f :
  f ∈ hashCandidates (sizeGroupsOf inputs) ->
  exists gz,
    (d_size f, gz) ∈ sizeGroupsOf inputs /\ (1 < length gz)%nat
    /\ f ∈ inputs /\ d_size f <> 0.
Proof.
  unfold hashCandidates. rewrite list_elem_of_In, in_flat_map.
  intros ([z gz] & Hin%list_elem_of_In & Hf).
  destruct (Nat.ltb_spec 1 (length gz)) as [Hlen|]; [|done].
  apply list_elem_of_In in Hf.
  destruct (sizeGroups_entry _ _ _ Hin) as [-> _].
  apply keyed_elem in Hf as [Hfin [<- Hz]%sizeKey_Some].
  eauto.
Qed.

Lemma detect_group inputs g :
  g ∈ detectDuplicates calculateFileHash inputs ->
  exists grp,
    g = {| hash := hash g; files := markKeep grp |}
    /\ (1 < length grp)%nat
    /\ grp = keyed hashKey (hash g) (hashCandidates (sizeGroupsOf inputs)).
Proof.
  unfold detectDuplicates, hashMapOf. rewrite hashMapOf_group.
  rewrite list_elem_of_In, in_flat_map.
  intros ([h grp] & Hin%list_elem_of_In & Hg).
  destruct (Nat.ltb_spec 1 (length grp)) as [Hlen|]; [|done].
  destruct Hg as [<-|[]]. simpl.
  apply group_fold_empty in Hin as [-> _]. eauto.
Qed.



Lemma markKeep_toInput_gen (b : nat -> bool) grp :
  List.map toInput
    (imap (fun i f => {| m_path := d_path f; m_name := d_name f;
                         m_size := d_size f; isKeep := b i |}) grp) = grp.
Proof.
  revert b. induction grp as [|[p z n] grp IH]; intros b; [done|].
  simpl. f_equal. apply (IH (b ∘ S)).
Qed.

Lemma markKeep_toInput grp : List.map toInput (markKeep grp) = grp.
Proof. apply (markKeep_toInput_gen (fun i => bool_decide (i = 0%nat))). Qed.


End DuplicateFacts.



(** ** The file-system tree *)

Section TreeFacts.
Import FS.
Implicit Types (p q a b : path) (t c : node) (m : gmap jsstring node)
  (v w : option node).

Lemma update_nil v t : update [] v t = t.
Proof. by destruct t. Qed.

Lemma update_File p v data : update p v (File data) = File data.
Proof. by destruct p. Qed.

Lemma parent_cons x y q : parent (x :: y :: q) = x :: parent (y :: q).
Proof. reflexivity. Qed.

Lemma isPrefix_cons x y a b :
  isPrefix (x :: a) (y :: b) = bool_decide (x = y) && isPrefix a b.
Proof. reflexivity. Qed.

Lemma isPrefix_refl p : isPrefix p p = true.
Proof. induction p as [|x p IH]; simpl; [done|]. by rewrite bool_decide_eq_true_2. Qed.

Lemma isPrefix_parent a b : isPrefix a (parent b) = true -> isPrefix a b = true.
Proof.
  revert a. induction b as [|y b IH]; intros a; [done|].
  destruct b as [|z b].
  - simpl. by destruct a.
  - rewrite parent_cons. destruct a as [|x a]; [done|]. rewrite !isPrefix_cons.
    intros [Hx Ha]%andb_prop. rewrite Hx. simpl. by apply IH.
Qed.

Lemma isPrefix_parent_self a : a <> [] -> isPrefix a (parent a) = false.
Proof.
  induction a as [|x a IH]; [done|]. intros _. destruct a as [|y a]; [done|].
  rewrite parent_cons, isPrefix_cons, IH by done. by rewrite andb_false_r.
Qed.

Lemma isPrefix_trans a b q :
  isPrefix a b = true -> isPrefix b q = true -> isPrefix a q = true.
Proof.
  revert b q. induction a as [|x a IH]; intros b q Hab Hbc; [done|].
  destruct b as [|y b]; [done|]. destruct q as [|z q]; [done|]. simpl in *.
  apply andb_prop in Hab as [->%bool_decide_eq_true Hab].
  apply andb_prop in Hbc as [Hyz Hbc]. rewrite Hyz. simpl. by eapply IH.
Qed.

Lemma lookup_prefix a b t :
  is_Some (lookup a t) -> isPrefix b a = true -> is_Some (lookup b t).
Proof.
  revert a t. induction b as [|y b IH]; intros a t Ha Hp; [by eexists|].
  destruct a as [|x a]; [done|]. simpl in Hp.
  apply andb_prop in Hp as [->%bool_decide_eq_true Hp].
  simpl in *. destruct t as [|m]; [by destruct Ha|].
  destruct (m !! x) as [c|]; [by eapply IH | by destruct Ha].
Qed.

Lemma lookup_prefix_dir a b t :
  is_Some (lookup a t) -> isPrefix b a = true -> b <> a -> isDir b t = true.
Proof.
  unfold isDir. revert a t. induction b as [|y b IH]; intros a t Ha Hp Hne.
  - destruct a as [|x a]; [done|]. simpl in *.
    destruct t; [by destruct Ha | done].
  - destruct a as [|x a]; [done|]. simpl in Hp.
    apply andb_prop in Hp as [->%bool_decide_eq_true Hp].
    simpl in *. destruct t as [|m]; [by destruct Ha|].
    destruct (m !! x) as [c|]; [|by destruct Ha].
    eapply IH; [done..|]. congruence.
Qed.

Lemma isPrefix_parent_refl a : isPrefix (parent a) a = true.
Proof.
  induction a as [|x a IH]; [done|]. destruct a as [|y a]; [done|].
  rewrite parent_cons, isPrefix_cons. by rewrite bool_decide_eq_true_2, IH.
Qed.

Lemma parent_ne a : a <> [] -> parent a <> a.
Proof.
  intros Ha Heq. pose proof (app_removelast_last [] Ha) as H.
  apply (f_equal length) in H. rewrite length_app in H. simpl in H.
  unfold parent in Heq. apply (f_equal length) in Heq. lia.
Qed.

Lemma lookup_parent_dir a t :
  is_Some (lookup a t) -> a <> [] -> isDir (parent a) t = true.
Proof.
  intros Ha Hne. eapply lookup_prefix_dir; [done | apply isPrefix_parent_refl |].
  by apply parent_ne.
Qed.

Lemma isDir_prefix p d t :
  isDir p t = true -> isPrefix d p = true -> isDir d t = true.
Proof.
  intros Hp Hd. destruct (decide (d = p)) as [->|Hne]; [done|].
  eapply lookup_prefix_dir; [|done..].
  unfold isDir in Hp. destruct (lookup p t); [by eexists | done].
Qed.

Lemma update_one x v m :
  update [x] v (Dir m) = Dir (partial_alter (fun _ => v) x m).
Proof. reflexivity. Qed.

Lemma update_deep x y q v m :
  update (x :: y :: q) v (Dir m)
  = Dir (partial_alter (fun o => update (y :: q) v <$> o) x m).
Proof. reflexivity. Qed.

Lemma lookup_step x p m :
  lookup (x :: p) (Dir m)
  = match m !! x with Some c => lookup p c | None => None end.
Proof. reflexivity. Qed.

Lemma lookup_one x m : lookup [x] (Dir m) = m !! x.
Proof. rewrite lookup_step. by destruct (m !! x). Qed.

Lemma lookup_update_eq p v t :
  p <> [] -> isDir (parent p) t = true -> lookup p (update p v t) = v.
Proof.
  unfold isDir. revert t. induction p as [|x p IH]; intros t Hne Hd; [done|].
  destruct p as [|y q].
  - simpl in Hd. destruct t as [|m]; [done|].
    by rewrite update_one, lookup_one, lookup_partial_alter_eq.
  - rewrite parent_cons in Hd. destruct t as [|m]; [done|].
    rewrite lookup_step in Hd.
    destruct (m !! x) as [c|] eqn:Hx; [|done].
    rewrite update_deep, lookup_step, lookup_partial_alter_eq, Hx. simpl fmap.
    by apply IH.
Qed.

Lemma update_remove_put p n t :
  lookup p t = None -> update p None (update p (Some n) t) = t.
Proof.
  revert t. induction p as [|x p IH]; intros t Hl; [by rewrite !update_nil|].
  destruct t as [|m]; [done|]. destruct p as [|y q].
  - rewrite lookup_one in Hl. rewrite !update_one. f_equal.
    rewrite partial_alter_partial_alter_eq.
    apply partial_alter_id. by rewrite Hl.
  - rewrite lookup_step in Hl. rewrite !update_deep. f_equal.
    rewrite partial_alter_partial_alter_eq. apply partial_alter_id.
    destruct (m !! x) as [c|]; [|done]. simpl. f_equal.
    by apply IH.
Qed.

Lemma update_put_remove p n t :
  lookup p t = Some n -> p <> [] -> update p (Some n) (update p None t) = t.
Proof.
  revert t. induction p as [|x p IH]; intros t Hl Hne; [done|].
  destruct t as [|m]; [done|]. destruct p as [|y q].
  - rewrite lookup_one in Hl. rewrite !update_one. f_equal.
    rewrite partial_alter_partial_alter_eq.
    apply partial_alter_id. by rewrite Hl.
  - rewrite lookup_step in Hl. rewrite !update_deep. f_equal.
    rewrite partial_alter_partial_alter_eq. apply partial_alter_id.
    destruct (m !! x) as [c|]; [|done]. simpl. f_equal.
    by apply IH.
Qed.

Lemma incomparable_sym p q : incomparable p q -> incomparable q p.
Proof. intros [? ?]. by split. Qed.

Lemma incomparable_cons x p q :
  incomparable (x :: p) (x :: q) -> incomparable p q.
Proof.
  intros [H1 H2]. rewrite isPrefix_cons, bool_decide_eq_true_2 in H1, H2 by done.
  by split.
Qed.

Lemma incomparable_nonempty p q : incomparable p q -> p <> [] /\ q <> [].
Proof. intros [H1 H2]. by destruct p, q. Qed.

Lemma update_commute p q v w t :
  incomparable p q -> update p v (update q w t) = update q w (update p v t).
Proof.
  revert q t. induction p as [|x p IH]; intros q t Hinc.
  { by destruct (incomparable_nonempty _ _ Hinc). }
  destruct q as [|y q]; [by destruct (incomparable_nonempty _ _ Hinc)|].
  destruct t as [|m]; [done|].
  assert (Hform : forall z r u m',
             update (z :: r) u (Dir m')
             = Dir (partial_alter
                      (fun o => match r with [] => u | _ :: _ => update r u <$> o end)
                      z m')) by reflexivity.
  rewrite !Hform. f_equal.
  destruct (decide (x = y)) as [->|Hxy].
  - apply incomparable_cons in Hinc.
    destruct (incomparable_nonempty _ _ Hinc) as [Hp Hq].
    rewrite !partial_alter_partial_alter_eq. apply partial_alter_ext.
    intros o _. destruct p as [|x' p]; [done|]. destruct q as [|y' q]; [done|].
    destruct o as [c|]; [|done].
    change (Some (update (x' :: p) v (update (y' :: q) w c))
            = Some (update (y' :: q) w (update (x' :: p) v c))).
    f_equal. by apply IH.
  - by rewrite partial_alter_partial_alter_ne.
Qed.

Lemma lookup_update_other p q v t :
  incomparable p q -> lookup q (update p v t) = lookup q t.
Proof.
  revert q t. induction p as [|x p IH]; intros q t Hinc.
  { by destruct (incomparable_nonempty _ _ Hinc). }
  destruct q as [|y q]; [by destruct (incomparable_nonempty _ _ Hinc)|].
  destruct t as [|m]; [done|].
  destruct (decide (x = y)) as [->|Hxy].
  - apply incomparable_cons in Hinc.
    destruct (incomparable_nonempty _ _ Hinc) as [Hp Hq].
    destruct p as [|x' p]; [done|].
    rewrite update_deep, !lookup_step, lookup_partial_alter_eq.
    destruct (m !! y) as [c|]; [|done].
    change (lookup q (update (x' :: p) v c) = lookup q c). by apply IH.
  - assert (Hform : forall z r u m',
             update (z :: r) u (Dir m')
             = Dir (partial_alter
                      (fun o => match r with [] => u | _ :: _ => update r u <$> o end)
                      z m')) by reflexivity.
    by rewrite Hform, !lookup_step, lookup_partial_alter_ne.
Qed.

(** An update that is not at or above a path leaves what the path holds,
    up to the contents of a directory. *)
Lemma kind_update p q v t :
  isPrefix p q = false -> kindOf (lookup q (update p v t)) = kindOf (lookup q t).
Proof.
  revert q t. induction p as [|x p IH]; intros q t Hp; [done|].
  destruct t as [|m]; [done|].
  destruct q as [|y q]; [done|].
  assert (Hform : forall z r u m',
             update (z :: r) u (Dir m')
             = Dir (partial_alter
                      (fun o => match r with [] => u | _ :: _ => update r u <$> o end)
                      z m')) by reflexivity.
  rewrite Hform, !lookup_step.
  destruct (decide (x = y)) as [->|Hxy].
  - rewrite isPrefix_cons, bool_decide_eq_true_2 in Hp by done. simpl in Hp.
    rewrite lookup_partial_alter_eq.
    destruct p as [|x' p]; [done|].
    destruct (m !! y) as [c|]; [|done].
    change (kindOf (lookup q (update (x' :: p) v c)) = kindOf (lookup q c)).
    by apply IH.
  - by rewrite lookup_partial_alter_ne.
Qed.

Lemma isDir_kind p t : isDir p t = bool_decide (kindOf (lookup p t) = KDir).
Proof. unfold isDir. by destruct (lookup p t) as [[]|]. Qed.

Lemma exists_kind p t : exists_ p t = negb (bool_decide (kindOf (lookup p t) = KNone)).
Proof. unfold exists_. by destruct (lookup p t) as [[]|]. Qed.

Lemma isDir_update p q v t :
  isPrefix p q = false -> isDir q (update p v t) = isDir q t.
Proof. intros H. by rewrite !isDir_kind, kind_update. Qed.

Lemma exists_update p q v t :
  isPrefix p q = false -> exists_ q (update p v t) = exists_ q t.
Proof. intros H. by rewrite !exists_kind, kind_update. Qed.

Lemma lookup_File_update p q v t data :
  isPrefix p q = false ->
  lookup q t = Some (File data) -> lookup q (update p v t) = Some (File data).
Proof.
  intros Hp Hq. pose proof (kind_update p q v t Hp) as Hk. rewrite Hq in Hk.
  destruct (lookup q (update p v t)) as [[]|]; simpl in Hk; congruence.
Qed.

Lemma lookup_None_update p q v t :
  isPrefix p q = false ->
  lookup q t = None -> lookup q (update p v t) = None.
Proof.
  intros Hp Hq. pose proof (kind_update p q v t Hp) as Hk. rewrite Hq in Hk.
  destruct (lookup q (update p v t)) as [[]|]; simpl in Hk; congruence.
Qed.

End TreeFacts.

(** ** Each recorded operation can be taken back *)

Section Inverses.
Import FS.
Implicit Types (p q a b : path) (t : node).

Lemma checkParent_None p t : checkParent p t = None <-> isDir (parent p) t = true.
Proof.
  unfold checkParent, isDir. destruct (lookup (parent p) t) as [[]|]; split; done.
Qed.

Lemma exists_false p t : exists_ p t = false <-> lookup p t = None.
Proof. unfold exists_. destruct (lookup p t); split; done. Qed.

Lemma absent_nonempty p t : lookup p t = None -> p <> [].
Proof. by intros H ->. Qed.

Lemma absent_not_prefix a b t :
  is_Some (lookup a t) -> lookup b t = None -> isPrefix b a = false.
Proof.
  intros Ha Hb. destruct (isPrefix b a) eqn:Hp; [|done].
  destruct (lookup_prefix a b t Ha Hp) as [? ?]. congruence.
Qed.

(** A rename onto an unused path. *)
Lemma rename_fresh a b t t' :
  lookup b t = None ->
  rename a b t = Ok t' ->
  exists n,
    lookup a t = Some n /\ incomparable a b /\ isDir (parent b) t = true
    /\ t' = update b (Some n) (update a None t).
Proof.
  intros Hb. unfold rename. destruct (lookup a t) as [n|] eqn:Ha; [|done].
  case_bool_decide as Hab; [subst; congruence|].
  case_bool_decide as Hroot; [done|].
  destruct (isPrefix a b) eqn:Hpre; [done|].
  destruct (checkParent b t) eqn:Hcp; [done|].
  rewrite Hb. intros [= <-]. exists n. split; [done|].
  split; [split; [done | by eapply absent_not_prefix]|].
  split; [by apply checkParent_None | done].
Qed.

Lemma rename_inverse a b t t' :
  lookup b t = None -> rename a b t = Ok t' -> rename b a t' = Ok t.
Proof.
  intros Hb Hr.
  destruct (rename_fresh _ _ _ _ Hb Hr) as (n & Ha & [Hab Hba] & Hpb & ->).
  assert (Hane : a <> []) by (intros ->; by destruct b).
  assert (Hbne : b <> []) by (by eapply absent_nonempty).
  assert (Hpa : isDir (parent a) t = true)
    by (apply lookup_parent_dir; [by eexists | done]).
  assert (Hb' : lookup b (update a None t) = None)
    by (by apply lookup_None_update).
  assert (Hpb' : isDir (parent b) (update a None t) = true).
  { rewrite isDir_update; [done|].
    destruct (isPrefix a (parent b)) eqn:E; [|done].
    apply isPrefix_parent in E. congruence. }
  unfold rename.
  rewrite lookup_update_eq by done.
  rewrite bool_decide_eq_false_2 by (intros ->; by rewrite isPrefix_refl in Hab).
  rewrite bool_decide_eq_false_2 by done.
  rewrite Hba.
  assert (Hcp : checkParent a (update b (Some n) (update a None t)) = None).
  { apply checkParent_None. rewrite !isDir_update; [done | |].
    - by apply isPrefix_parent_self.
    - destruct (isPrefix b (parent a)) eqn:E; [|done].
      apply isPrefix_parent in E. congruence. }
  rewrite Hcp.
  assert (Ha' : lookup a (update b (Some n) (update a None t)) = None).
  { rewrite lookup_update_other by (by split).
    apply lookup_update_eq; done. }
  rewrite Ha'. f_equal.
  rewrite update_remove_put by done. by apply update_put_remove.
Qed.

Lemma mkdirp_cons x p m :
  mkdirp (x :: p) (Dir m)
  = match mkdirp p (default (Dir ∅) (m !! x)) with
    | Ok c => Ok (Dir (<[x := c]> m))
    | Err e => Err e
    end.
Proof. reflexivity. Qed.

(** Creating one directory inside an existing one. *)
Lemma mkdirp_direct p t :
  lookup p t = None -> isDir (parent p) t = true ->
  mkdirp p t = Ok (update p (Some (Dir ∅)) t).
Proof.
  unfold isDir. revert t. induction p as [|x p IH]; intros t Hl Hd; [done|].
  destruct t as [|m]; [by destruct p|].
  destruct p as [|y q].
  - rewrite lookup_one in Hl. rewrite update_one, mkdirp_cons, Hl. done.
  - rewrite parent_cons, lookup_step in Hd. rewrite lookup_step in Hl.
    destruct (m !! x) as [c|] eqn:Hx; [|done].
    rewrite update_deep, mkdirp_cons, Hx.
    change (default (Dir ∅) (Some c)) with c.
    rewrite (IH c Hl Hd). f_equal. f_equal.
    apply map_eq. intros k. rewrite lookup_partial_alter, lookup_insert.
    case_decide; [subst; by rewrite Hx | done].
Qed.

Lemma rmdir_inverse p t :
  lookup p t = None -> isDir (parent p) t = true ->
  rmdir p (update p (Some (Dir ∅)) t) = Ok t.
Proof.
  intros Hl Hd. unfold rmdir.
  rewrite lookup_update_eq by (done || by eapply absent_nonempty).
  rewrite bool_decide_eq_true_2 by done.
  rewrite bool_decide_eq_false_2 by (by eapply absent_nonempty).
  by rewrite update_remove_put.
Qed.

(** Copy to an unused path, then remove the original. *)
Lemma copy_fresh d bk t t1 :
  lookup bk t = None ->
  copyFile d bk t = Ok t1 ->
  exists data,
    lookup d t = Some (File data) /\ incomparable d bk
    /\ isDir (parent bk) t = true
    /\ t1 = update bk (Some (File data)) t.
Proof.
  intros Hb. unfold copyFile.
  destruct (lookup d t) as [[data|m]|] eqn:Hd; [|done..].
  destruct (checkParent bk t) eqn:Hcp; [done|].
  apply checkParent_None in Hcp.
  rewrite Hb. intros [= <-]. exists data. split; [done|].
  split; [|done]. split; [|eapply absent_not_prefix; [by eexists | done]].
  destruct (isPrefix d bk) eqn:E; [|done].
  assert (Hne : d <> bk) by (intros ->; congruence).
  assert (Hdp : isPrefix d (parent bk) = true).
  { clear -E Hne. revert bk E Hne.
    induction d as [|x d IH]; intros bk E Hne; [done|].
    destruct bk as [|y bk]; [done|]. rewrite isPrefix_cons in E.
    apply andb_prop in E as [->%bool_decide_eq_true E].
    destruct bk as [|z bk]; [by destruct d|].
    rewrite parent_cons, isPrefix_cons, bool_decide_eq_true_2 by done.
    apply IH; [done | congruence]. }
  pose proof (isDir_prefix _ _ _ Hcp Hdp) as Hdd.
  unfold isDir in Hdd. by rewrite Hd in Hdd.
Qed.

Lemma delete_inverse d bk t t1 t2 :
  lookup bk t = None ->
  copyFile d bk t = Ok t1 ->
  unlink d t1 = Ok t2 ->
  exists t3, copyFile bk d t2 = Ok t3 /\ unlink bk t3 = Ok t.
Proof.
  intros Hb Hc Hu.
  destruct (copy_fresh _ _ _ _ Hb Hc) as (data & Hd & [Hdb Hbd] & Hpb & ->).
  assert (Hdne : d <> []) by (intros ->; by destruct bk).
  assert (Hbne : bk <> []) by (by eapply absent_nonempty).
  assert (Hpd : isDir (parent d) t = true)
    by (apply lookup_parent_dir; [by eexists | done]).
  unfold unlink in Hu.
  rewrite lookup_update_other, Hd in Hu by (by split).
  injection Hu as <-.
  set (t2 := update d None (update bk (Some (File data)) t)).
  assert (Hbk2 : lookup bk t2 = Some (File data)).
  { subst t2. rewrite lookup_update_other by (by split).
    by apply lookup_update_eq. }
  assert (Hd2 : lookup d t2 = None).
  { subst t2. apply lookup_update_eq; [done|].
    rewrite isDir_update; [done|].
    destruct (isPrefix bk (parent d)) eqn:E; [|done].
    apply isPrefix_parent in E. congruence. }
  assert (Hpd2 : isDir (parent d) t2 = true).
  { subst t2. rewrite !isDir_update; [done | |].
    - destruct (isPrefix bk (parent d)) eqn:E; [|done].
      apply isPrefix_parent in E. congruence.
    - by apply isPrefix_parent_self. }
  exists (update d (Some (File data)) t2). split.
  - unfold copyFile. rewrite Hbk2.
    rewrite (proj2 (checkParent_None d t2) Hpd2). by rewrite Hd2.
  - unfold unlink.
    rewrite lookup_update_other, Hbk2 by (by split). f_equal.
    subst t2.
    rewrite (update_commute d bk None) by (by split).
    rewrite (update_commute d bk (Some (File data))) by (by split).
    rewrite update_put_remove by done.
    by apply update_remove_put.
Qed.
End Inverses.

(** ** Segments of a path string *)

Section SegmentFacts.
Import Path.
Implicit Types (s a seg : jsstring) (segs L : list jsstring).

Lemma split_nonempty s : split s <> [].
Proof.
  destruct s as [|c s]; simpl; [done|].
  destruct (c =? SLASH); [done|]. by destruct (split s).
Qed.

Lemma split_app_slash a (b : jsstring) : split (a ++ SLASH :: b) = split a ++ split b.
Proof.
  induction a as [|c a IH]; [done|]. simpl. rewrite IH.
  destruct (c =? SLASH); [done|].
  destruct (split a) eqn:E; [by apply split_nonempty in E | done].
Qed.

Lemma split_slashFree s : slashFree s -> split s = [s].
Proof.
  unfold slashFree. induction s as [|c s IH]; intros H; [done|].
  apply not_elem_of_cons in H as [Hc Hs]. simpl.
  destruct (N.eqb_spec c SLASH) as [->|_]; [done|]. by rewrite IH.
Qed.

Lemma split_elems s : Forall slashFree (split s).
Proof.
  induction s as [|c s IH]; simpl.
  - repeat constructor. unfold slashFree. apply not_elem_of_nil.
  - destruct (N.eqb_spec c SLASH) as [->|Hc].
    + constructor; [apply not_elem_of_nil | done].
    + destruct (split s) as [|seg segs].
      * repeat constructor. unfold slashFree. apply not_elem_of_cons.
        split; [congruence | apply not_elem_of_nil].
      * apply Forall_cons in IH as [Hseg Hsegs]. constructor; [|done].
        unfold slashFree in *. apply not_elem_of_cons. split; [congruence | done].
Qed.

Lemma split_unsplit segs :
  segs <> [] -> Forall slashFree segs -> split (unsplit segs) = segs.
Proof.
  induction segs as [|seg rest IH]; intros Hne Hf; [done|].
  apply Forall_cons in Hf as [Hseg Hrest].
  destruct rest as [|seg' rest].
  - simpl. by apply split_slashFree.
  - change (unsplit (seg :: seg' :: rest)) with (seg ++ SLASH :: unsplit (seg' :: rest)).
    rewrite split_app_slash, IH by done. by rewrite split_slashFree.
Qed.

Lemma unsplit_nil segs : unsplit segs = [] -> segs = [] \/ segs = [[]].
Proof.
  destruct segs as [|seg [|seg' rest]]; simpl; [by left | intros ->; by right|].
  intros H. by destruct seg.
Qed.

(** *** Normalization of segment lists *)

Lemma normal_ne seg : normal seg -> seg <> [] /\ seg <> [DOT] /\ seg <> dd.
Proof. done. Qed.

Lemma normStep_skip b L seg :
  seg = [] \/ seg = [DOT] -> normStep b L seg = L.
Proof. intros [-> | ->]; reflexivity. Qed.

Lemma normStep_normal b L seg : normal seg -> normStep b L seg = L ++ [seg].
Proof.
  intros (H1 & H2 & H3). unfold normStep, str_eqb.
  by rewrite !bool_decide_eq_false_2.
Qed.

Lemma normStep_up_normal b L x :
  normal x -> normStep b (L ++ [x]) dd = L.
Proof.
  intros (H1 & H2 & H3). unfold normStep, str_eqb. simpl.
  rewrite rev_unit. rewrite (bool_decide_eq_false_2 (x = _)) by done.
  by rewrite removelast_last.
Qed.

Lemma normStep_up_root : normStep false [] dd = [].
Proof. reflexivity. Qed.

Lemma normStep_up_above k : normStep true (replicate k dd) dd = replicate (S k) dd.
Proof.
  destruct k as [|k]; [done|].
  unfold normStep, str_eqb. simpl bool_decide. cbv iota.
  rewrite replicate_S_end, rev_unit. simpl bool_decide. cbv iota.
  rewrite <- replicate_S_end. by rewrite <- replicate_S_end.
Qed.

Lemma normStep_up_above_false k : normStep false (replicate k dd) dd = replicate k dd.
Proof.
  destruct k as [|k]; [done|].
  unfold normStep, str_eqb. simpl bool_decide. cbv iota.
  rewrite replicate_S_end, rev_unit. simpl bool_decide. cbv iota. done.
Qed.

Lemma seg_cases seg : seg = [] \/ seg = [DOT] \/ seg = dd \/ normal seg.
Proof.
  destruct (decide (seg = [])); [by left|].
  destruct (decide (seg = [DOT])); [by right; left|].
  destruct (decide (seg = dd)); [by right; right; left|].
  by right; right; right.
Qed.

Lemma snoc_cases {A} (l : list A) : l = [] \/ exists l' x, l = l' ++ [x].
Proof. induction l using rev_ind; [by left | right; eauto]. Qed.

(** In an absolute path the kept segments are always normal. *)
Lemma normSegs_false_normal segs L :
  Forall normal L -> Forall normal (fold_left (normStep false) segs L).
Proof.
  revert L. induction segs as [|seg segs IH]; intros L HL; [done|].
  simpl. apply IH.
  destruct (seg_cases seg) as [->| [->| [->|Hn]]].
  - rewrite normStep_skip; [done | by left].
  - rewrite normStep_skip; [done | by right].
  - destruct (snoc_cases L) as [->|(L' & x & ->)]; [done|].
    apply Forall_app in HL as [HL' Hx]. rewrite Forall_singleton in Hx.
    rewrite normStep_up_normal; [exact HL' | exact Hx].
  - rewrite normStep_normal by done. apply Forall_app. split; [done|].
    by apply Forall_singleton.
Qed.

Lemma normSegs_false_id segs L :
  Forall normal segs -> fold_left (normStep false) segs L = L ++ segs.
Proof.
  revert L. induction segs as [|seg segs IH]; intros L Hs; simpl.
  - by rewrite List.app_nil_r.
  - apply Forall_cons in Hs as [Hseg Hs].
    rewrite normStep_normal, IH by done. by rewrite <- List.app_assoc.
Qed.

(** A relative path keeps leading [".."]s that an absolute one drops. *)
Lemma normSegs_relative segs k A :
  Forall normal A ->
  exists k',
    fold_left (normStep true) segs (replicate k dd ++ A)
    = replicate k' dd ++ fold_left (normStep false) segs A.
Proof.
  revert k A. induction segs as [|seg segs IH]; intros k A HA; [by exists k|].
  simpl.
  destruct (seg_cases seg) as [->| [->| [->|Hn]]].
  - rewrite !normStep_skip; [by apply IH | by left..].
  - rewrite !normStep_skip; [by apply IH | by right..].
  - destruct (snoc_cases A) as [->|(A' & x & ->)].
    + rewrite List.app_nil_r, normStep_up_above, normStep_up_root.
      rewrite <- (List.app_nil_r (replicate (S k) dd)). by apply IH.
    + apply Forall_app in HA as [HA' Hx]. rewrite Forall_singleton in Hx.
      rewrite List.app_assoc, !normStep_up_normal by done. by apply IH.
  - rewrite !normStep_normal by done. rewrite <- List.app_assoc.
    apply IH. apply Forall_app. split; [done | by apply Forall_singleton].
Qed.

Lemma normSegs_false_ups k segs :
  fold_left (normStep false) (replicate k dd ++ segs) []
  = fold_left (normStep false) segs [].
Proof.
  induction k as [|k IH]; [done|]. simpl. by rewrite normStep_up_root.
Qed.

Lemma normSegs_idem b segs :
  normSegs false (normSegs b segs) = normSegs false segs.
Proof.
  unfold normSegs. destruct b.
  - destruct (normSegs_relative segs 0 [] ltac:(constructor)) as [k' Hk].
    simpl in Hk. rewrite Hk, normSegs_false_ups.
    rewrite normSegs_false_id; [done|]. by apply normSegs_false_normal.
  - rewrite normSegs_false_id; [done|]. by apply normSegs_false_normal.
Qed.
End SegmentFacts.

(** ** [path.normalize] and [path.join] against the resolution of a path *)

Section JoinFacts.
Import Path.
Implicit Types (s seg : jsstring) (segs L : list jsstring).

Lemma normStep_cases b L seg :
  normStep b L seg = L \/ normStep b L seg = removelast L
  \/ (seg <> [] /\ normStep b L seg = L ++ [seg]).
Proof.
  unfold normStep, str_eqb.
  destruct (decide (seg = [])) as [->|Hne]; [by left|].
  rewrite (bool_decide_eq_false_2 (seg = [])) by done. simpl.
  case_bool_decide; [by left|].
  case_bool_decide; [|by right; right].
  destruct (rev L) as [|l ?]; [destruct b; [by right; right | by left]|].
  case_bool_decide; [destruct b; [by right; right | by left] | by right; left].
Qed.

Lemma Forall_removelast {A} (P : A -> Prop) (l : list A) :
  Forall P l -> Forall P (removelast l).
Proof.
  destruct (snoc_cases l) as [->|(l' & x & ->)]; [done|].
  rewrite removelast_last. by intros [? _]%Forall_app.
Qed.

Lemma normSegs_Forall (P : jsstring -> Prop) b segs L :
  Forall (fun seg => seg <> [] -> P seg) segs ->
  Forall P L -> Forall P (fold_left (normStep b) segs L).
Proof.
  revert L. induction segs as [|seg segs IH]; intros L Hs HL; [done|].
  apply Forall_cons in Hs as [Hseg Hs]. simpl. apply IH; [done|].
  destruct (normStep_cases b L seg) as [-> | [-> | [Hne ->]]];
    [done | by apply Forall_removelast |].
  apply Forall_app. split; [done|]. apply Forall_singleton. by apply Hseg.
Qed.

Lemma normSegs_split_ok b s :
  Forall (fun seg => seg <> [] /\ slashFree seg) (normSegs b (split s)).
Proof.
  apply normSegs_Forall; [|done].
  eapply Forall_impl; [apply split_elems|]. by intros seg Hsf Hne.
Qed.

Lemma normSegs_false_cons_empty segs L :
  fold_left (normStep false) ([] :: segs) L = fold_left (normStep false) segs L.
Proof. reflexivity. Qed.

Lemma normSegs_false_snoc_empty segs L :
  fold_left (normStep false) (segs ++ [[]]) L = fold_left (normStep false) segs L.
Proof. by rewrite fold_left_app. Qed.

Lemma split_cons_slash s : split (SLASH :: s) = [] :: split s.
Proof. reflexivity. Qed.

Lemma split_snoc_slash s : split (s ++ [SLASH]) = split s ++ [[]].
Proof. by rewrite split_app_slash. Qed.

Lemma resolve_normalize s : resolve (normalize s) = resolve s.
Proof.
  destruct s as [|c r]; [done|]. unfold normalize.
  set (s := c :: r). set (abs := isAbsolute s).
  set (N := normSegs (negb abs) (split s)).
  assert (HN : resolve s = normSegs false N).
  { subst N. by rewrite normSegs_idem. }
  pose proof (normSegs_split_ok (negb abs) s) as Hok. fold N in Hok.
  destruct (unsplit N) as [|c0 body] eqn:Hbody.
  - assert (N = []) as HN0.
    { apply unsplit_nil in Hbody as [->| ->]; [done|].
      apply Forall_cons in Hok as [[? _] _]. done. }
    rewrite HN, HN0. by destruct abs, (hasTrailingSlash s).
  - assert (Hsplit : split (c0 :: body) = N).
    { rewrite <- Hbody. apply split_unsplit.
      - intros ->. done.
      - eapply Forall_impl; [exact Hok|]. by intros ? [_ ?]. }
    rewrite HN. unfold resolve, normSegs.
    destruct abs, (hasTrailingSlash s);
      rewrite ?split_cons_slash, ?split_snoc_slash, ?normSegs_false_cons_empty,
        ?normSegs_false_snoc_empty, Hsplit; done.
Qed.

Lemma join_two d x :
  d <> [] -> x <> [] -> join [d; x] = normalize (d ++ SLASH :: x).
Proof.
  intros Hd Hx. unfold join. simpl.
  rewrite !bool_decide_eq_false_2 by done. simpl.
  destruct d; [done|]. done.
Qed.

(** Joining a directory and a plain name appends the name to the
    directory's components. *)
Lemma resolve_join_name d x :
  d <> [] -> normal x -> slashFree x -> resolve (join [d; x]) = resolve d ++ [x].
Proof.
  intros Hd Hn Hsf. rewrite join_two by (done || apply Hn).
  rewrite resolve_normalize. unfold resolve, normSegs.
  rewrite split_app_slash, fold_left_app, split_slashFree by done.
  simpl. by rewrite normStep_normal.
Qed.
End JoinFacts.

(** ** Base name, extension and directory of a path *)

Section NameFacts.
Import Path.
Implicit Types (p s g seg : jsstring) (segs L : list jsstring).

Lemma uint_units_inj u u' : uint_units u = uint_units u' -> u = u'.
Proof.
  revert u'. induction u; intros u' H; destruct u'; simpl in H;
    try discriminate; try reflexivity; injection H as H; f_equal; by apply IHu.
Qed.

Lemma String_N_inj j k : String_N j = String_N k -> j = k.
Proof. intros H%uint_units_inj. by apply DecimalN.Unsigned.to_uint_inj. Qed.

Lemma uint_units_digits u : Forall (fun c => 48 <= c <= 57) (uint_units u).
Proof. induction u; simpl; constructor; (lia || done). Qed.

Lemma String_N_slashFree k : slashFree (String_N k).
Proof.
  unfold slashFree, String_N. intros Hin.
  pose proof (uint_units_digits (N.to_uint k)) as Hd.
  rewrite Forall_forall in Hd. specialize (Hd _ Hin). unfold SLASH in Hd. lia.
Qed.

Lemma slashFree_app a (b : jsstring) : slashFree (a ++ b) <-> slashFree a /\ slashFree b.
Proof. unfold slashFree. rewrite elem_of_app. tauto. Qed.

Lemma dropEmpty_spec segs : exists k, segs = replicate k [] ++ dropEmpty segs.
Proof.
  induction segs as [|seg segs [k IH]]; [by exists 0%nat|].
  destruct seg as [|c seg]; [|by exists 0%nat].
  exists (S k). simpl. by rewrite <- IH.
Qed.

Lemma rev_replicate {A} k (x : A) : rev (replicate k x) = replicate k x.
Proof.
  induction k as [|k IH]; [done|]. simpl. rewrite IH.
  by rewrite <- replicate_S_end.
Qed.

Lemma split_trimmed p : exists k, split p = trimmedSegs p ++ replicate k [].
Proof.
  destruct (dropEmpty_spec (rev (split p))) as [k Hk]. exists k.
  unfold trimmedSegs. apply (f_equal (@rev _)) in Hk.
  rewrite rev_involutive, rev_app_distr, rev_replicate in Hk. exact Hk.
Qed.

Lemma trimmed_slashFree p : Forall slashFree (trimmedSegs p).
Proof.
  destruct (split_trimmed p) as [k Hk]. pose proof (split_elems p) as H.
  rewrite Hk in H. by apply Forall_app in H as [? _].
Qed.

Lemma lastSegment_cases p :
  (trimmedSegs p = [] /\ lastSegment p = [])
  \/ exists I, trimmedSegs p = I ++ [lastSegment p].
Proof.
  unfold lastSegment.
  destruct (snoc_cases (trimmedSegs p)) as [->|(I & g & ->)]; [by left|].
  right. exists I. by rewrite rev_unit.
Qed.

Lemma lastSegment_slashFree p : slashFree (lastSegment p).
Proof.
  destruct (lastSegment_cases p) as [[_ ->]|[I HI]].
  - apply not_elem_of_nil.
  - pose proof (trimmed_slashFree p) as H. rewrite HI in H.
    apply Forall_app in H as [_ H]. by rewrite Forall_singleton in H.
Qed.

Lemma split_seg_length s seg : seg ∈ split s -> (length seg <= length s)%nat.
Proof.
  revert seg. induction s as [|c s IH]; intros seg; simpl.
  - intros ->%list_elem_of_singleton. done.
  - destruct (c =? SLASH).
    + intros [->|Hin]%elem_of_cons; [simpl; lia|].
      specialize (IH _ Hin). lia.
    + destruct (split s) as [|seg0 segs] eqn:E.
      * intros ->%list_elem_of_singleton. simpl. lia.
      * intros [->|Hin]%elem_of_cons.
        -- simpl. specialize (IH seg0 ltac:(left)). lia.
        -- specialize (IH seg ltac:(by right)). lia.
Qed.

Lemma lastSegment_length p : (length (lastSegment p) <= length p)%nat.
Proof.
  destruct (lastSegment_cases p) as [[_ ->]|[I HI]]; [simpl; lia|].
  apply split_seg_length. destruct (split_trimmed p) as [k ->].
  rewrite HI. apply elem_of_app. left. apply elem_of_app. right. left.
Qed.

Lemma lastDot_bound g i found d :
  lastDot g i found = Some d ->
  found = Some d \/ (i <= d < i + length g)%nat.
Proof.
  revert i found. induction g as [|c g IH]; intros i found H; [by left|].
  simpl in H. apply IH in H as [H|H]; [|right; simpl; lia].
  destruct (c =? DOT); [|by left]. injection H as <-. right. simpl. lia.
Qed.

Lemma startsWith_app (a b : jsstring) : startsWith (a ++ b) a = true.
Proof.
  induction a as [|c a IH]; simpl; [by destruct b|]. by rewrite N.eqb_refl.
Qed.

Lemma endsWith_app (a b : jsstring) : endsWith (a ++ b) b = true.
Proof. unfold endsWith. rewrite rev_app_distr. apply startsWith_app. Qed.

(** The base name and the extension make up the last component. *)
Lemma basename_extname p : basename p (extname p) ++ extname p = lastSegment p.
Proof.
  unfold extname. set (g := lastSegment p).
  assert (Hbase0 : basename p [] = g) by reflexivity.
  destruct (lastDot g 0 None) as [[|d]|] eqn:Hdot.
  1,3: rewrite List.app_nil_r; reflexivity.
  destruct (str_eqb g [DOT; DOT]); [rewrite List.app_nil_r; reflexivity|].
  apply lastDot_bound in Hdot as [?|Hd]; [done|]. simpl in Hd.
  pose proof (lastSegment_length p) as Hlen. fold g in Hlen.
  assert (Hel : length (drop (S d) g) = (length g - S d)%nat) by apply length_drop.
  unfold basename. fold g.
  rewrite bool_decide_eq_false_2
    by (intros E; apply (f_equal length) in E; simpl in E; lia).
  cbn [orb].
  destruct (Nat.ltb_spec (length p) (length (drop (S d) g))) as [?|_]; [lia|].
  unfold str_eqb.
  rewrite bool_decide_eq_false_2 by (intros E; apply (f_equal length) in E; lia).
  rewrite bool_decide_eq_false_2 by (intros E; rewrite E in Hd; simpl in Hd; lia).
  rewrite <- (take_drop (S d) g) at 1. rewrite endsWith_app.
  rewrite bool_decide_eq_false_2 by (intros E; apply (f_equal length) in E; lia).
  rewrite Hel. replace (length g - (length g - S d))%nat with (S d) by lia.
  apply take_drop.
Qed.

Lemma basename_slashFree p :
  slashFree (basename p (extname p)) /\ slashFree (extname p).
Proof.
  apply slashFree_app. rewrite basename_extname. apply lastSegment_slashFree.
Qed.

Lemma dirname_nonempty p : dirname p <> [].
Proof.
  unfold dirname. destruct p as [|c p]; [done|].
  destruct (unsplit _) eqn:E; [by destruct (c =? SLASH)|].
  by destruct (_ && _).
Qed.




Lemma resolve_normal p : Forall normal (resolve p).
Proof. apply normSegs_false_normal. constructor. Qed.
End NameFacts.

(** ** The conflict loop *)

Section ConflictFacts.
Import Path.

Lemma candidateName_underscore T k : 95 ∈ candidateName T k.
Proof. unfold candidateName. cbv zeta. apply elem_of_app. right. left. Qed.

Lemma candidateName_normal T k : normal (candidateName T k).
Proof.
  pose proof (candidateName_underscore T k) as H.
  repeat split; intros E; rewrite E in H;
    repeat (apply elem_of_cons in H as [H|H]; [done|]); by apply elem_of_nil in H.
Qed.

Lemma candidateName_slashFree T k : slashFree (candidateName T k).
Proof.
  destruct (basename_slashFree T) as [Hb He].
  unfold candidateName. cbv zeta. rewrite !slashFree_app.
  split; [done|]. split; [|split; [apply String_N_slashFree | done]].
  unfold slashFree. intros [?|[]%elem_of_nil]%elem_of_cons. done.
Qed.

Lemma candidateName_inj T j k : candidateName T j = candidateName T k -> j = k.
Proof.
  unfold candidateName. cbv zeta.
  intros H%app_inv_head%app_inv_head%app_inv_tail. by apply String_N_inj.
Qed.


Lemma candidate_resolve T k :
  resolve (candidate T k) = resolve (dirname T) ++ [candidateName T k].
Proof.
  unfold candidate. cbv zeta. fold (candidateName T k).
  apply resolve_join_name;
    [apply dirname_nonempty | apply candidateName_normal | apply candidateName_slashFree].
Qed.

End ConflictFacts.

Section LoopFacts.
Import FS.
Variable t : node.
Variable T : jsstring.

Let D := Path.resolve (Path.dirname T).

Lemma lookup_snoc (p : path) x (t' : node) :
  lookup (p ++ [x]) t'
  = match lookup p t' with
    | Some (Dir m) => m !! x
    | _ => None
    end.
Proof.
  revert t'. induction p as [|y p IH]; intros t'.
  - simpl. destruct t' as [|m]; [done|]. by destruct (m !! x).
  - simpl. destruct t' as [|m]; [done|]. destruct (m !! y); [apply IH | done].
Qed.

(** The names in the directory the candidates live in. *)
Let siblings : gset jsstring := siblingNames t T.

Lemma siblings_size : size siblings = entryCount D t.
Proof.
  unfold siblings, siblingNames, entryCount. fold D. destruct (lookup D t) as [[|m]|]; [done | | done].
  apply size_dom.
Qed.

Lemma candidate_exists (k : N) :
  existsSync (candidate T k) t = true -> candidateName T k ∈ siblings.
Proof.
  unfold existsSync, exists_, siblings, siblingNames. fold D. rewrite candidate_resolve, lookup_snoc.
  fold D. destruct (lookup D t) as [[|m]|]; [done | | done].
  destruct (m !! candidateName T k) eqn:E; [|done].
  intros _. apply elem_of_dom. by eexists.
Qed.

Lemma loop_spec (fuel : nat) (k : N) (E : gset jsstring) :
  (forall j, k <= j -> existsSync (candidate T j) t = true -> candidateName T j ∈ E) ->
  (size E < fuel)%nat ->
  exists k',
    k <= k'
    /\ conflictLoop fuel t T (candidate T k) (k + 1) = candidate T k'
    /\ existsSync (candidate T k') t = false
    /\ forall j, k <= j < k' -> existsSync (candidate T j) t = true.
Proof.
  revert k E. induction fuel as [|fuel IH]; intros k E HE Hsize; [lia|].
  simpl. destruct (existsSync (candidate T k) t) eqn:Hex.
  - destruct (IH (k + 1) (E ∖ {[candidateName T k]})) as (k' & Hk & Heq & Hno & Hall).
    + intros j Hj Hexj. apply elem_of_difference. split; [apply HE; [lia | done]|].
      intros ->%elem_of_singleton%candidateName_inj. lia.
    + assert (Hin : candidateName T k ∈ E) by (apply HE; [lia | done]).
      assert (Hsub : ({[candidateName T k]} : gset jsstring) ⊆ E)
        by (by apply singleton_subseteq_l).
      rewrite size_difference, size_singleton by done.
      assert (size E <> 0)%nat; [|lia].
      intros H0%size_empty_inv. apply H0 in Hin. by apply elem_of_empty in Hin.
    + exists k'. split; [lia|]. split; [done|]. split; [done|].
      intros j Hj. destruct (decide (j = k)) as [->|]; [done|]. apply Hall. lia.
  - exists k. split; [lia|]. split; [done|]. split; [done|]. intros j Hj. lia.
Qed.

(** With the fuel of [resolveConflict], or more, the loop stops because it
    found an unused path: the target, or the first candidate that does
    not exist. *)
Lemma conflictLoop_spec (fuel : nat) :
  (conflictFuel t T <= fuel)%nat ->
  let finalPath := conflictLoop fuel t T T 1 in
  existsSync finalPath t = false
  /\ (if existsSync T t
      then exists k,
          1 <= k /\ finalPath = candidate T k
          /\ forall j, 1 <= j < k -> existsSync (candidate T j) t = true
      else finalPath = T).
Proof.
  intros Hfuel. unfold conflictFuel in Hfuel. fold D in Hfuel.
  destruct fuel as [|fuel]; [lia|]. cbn [conflictLoop]. cbv zeta.
  destruct (existsSync T t) eqn:HexT; [|done].
  destruct (loop_spec fuel 1 siblings) as (k & Hk & Heq & Hno & Hall).
  - intros j _. apply candidate_exists.
  - rewrite siblings_size. lia.
  - rewrite Heq. split; [done|].
    exists k. done.
Qed.


Lemma resolveConflict_unused : existsSync (resolveConflict t T) t = false.
Proof. apply (conflictLoop_spec (conflictFuel t T)). lia. Qed.
End LoopFacts.

(** ** Steps of the execution *)

Section MoreTreeFacts.
Import FS.
Implicit Types (p q a b : path) (t : node).


(** Nothing lives below a regular file. *)
Lemma file_not_above a b t data :
  lookup a t = Some (File data) -> is_Some (lookup b t) -> a <> b ->
  isPrefix a b = false.
Proof.
  intros Ha Hb Hne. destruct (isPrefix a b) eqn:E; [|done].
  pose proof (lookup_prefix_dir b a t Hb E Hne) as Hd.
  unfold isDir in Hd. by rewrite Ha in Hd.
Qed.


Lemma lookup_None_remove p q t :
  lookup q t = None -> lookup q (update p None t) = None.
Proof.
  revert q t. induction p as [|x p IH]; intros q t Hq; [by rewrite update_nil|].
  destruct t as [|m]; [done|]. destruct q as [|y q]; [done|].
  rewrite lookup_step in Hq.
  assert (Hform : forall z r u m',
             update (z :: r) u (Dir m')
             = Dir (partial_alter
                      (fun o => match r with [] => u | _ :: _ => update r u <$> o end)
                      z m')) by reflexivity.
  rewrite Hform, lookup_step.
  destruct (decide (x = y)) as [->|Hxy].
  - rewrite lookup_partial_alter_eq. destruct p as [|x' p]; [done|].
    destruct (m !! y) as [c|]; [|done].
    change (lookup q (update (x' :: p) None c) = None). by apply IH.
  - by rewrite lookup_partial_alter_ne.
Qed.


End MoreTreeFacts.

Section StepFacts.
Import FS.
Variable folder : jsstring.

(** What one iteration of the file loop does. *)
Lemma processFile_cases t ops file t' ops' :
  processFile folder (t, ops) file = (t', ops') ->
  (t' = t /\ ops' = ops)
  \/ exists finalPath,
      finalPath = resolveConflict t (targetPathOf folder file)
      /\ lookup (Path.resolve finalPath) t = None
      /\ rename (Path.resolve (p_path file)) (Path.resolve finalPath) t = Ok t'
      /\ ops' = ops ++ [ {| type := if p_needsMove file then Move else Rename;
                            from := p_path file; to := Some finalPath;
                            backupPath := None |} ].
Proof.
  unfold processFile.
  destruct (negb (str_eqb (targetPathOf folder file) (p_path file)));
    [|intros [= <- <-]; by left].
  destruct (rename _ _ t) as [t1|e] eqn:Hr; [|intros [= <- <-]; by left].
  intros [= <- <-]. right. eexists. split; [done|]. split; [|done].
  apply exists_false. apply resolveConflict_unused.
Qed.

(** A file that is not the one being moved keeps its place and bytes. *)
Lemma processFile_keeps t ops file t' ops' q data :
  processFile folder (t, ops) file = (t', ops') ->
  lookup q t = Some (File data) ->
  isPrefix (Path.resolve (p_path file)) q = false ->
  lookup q t' = Some (File data).
Proof.
  intros [[-> _]|(fp & _ & Hfp & Hr & _)]%processFile_cases Hq Hpre; [done|].
  destruct (rename_fresh _ _ _ _ Hfp Hr) as (n & Ha & _ & _ & ->).
  apply lookup_File_update.
  - apply absent_not_prefix with (t := update (Path.resolve (p_path file)) None t).
    + rewrite lookup_File_update with (data := data); [by eexists | done | done].
    + by apply lookup_None_remove.
  - by apply lookup_File_update.
Qed.

Lemma processFiles_keep files t ops q data :
  lookup q t = Some (File data) ->
  Forall (fun file => isPrefix (Path.resolve (p_path file)) q = false) files ->
  lookup q (fst (fold_left (processFile folder) files (t, ops))) = Some (File data).
Proof.
  revert t ops. induction files as [|file files IH]; intros t ops Hq Hf; [done|].
  apply Forall_cons in Hf as [Hfile Hf]. cbn [fold_left].
  destruct (processFile folder (t, ops) file) as [t' ops'] eqn:E.
  apply IH; [|done]. by eapply processFile_keeps.
Qed.
End StepFacts.

Section SameTarget.
Import FS.
Variable folder : jsstring.




End SameTarget.



(** ** Duplicates: copy, then remove *)

Section CopyFacts.
Import FS.
Implicit Types (src bk : path) (t : node).

Lemma copy_ok src bk t t1 :
  copyFile src bk t = Ok t1 ->
  exists data,
    lookup src t = Some (File data)
    /\ isDir (parent bk) t = true
    /\ kindOf (lookup bk t) <> KDir
    /\ t1 = update bk (Some (File data)) t.
Proof.
  unfold copyFile. destruct (lookup src t) as [[data|m]|] eqn:Hs; [|done..].
  destruct (checkParent bk t) eqn:Hcp; [done|]. apply checkParent_None in Hcp.
  destruct (lookup bk t) as [[d|m]|] eqn:Hb; [|done|]; intros [= <-];
    exists data; simpl; done.
Qed.

Lemma copy_target_nonempty src bk t t1 : copyFile src bk t = Ok t1 -> bk <> [].
Proof.
  intros (data & _ & Hp & Hk & _)%copy_ok ->. simpl in Hp, Hk.
  unfold isDir in Hp. simpl in Hp. by destruct t.
Qed.

(** After a successful copy the backup holds the bytes of the source. *)
Lemma copy_content src bk t t1 :
  copyFile src bk t = Ok t1 ->
  exists data,
    lookup src t = Some (File data) /\ lookup bk t1 = Some (File data).
Proof.
  intros H. pose proof (copy_target_nonempty _ _ _ _ H) as Hne.
  destruct (copy_ok _ _ _ _ H) as (data & Hs & Hp & _ & ->).
  exists data. split; [done|]. by apply lookup_update_eq.
Qed.

Lemma copy_keeps_source src bk t t1 :
  copyFile src bk t = Ok t1 -> exists data, lookup src t1 = Some (File data).
Proof.
  intros H. pose proof (copy_target_nonempty _ _ _ _ H) as Hne.
  destruct (copy_ok _ _ _ _ H) as (data & Hs & Hp & Hk & ->).
  destruct (decide (bk = src)) as [->|Hbs].
  - exists data. by apply lookup_update_eq.
  - exists data. apply lookup_File_update; [|done].
    destruct (isPrefix bk src) eqn:E; [|done]. exfalso. apply Hk.
    pose proof (lookup_prefix_dir src bk t ltac:(by eexists) E Hbs) as Hd.
    unfold isDir in Hd. by destruct (lookup bk t) as [[]|].
Qed.

Lemma unlink_after_copy src bk t t1 :
  copyFile src bk t = Ok t1 -> exists t2, unlink src t1 = Ok t2.
Proof.
  intros [data Hd]%copy_keeps_source. unfold unlink. rewrite Hd. eauto.
Qed.

End CopyFacts.

Section DuplicateSteps.
Variable Date_now : nat -> Z.
Variable backupDir : jsstring.

Lemma processDuplicate_cases t ops tick dup :
  let src := Path.resolve dup in
  let bk := Path.resolve (backupPathOf Date_now backupDir dup tick) in
  (exists e,
      FS.copyFile src bk t = FS.Err e
      /\ processDuplicate Date_now backupDir (t, ops, tick) dup = (t, ops, S tick))
  \/ (exists t1 t2 data,
         FS.copyFile src bk t = FS.Ok t1
         /\ FS.lookup src t = Some (FS.File data)
         /\ FS.lookup bk t1 = Some (FS.File data)
         /\ FS.unlink src t1 = FS.Ok t2
         /\ processDuplicate Date_now backupDir (t, ops, tick) dup
            = (t2, ops ++ [deleteOp Date_now backupDir dup tick], S tick)).
Proof.
  intros src bk. unfold processDuplicate. fold src bk.
  destruct (FS.copyFile src bk t) as [t1|e] eqn:Hc; [|left; eauto].
  right. destruct (copy_content _ _ _ _ Hc) as (data & Hs & Hb).
  destruct (unlink_after_copy _ _ _ _ Hc) as [t2 Hu].
  exists t1, t2, data. by rewrite Hu.
Qed.

Lemma processDuplicates_ops dups t ops tick :
  exists t' new,
    fold_left (processDuplicate Date_now backupDir) dups (t, ops, tick)
    = (t', ops ++ new, (tick + length dups)%nat)
    /\ Forall (fun op => type op = Delete /\ from op ∈ dups) new
    /\ (length new <= length dups)%nat.
Proof.
  revert t ops tick. induction dups as [|d dups IH]; intros t ops tick.
  - exists t, []. rewrite List.app_nil_r, Nat.add_0_r. done.
  - cbn [fold_left].
    destruct (processDuplicate_cases t ops tick d)
      as [(e & _ & ->)|(t1 & t2 & data & _ & _ & _ & _ & ->)].
    + destruct (IH t ops (S tick)) as (t' & new & -> & Hf & Hl).
      exists t', new. split; [f_equal; simpl; lia|]. split; [|simpl; lia].
      eapply Forall_impl; [exact Hf|]. intros op [? ?]. split; [done | by right].
    + destruct (IH t2 (ops ++ [deleteOp Date_now backupDir d tick]) (S tick)) as (t' & new & -> & Hf & Hl).
      exists t', (deleteOp Date_now backupDir d tick :: new).
      split; [rewrite <- List.app_assoc; f_equal; simpl; lia|].
      split; [|simpl; lia]. constructor; [split; [done | left]|].
      eapply Forall_impl; [exact Hf|]. intros op [? ?]. split; [done | by right].
Qed.
End DuplicateSteps.



(** ** The run as a whole *)

Section Counting.
Lemma countType_app ty (a b : list Operation) :
  countType ty (a ++ b) = (countType ty a + countType ty b)%nat.
Proof. unfold countType. by rewrite List.filter_app, length_app. Qed.


Lemma countType_none ty (l : list Operation) :
  Forall (fun op => type op <> ty) l -> countType ty l = 0%nat.
Proof.
  unfold countType. induction 1 as [|op l Hop _ IH]; [done|]. simpl.
  by rewrite bool_decide_eq_false_2.
Qed.

Lemma countType_files (l : list Operation) :
  Forall (fun op => type op = Move \/ type op = Rename) l ->
  (countType Move l + countType Rename l = length l)%nat
  /\ countType Delete l = 0%nat /\ countType Mkdir l = 0%nat.
Proof.
  unfold countType. induction 1 as [|op l Hop _ (IH1 & IH2 & IH3)]; [done|]. simpl.
  destruct Hop as [-> | ->]; simpl; repeat split; lia.
Qed.

Lemma countType_only ty (l : list Operation) :
  Forall (fun op => type op = ty) l -> countType ty l = length l.
Proof.
  unfold countType. induction 1 as [|op l Hop _ IH]; [done|]. simpl.
  rewrite bool_decide_eq_true_2 by done. simpl. by rewrite IH.
Qed.
End Counting.

Section Phases.
Variable tempDir : jsstring.
Variable Date_now : nat -> Z.
Variable folder : jsstring.

Lemma createCategories_ops cats t created ops t' created' ops' err :
  createCategories folder cats (t, created, ops) = (t', created', ops', err) ->
  exists new, ops' = ops ++ new /\ Forall (fun op => type op = Mkdir) new.
Proof.
  revert t created ops. induction cats as [|c cats IH]; intros t created ops; simpl.
  - intros [= <- <- <- <-]. exists []. by rewrite List.app_nil_r.
  - destruct (negb (FS.existsSync _ t)); [|apply IH].
    destruct (FS.mkdirp _ t) as [t1|e].
    + intros (new & -> & Hf)%IH. eexists (_ :: new).
      rewrite <- List.app_assoc. split; [done|]. by constructor.
    + intros [= <- <- <- <-]. exists []. by rewrite List.app_nil_r.
Qed.



End Phases.



(** ** Undoing a run *)

Section Undoing.
Import FS.

Lemma restoredCount_app a b :
  restoredCount (a ++ b) = (restoredCount a + restoredCount b)%nat.
Proof. unfold restoredCount. rewrite !countType_app. lia. Qed.

Lemma undoes_nil t : undoes [] t t.
Proof. intros n. simpl. f_equal. unfold restoredCount, countType. simpl. lia. Qed.

Lemma undoes_app a b t0 t1 t2 :
  undoes a t0 t1 -> undoes b t1 t2 -> undoes (a ++ b) t0 t2.
Proof.
  intros Ha Hb n. rewrite rev_app_distr, fold_left_app, Hb, Ha.
  f_equal. rewrite restoredCount_app. lia.
Qed.

Lemma resolve_empty : Path.resolve [] = [].
Proof. reflexivity. Qed.

Lemma absent_string s t : lookup (Path.resolve s) t = None -> exists c r, s = c :: r.
Proof. destruct s as [|c r]; [done | eauto]. Qed.

(** One entry of each kind. *)
Lemma undoes_mkdir s t :
  lookup (Path.resolve s) t = None ->
  isDir (parent (Path.resolve s)) t = true ->
  undoes [ {| type := Mkdir; from := s; to := None; backupPath := None |} ]
    t (update (Path.resolve s) (Some (Dir ∅)) t).
Proof.
  intros Hl Hd n. simpl. rewrite rmdir_inverse by done.
  f_equal. unfold restoredCount, countType. simpl. lia.
Qed.

Lemma undoes_rename (move : bool) a b t t' :
  lookup (Path.resolve b) t = None ->
  rename (Path.resolve a) (Path.resolve b) t = Ok t' ->
  undoes [ {| type := if move then Move else Rename; from := a; to := Some b;
              backupPath := None |} ] t t'.
Proof.
  intros Hl Hr n. destruct (absent_string _ _ Hl) as (c & r & ->).
  pose proof (rename_inverse _ _ _ _ Hl Hr) as Hinv.
  unfold restoredCount, countType.
  destruct move; simpl; rewrite Hinv; f_equal; lia.
Qed.

Lemma undoes_delete d bk t t1 t2 :
  lookup (Path.resolve bk) t = None ->
  copyFile (Path.resolve d) (Path.resolve bk) t = Ok t1 ->
  unlink (Path.resolve d) t1 = Ok t2 ->
  undoes [ {| type := Delete; from := d; to := None; backupPath := Some bk |} ] t t2.
Proof.
  intros Hl Hc Hu n. destruct (absent_string _ _ Hl) as (c & r & ->).
  destruct (delete_inverse _ _ _ _ _ Hl Hc Hu) as (t3 & Hc' & Hu').
  unfold restoredCount, countType. simpl. rewrite Hc', Hu'. f_equal. lia.
Qed.
End Undoing.

Section UndoPhases.
Import FS.
Variable Date_now : nat -> Z.
Variable folder backupDir : jsstring.

Lemma categories_undone cats t created ops t' created' ops' :
  directCategories folder cats t ->
  createCategories folder cats (t, created, ops) = (t', created', ops', None) ->
  exists new, ops' = ops ++ new /\ undoes new t t'.
Proof.
  revert t created ops. induction cats as [|c cats IH]; intros t created ops; simpl.
  - intros _ [= <- <- <-]. exists []. rewrite List.app_nil_r.
    split; [done | apply undoes_nil].
  - unfold existsSync.
    destruct (exists_ (Path.resolve (Path.join [folder; c])) t) eqn:Hex; simpl.
    + apply IH.
    + intros [Hd Hrest]. apply exists_false in Hex.
      rewrite mkdirp_direct by done.
      intros (new & -> & Hu)%IH; [|done].
      eexists (_ :: new). rewrite <- List.app_assoc. split; [done|].
      change (?x :: new) with ([x] ++ new).
      eapply undoes_app; [|exact Hu]. by apply undoes_mkdir.
Qed.

Lemma files_undone files t ops :
  exists t' new,
    fold_left (processFile folder) files (t, ops) = (t', ops ++ new)
    /\ undoes new t t'.
Proof.
  revert t ops. induction files as [|file files IH]; intros t ops.
  - exists t, []. rewrite List.app_nil_r. split; [done | apply undoes_nil].
  - cbn [fold_left].
    destruct (processFile folder (t, ops) file) as [t1 ops1] eqn:E.
    apply processFile_cases in E as [[-> ->]|(fp & _ & Hl & Hr & ->)].
    + apply IH.
    + destruct (IH t1 (ops ++ [ {| type := if p_needsMove file then Move else Rename;
                                   from := p_path file; to := Some fp;
                                   backupPath := None |} ]))
        as (t' & new & -> & Hu).
      eexists t', (_ :: new). rewrite <- List.app_assoc. split; [done|].
      change (?x :: new) with ([x] ++ new).
      eapply undoes_app; [|exact Hu]. by eapply undoes_rename.
Qed.

Lemma duplicates_undone dups t ops tick :
  freshBackups Date_now backupDir dups (t, ops, tick) ->
  exists t' new,
    fold_left (processDuplicate Date_now backupDir) dups (t, ops, tick)
    = (t', ops ++ new, (tick + length dups)%nat)
    /\ undoes new t t'.
Proof.
  revert t ops tick. induction dups as [|d dups IH]; intros t ops tick.
  - intros _. exists t, []. rewrite List.app_nil_r, Nat.add_0_r.
    split; [done | apply undoes_nil].
  - cbn [fold_left freshBackups fst snd]. intros [Hfresh Hrest].
    apply exists_false in Hfresh.
    replace (tick + length (d :: dups))%nat with (S tick + length dups)%nat
      by (simpl; lia).
    destruct (processDuplicate_cases Date_now backupDir t ops tick d)
      as [(e & _ & E)|(t1 & t2 & data & Hc & _ & _ & Hu & E)];
      rewrite E in Hrest |- *.
    + by apply IH.
    + destruct (IH _ _ _ Hrest) as (t' & new & -> & Hun).
      eexists t', (_ :: new). rewrite <- List.app_assoc. split; [done|].
      change (?x :: new) with ([x] ++ new).
      eapply undoes_app; [|exact Hun]. by eapply undoes_delete.
Qed.
End UndoPhases.

Section BackupDirectory.
Import FS.

Lemma mkdirp_existing p t : isDir p t = true -> mkdirp p t = Ok t.
Proof.
  unfold isDir. revert t. induction p as [|x p IH]; intros t.
  - destruct t; [done|]. done.
  - destruct t as [|m]; [done|]. rewrite lookup_step, mkdirp_cons.
    destruct (m !! x) as [c|] eqn:Hx; [|done]. intros Hc.
    change (default (Dir ∅) (Some c)) with c. rewrite (IH c Hc).
    by rewrite insert_id.
Qed.
End BackupDirectory.

Lemma fold_right_backwards {A B} (f : B -> A -> B) (l : list A) (i : B) :
  fold_right (fun x y => f y x) i l = fold_left f (rev l) i.
Proof.
  rewrite <- (rev_involutive l) at 1. rewrite fold_left_rev_right. reflexivity.
Qed.

(** C1, as the code has it: a successful run followed at once by undo
    replays the pushed log from its last entry to its first, counts every
    move, rename and duplicate removal as restored, pops the log, and
    leaves the tree exactly as it was right after the run had made its
    backup directory: every moved, renamed or removed file is back at its
    path with its bytes and every logged category directory is gone.  This
    holds when each category directory that had to be made lies directly
    inside a directory existing at that moment and each backup name is
    unused when it is drawn.  The backup directory itself is in no log
    entry and stays; the tree is the one before the run only when that
    directory existed already. *)
Theorem undo_round_trip :
  forall tempDir Date_now plan w t0 t1 created ops1 t2 ops2,
    let backupDir := backupDirAt tempDir Date_now (ticks w) in
    FS.mkdirp (Path.resolve backupDir) (disk w) = FS.Ok t0 ->
    createCategories (folderPath plan) (categories plan) (t0, [], [])
    = (t1, created, ops1, None) ->
    fold_left (processFile (folderPath plan)) (plan_files plan) (t1, ops1)
    = (t2, ops2) ->
    directCategories (folderPath plan) (categories plan) t0 ->
    freshBackups Date_now backupDir (duplicatesToDelete plan)
      (t2, ops2, S (ticks w)) ->
    (exists ops stamp t3 k,
        executeOrganize tempDir Date_now plan w
        = (ExecSuccess (countType Move ops) (countType Rename ops)
             (countType Delete ops) (length created),
           {| disk := t3;
              undoStack := undoStack w ++ [ {| timestamp := stamp; operations := ops |} ];
              ticks := k |})
        /\ undoOrganize (snd (executeOrganize tempDir Date_now plan w))
           = (UndoSuccess (countType Move ops + countType Rename ops
                           + countType Delete ops),
              {| disk := t0; undoStack := undoStack w; ticks := k |})
        /\ fold_right (fun op st => undoOperation st op) (t3, 0%nat) ops
           = (t0, restoredCount ops))
    /\ (FS.isDir (Path.resolve backupDir) (disk w) = true -> t0 = disk w).
Proof.
  intros tempDir Date_now plan w t0 t1 created ops1 t2 ops2 backupDir
    Hb Hc Hf Hdirect Hfresh.
  split; [|intros Hd; rewrite mkdirp_existing in Hb by done; congruence].
  destruct (categories_undone _ _ _ _ _ _ _ _ Hdirect Hc) as (new1 & E1 & Hu1).
  simpl in E1. subst ops1.
  destruct (files_undone (folderPath plan) (plan_files plan) t1 new1)
    as (t2' & new2 & Hf' & Hu2).
  rewrite Hf in Hf'. injection Hf' as <- ->.
  destruct (duplicates_undone Date_now backupDir _ _ _ _ Hfresh)
    as (t3 & new3 & Hd & Hu3).
  pose proof (undoes_app _ _ _ _ _ (undoes_app _ _ _ _ _ Hu1 Hu2) Hu3) as Hall.
  assert (Hrun : executeOrganize tempDir Date_now plan w
                 = (ExecSuccess (countType Move ((new1 ++ new2) ++ new3))
                      (countType Rename ((new1 ++ new2) ++ new3))
                      (countType Delete ((new1 ++ new2) ++ new3)) (length created),
                    {| disk := t3;
                       undoStack := undoStack w ++
                         [ {| timestamp :=
                                Date_now (S (ticks w)
                                          + length (duplicatesToDelete plan))%nat;
                              operations := (new1 ++ new2) ++ new3 |} ];
                       ticks := S (S (ticks w) + length (duplicatesToDelete plan)) |})).
  { unfold executeOrganize. fold backupDir. by rewrite Hb, Hc, Hf, Hd. }
  eexists _, _, _, _. split; [exact Hrun|]. split.
  - rewrite Hrun. unfold undoOrganize. cbn [snd undoStack disk ticks operations].
    rewrite rev_unit, Hall, rev_involutive. done.
  - rewrite fold_right_backwards. rewrite <- (Nat.add_0_l (restoredCount _)). apply Hall.
Qed.

Lemma undo_round_trip_witness :
  (exists ops stamp t3 k,
      executeOrganize (js "/tmp") exampleClock examplePlan exampleWorld
      = (ExecSuccess (countType Move ops) (countType Rename ops)
           (countType Delete ops) 1,
         {| disk := t3;
            undoStack := [ {| timestamp := stamp; operations := ops |} ];
            ticks := k |})
      /\ undoOrganize (snd (executeOrganize (js "/tmp") exampleClock examplePlan
                              exampleWorld))
         = (UndoSuccess (countType Move ops + countType Rename ops
                         + countType Delete ops),
            {| disk := exampleBackedUp; undoStack := []; ticks := k |})
      /\ fold_right (fun op st => undoOperation st op) (t3, 0%nat) ops
         = (exampleBackedUp, restoredCount ops))
  /\ (FS.isDir (Path.resolve (backupDirAt (js "/tmp") exampleClock 0)) exampleTree
      = true -> exampleBackedUp = exampleTree).
Proof.
  eapply (undo_round_trip (js "/tmp") exampleClock examplePlan exampleWorld
            exampleBackedUp _ [js "/d/pics"]).
  - vm_compute. reflexivity.
  - vm_compute. reflexivity.
  - vm_compute. reflexivity.
  - vm_compute. split; [reflexivity | exact I].
  - vm_compute. split; [reflexivity | exact I].
Defined.

(** C1 as the specification words it does not hold: the run makes its
    backup directory, undo never removes it, and of a category two levels
    down only the lower directory is removed. *)
Lemma undo_leaves_directories :
  let run := executeOrganize (js "/tmp") exampleClock examplePlan exampleWorld in
  let back := undoOrganize (snd run) in
  let nested := executeOrganize (js "/tmp") exampleClock nestedPlan exampleWorld in
  let nestedBack := undoOrganize (snd nested) in
  fst run = ExecSuccess 2 0 1 1
  /\ fst back = UndoSuccess 3
  /\ FS.existsSync (js "/tmp/zhili-backup-1700000000000") (disk exampleWorld) = false
  /\ FS.existsSync (js "/tmp/zhili-backup-1700000000000") (disk (snd run)) = true
  /\ FS.existsSync (js "/tmp/zhili-backup-1700000000000") (disk (snd back)) = true
  /\ disk (snd back) <> disk exampleWorld
  /\ fst nested = ExecSuccess 0 0 0 1
  /\ fst nestedBack = UndoSuccess 0
  /\ FS.existsSync (js "/d/a") (disk exampleWorld) = false
  /\ FS.existsSync (js "/d/a/b") (disk (snd nested)) = true
  /\ FS.existsSync (js "/d/a/b") (disk (snd nestedBack)) = false
  /\ FS.existsSync (js "/d/a") (disk (snd nestedBack)) = true.
Proof.
  intros run back nested nestedBack.
  assert (H1 : FS.existsSync (js "/tmp/zhili-backup-1700000000000")
                 (disk exampleWorld) = false) by (vm_compute; reflexivity).
  assert (H2 : FS.existsSync (js "/tmp/zhili-backup-1700000000000")
                 (disk (snd back)) = true) by (vm_compute; reflexivity).
  repeat split; try (vm_compute; reflexivity); try assumption.
  intros E. rewrite E in H2. congruence.
Qed.

(** * Further properties of [electron/main.ts] *)

(** ** Cleaned names *)

Section CleanNames.

Lemma keptChar_cases c :
  keptChar c = true ->
  19968 <= c <= 40869 \/ 97 <= c <= 122 \/ 65 <= c <= 90 \/ 48 <= c <= 57
  \/ c = 45 \/ c = 95.
Proof.
  unfold keptChar, class_mem. rewrite orb_false_r. cbn [existsb item_mem].
  rewrite !orb_true_iff, !andb_true_iff, !N.leb_le, !N.eqb_eq. intros H. lia.
Qed.

Lemma keptChar_not_space c : keptChar c = true -> is_space c = false.
Proof.
  intros H%keptChar_cases. unfold is_space.
  rewrite !orb_false_iff, !andb_false_iff, !N.leb_gt, !N.eqb_neq. lia.
Qed.

Lemma trimStart_head c s : is_space c = false -> trimStart (c :: s) = c :: s.
Proof. intros H. simpl. by rewrite H. Qed.

Lemma trimStart_no_space s :
  Forall (fun c => is_space c = false) s -> trimStart s = s.
Proof. destruct 1; [done | by apply trimStart_head]. Qed.

Lemma trim_no_space s : Forall (fun c => is_space c = false) s -> trim s = s.
Proof.
  intros H. unfold trim. rewrite (trimStart_no_space s H).
  rewrite trimStart_no_space; [apply rev_involutive|].
  apply Forall_forall. intros c Hc. rewrite Forall_forall in H. apply H.
  apply list_elem_of_In. apply list_elem_of_In in Hc. by apply in_rev.
Qed.

Lemma filter_keptChar s : Forall (fun c => keptChar c = true) (List.filter keptChar s).
Proof.
  apply Forall_forall. intros c Hc%list_elem_of_In. by apply filter_In in Hc as [_ Hc].
Qed.

Lemma cleanFileName_cut fileName :
  exists cut,
    cleanFileName fileName = cut
    /\ (length cut <= 30)%nat /\ Forall (fun c => keptChar c = true) cut
    /\ trim cut = cut.
Proof.
  assert (Hshape : exists raw,
             cleanFileName fileName
             = trim (if (30 <? length (List.filter keptChar raw))%nat
                     then take 30 (List.filter keptChar raw)
                     else List.filter keptChar raw)).
  { unfold cleanFileName. eauto. }
  destruct Hshape as (raw & Hname).
  set (cut := if (30 <? length (List.filter keptChar raw))%nat
              then take 30 (List.filter keptChar raw)
              else List.filter keptChar raw) in Hname.
  assert (Hkept : Forall (fun c => keptChar c = true) cut).
  { subst cut. destruct (30 <? _)%nat; [apply Forall_take|]; apply filter_keptChar. }
  assert (Hlen : (length cut <= 30)%nat).
  { subst cut. destruct (Nat.ltb_spec 30 (length (List.filter keptChar raw))).
    - rewrite length_take. lia.
    - lia. }
  assert (Htrim : trim cut = cut).
  { apply trim_no_space. eapply Forall_impl; [exact Hkept|].
    intros c. apply keptChar_not_space. }
  exists cut. by rewrite Hname, Htrim.
Qed.

End CleanNames.

(** X1: The cleaned name has at most 30 code units, each of them a CJK
    ideograph of U+4E00..U+9FA5, a Basic Latin letter or digit, a hyphen
    or an underscore: no separator, no dot, no white space, so that the
    final [trim] removes nothing. *)
Theorem cleanFileName_safe :
  forall fileName,
    let name := cleanFileName fileName in
    (length name <= 30)%nat
    /\ Forall (fun c => keptChar c = true) name
    /\ Forall (fun c => c <> Path.SLASH /\ c <> Path.DOT /\ is_space c = false) name
    /\ trim name = name.
Proof.
  intros fileName name. subst name.
  destruct (cleanFileName_cut fileName) as (cut & -> & Hlen & Hkept & Htrim).
  split; [done|]. split; [done|]. split; [|done].
  eapply Forall_impl; [exact Hkept|]. intros c Hc.
  pose proof (keptChar_not_space c Hc). apply keptChar_cases in Hc.
  unfold Path.SLASH, Path.DOT. repeat split; [lia | lia | done].
Qed.

(** ** The range of the classifier *)

Section ClassifierRange.

Lemma firstRule_category rules lowerName c :
  firstRule rules lowerName = Some c -> c ∈ List.map category rules.
Proof.
  induction rules as [|r rules IH]; [done|]. simpl.
  destruct (ruleMatches lowerName r).
  - intros [= <-]. left.
  - intros H. right. by apply IH.
Qed.

Lemma arr_includes_elem (l : list jsstring) x : arr_includes l x = true <-> x ∈ l.
Proof.
  unfold arr_includes, str_eqb. rewrite existsb_exists. split.
  - intros (y & Hy%list_elem_of_In & ->%bool_decide_eq_true). done.
  - intros Hx. exists x. split; [by apply list_elem_of_In | by apply bool_decide_eq_true].
Qed.

Lemma all_included (small big : list jsstring) c :
  forallb (arr_includes big) small = true -> c ∈ small -> c ∈ big.
Proof.
  rewrite forallb_forall. intros H Hc%list_elem_of_In. by apply arr_includes_elem, H.
Qed.

Lemma extCategoryMap_range ext c :
  extCategoryMap !! ext = Some c -> c ∈ fileCategories.
Proof.
  intros H. apply elem_of_list_to_map_2 in H.
  match type of H with
  | _ ∈ ?L =>
    apply (all_included (List.map snd L) fileCategories c); [vm_compute; reflexivity|]
  end.
  apply list_elem_of_In, in_map_iff. exists (ext, c). by rewrite <- list_elem_of_In.
Qed.

Lemma classifyFile_file fileName :
  classifyFile fileName false false ∈ fileCategories.
Proof.
  unfold classifyFile.
  destruct (isShortcutOrLink fileName); [by apply arr_includes_elem; vm_compute|].
  destruct (firstRule keywordRules _) as [c|] eqn:Hr.
  - apply firstRule_category in Hr.
    by apply (all_included _ fileCategories c) in Hr.
  - match goal with |- (if ?b then _ else _) ∈ _ => destruct b end;
      [by apply arr_includes_elem; vm_compute|].
    destruct (extCategoryMap !! _) as [c|] eqn:He; simpl.
    + by eapply extCategoryMap_range.
    + by apply arr_includes_elem; vm_compute.
Qed.

Lemma classifyFile_directory fileName :
  classifyFile fileName true false ∈ folderCategories.
Proof.
  unfold classifyFile.
  destruct (existsb _ codeProjectFolders); [by apply arr_includes_elem; vm_compute|].
  destruct (firstRule folderKeywordRules _) as [c|] eqn:Hr.
  - apply firstRule_category in Hr.
    by apply (all_included _ folderCategories c) in Hr.
  - by apply arr_includes_elem; vm_compute.
Qed.

Lemma classifyFile_symlink fileName isDirectory :
  classifyFile fileName isDirectory true = Shortcut.
Proof. reflexivity. Qed.

Lemma classifyOf_Other_file file :
  classifyOf file = Other ->
  isTrue (f_isDirectory file) = false /\ isTrue (f_isSymlink file) = false.
Proof.
  unfold classifyOf.
  destruct (isTrue (f_isSymlink file)); [rewrite classifyFile_symlink; by vm_compute|].
  destruct (isTrue (f_isDirectory file)); [|done].
  intros H. pose proof (classifyFile_directory (f_name file)) as Hin. rewrite H in Hin.
  apply arr_includes_elem in Hin. by vm_compute in Hin.
Qed.

Lemma classifyOf_nonempty file : classifyOf file <> [].
Proof.
  unfold classifyOf. intros H.
  destruct (isTrue (f_isSymlink file)); [by vm_compute in H|].
  destruct (isTrue (f_isDirectory file)).
  - pose proof (classifyFile_directory (f_name file)) as Hin. rewrite H in Hin.
    apply arr_includes_elem in Hin. by vm_compute in Hin.
  - pose proof (classifyFile_file (f_name file)) as Hin. rewrite H in Hin.
    apply arr_includes_elem in Hin. by vm_compute in Hin.
Qed.

End ClassifierRange.

(** X2: [classifyFile] answers with one of a closed set of labels: 快捷方式 for
    every symbolic link; for a directory one of the nine folder labels,
    never 其他 or 快捷方式; for a regular file one of the thirteen file
    labels, never 文件夹, 下载 or 备份. *)
Theorem classifyFile_range :
  forall fileName isDirectory isSymlink,
    classifyFile fileName isDirectory isSymlink
    ∈ (if isSymlink then [Shortcut]
       else if isDirectory then folderCategories else fileCategories)
    /\ (isSymlink = false -> isDirectory = true ->
        classifyFile fileName isDirectory isSymlink <> Other
        /\ classifyFile fileName isDirectory isSymlink <> Shortcut)
    /\ (isSymlink = false -> isDirectory = false ->
        classifyFile fileName isDirectory isSymlink <> Folder
        /\ classifyFile fileName isDirectory isSymlink <> Download
        /\ classifyFile fileName isDirectory isSymlink <> Backup).
Proof.
  intros fileName isDirectory isSymlink. split; [|split].
  - destruct isSymlink; [rewrite classifyFile_symlink; left|].
    destruct isDirectory; [apply classifyFile_directory | apply classifyFile_file].
  - intros -> ->. pose proof (classifyFile_directory fileName) as Hin.
    split; intros H; rewrite H in Hin; apply arr_includes_elem in Hin;
      by vm_compute in Hin.
  - intros -> ->. pose proof (classifyFile_file fileName) as Hin.
    repeat split; intros H; rewrite H in Hin; apply arr_includes_elem in Hin;
      by vm_compute in Hin.
Qed.

Lemma classifyFile_range_witness :
  classifyFile (js "src") true false <> Other
  /\ classifyFile (js "src") true false <> Shortcut.
Proof.
  apply (proj1 (proj2 (classifyFile_range (js "src") true false))); reflexivity.
Defined.

(** ** What the tool's answer can change *)

Section OracleMerge.

Lemma findIndex_go {A} (f : A -> bool) (l : list A) k i :
  (fix go (l : list A) (i : nat) : option nat :=
     match l with
     | [] => None
     | x :: r => if f x then Some i else go r (S i)
     end) l k = Some i ->
  (k <= i)%nat /\ exists x, l !! (i - k)%nat = Some x /\ f x = true.
Proof.
  revert k. induction l as [|x l IH]; intros k; [done|].
  destruct (f x) eqn:Hx.
  - intros [= <-]. split; [lia|]. exists x. by rewrite Nat.sub_diag.
  - intros H. apply IH in H as (Hle & y & Hy & Hfy). split; [lia|].
    exists y. split; [|done].
    replace (i - k)%nat with (S (i - S k)) by lia. done.
Qed.

Lemma findIndex_Some {A} (f : A -> bool) (l : list A) i :
  findIndex f l = Some i -> exists x, l !! i = Some x /\ f x = true.
Proof.
  intros H. apply findIndex_go in H as (_ & x & Hx & Hf).
  rewrite Nat.sub_0_r in Hx. eauto.
Qed.

Lemma mergeOracle_merged all answers rs0 rs cc :
  (forall a, a ∈ answers -> a ∈ all) ->
  Forall2 (mergedFrom all) rs0 rs ->
  Forall2 (mergedFrom all) rs0 (fst (mergeOracle answers (rs, cc))).
Proof.
  revert rs cc. induction answers as [|[a|] answers IH]; intros rs cc Hall Hrs;
    simpl; [done| |done].
  assert (Hrest : forall a', a' ∈ answers -> a' ∈ all)
    by (intros a' Ha'; apply Hall; by right).
  destruct (findIndex _ rs) as [idx|] eqn:Hidx; [|by apply IH].
  destruct (negb (str_eqb (ai_category a) Other)) eqn:Hcat; [|by apply IH].
  apply IH; [done|].
  apply findIndex_Some in Hidx as (x & Hx & [Hname Hother]%andb_true_iff).
  apply bool_decide_eq_true in Hname, Hother.
  apply negb_true_iff, bool_decide_eq_false in Hcat.
  apply Forall2_same_length_lookup_2.
  { rewrite length_alter. by eapply Forall2_length. }
  intros i y0 y Hy0 Hy.
  destruct (decide (idx = i)) as [->|Hne].
  - rewrite list_lookup_alter_eq, Hx in Hy. injection Hy as <-.
    destruct (Forall2_lookup_lr _ _ _ _ _ _ Hrs Hy0 Hx) as [->|(_ & a' & _ & Hne' & _ & ->)].
    + right. split; [done|]. exists a. split; [apply Hall; left|]. by repeat split.
    + by simpl in Hother.
  - rewrite list_lookup_alter_ne in Hy by done.
    by apply (Forall2_lookup_lr _ _ _ _ _ _ Hrs Hy0 Hy).
Qed.

Lemma mergedFrom_refl all rs : Forall2 (mergedFrom all) rs rs.
Proof. apply Forall_Forall2_diag, Forall_forall. intros r _. by left. Qed.

Lemma filter_map_comm {A B} (g : A -> B) (p : B -> bool) (l : list A) :
  List.filter p (List.map g l) = List.map g (List.filter (fun x => p (g x)) l).
Proof.
  induction l as [|x l IH]; [done|]. simpl. destruct (p (g x)); simpl; by rewrite IH.
Qed.

Variable Date_parse : jsstring -> JsDate.
Variable currentUser : jsstring.
Variable now : civil.

(** The handler, with its two passes spelled out. *)
Lemma analyzeFiles_unfold avail oracle files :
  exists cc,
    let needing := foldersNeeded cc in
    let rs := List.map (fun f => advise Date_parse currentUser now needing
                                   (f, classifyOf f)) files in
    let n := length (unclassified files) in
    analyzeFiles Date_parse currentUser now avail oracle files
    = {| results :=
           if avail && (0 <? n)%nat && (n <=? 30)%nat then
             match oracle (List.map f_name (unclassified files)) with
             | Some answers => fst (mergeOracle answers (rs, cc))
             | None => rs
             end
           else rs;
         usedAI := avail;
         categoriesNeedingFolders := needing |}
    /\ firstPass files = (List.map (fun f => (f, classifyOf f)) files, cc).
Proof.
  destruct (firstPass_spec files) as (cc & Hfp & _ & _). exists cc.
  split; [|done]. unfold analyzeFiles. rewrite Hfp. cbv zeta.
  rewrite List.map_map.
  assert (Hf : List.filter
                 (fun '(file, category) =>
                    negb (truthy (f_isDirectory file)) && str_eqb category Other)
                 (List.map (fun f => (f, classifyOf f)) files)
               = List.map (fun f => (f, classifyOf f)) (unclassified files)).
  { by rewrite filter_map_comm. }
  rewrite Hf, List.map_map, length_map. done.
Qed.

End OracleMerge.

(** X3: The tool's answer can only reclassify entries that the rules left in
    其他, and only to another label: every result is the rule-based one, or
    the rule-based one of category 其他 with the category and reason of an
    answer for its base name and confidence 0.9.  The list of folders to
    create is the rule-based one.  The tool is not asked, and the output is
    the rule-based one, when it is unavailable or when no entry or more
    than 30 entries are unclassified. *)
Theorem oracle_merge_scope :
  forall Date_parse currentUser now isOpencodeAvailable oracle files,
    let out :=
      analyzeFiles Date_parse currentUser now isOpencodeAvailable oracle files in
    let rules :=
      analyzeFiles Date_parse currentUser now isOpencodeAvailable silent files in
    results rules
    = List.map (fun f => advise Date_parse currentUser now
                           (categoriesNeedingFolders rules) (f, classifyOf f)) files
    /\ categoriesNeedingFolders out = categoriesNeedingFolders rules
    /\ usedAI out = isOpencodeAvailable
    /\ (isOpencodeAvailable = false \/ unclassified files = []
        \/ (30 < length (unclassified files))%nat -> out = rules)
    /\ (oracle (List.map f_name (unclassified files)) = None -> out = rules)
    /\ (forall answers,
           oracle (List.map f_name (unclassified files)) = Some answers ->
           Forall2 (mergedFrom answers) (results rules) (results out))
    /\ (forall i file r,
           files !! i = Some file ->
           results out !! i = Some r ->
           classifyOf file <> Other ->
           r = advise Date_parse currentUser now (categoriesNeedingFolders rules)
                 (file, classifyOf file)).
Proof.
  intros Date_parse currentUser now avail oracle files out rules.
  destruct (analyzeFiles_unfold Date_parse currentUser now avail oracle files)
    as (cc & Hout & Hfp).
  destruct (analyzeFiles_unfold Date_parse currentUser now avail silent files)
    as (cc' & Hrules & Hfp').
  rewrite Hfp in Hfp'. injection Hfp' as <-.
  fold out in Hout. fold rules in Hrules. cbv zeta in Hout, Hrules.
  set (rs := List.map _ files) in Hout, Hrules.
  set (n := length (unclassified files)) in Hout, Hrules.
  assert (Hrules' : rules = {| results := rs; usedAI := avail;
                               categoriesNeedingFolders := foldersNeeded cc |}).
  { rewrite Hrules. unfold silent. by destruct (avail && _ && _). }
  assert (Hmerged : forall answers,
             oracle (List.map f_name (unclassified files)) = Some answers ->
             Forall2 (mergedFrom answers) rs (results out)).
  { intros answers Ho. rewrite Hout. cbn [results]. rewrite Ho.
    destruct (avail && _ && _); [|apply mergedFrom_refl].
    apply mergeOracle_merged; [done | apply mergedFrom_refl]. }
  rewrite Hrules'. cbn [results categoriesNeedingFolders usedAI].
  split; [done|]. split; [by rewrite Hout|]. split; [by rewrite Hout|].
  split; [|split; [|split]].
  - intros Hcase. rewrite Hout.
    assert (avail && (0 <? n)%nat && (n <=? 30)%nat = false) as ->; [|done].
    destruct Hcase as [->|[Hnil|Hmany]]; [done| |].
    + subst n. rewrite Hnil. simpl. by destruct avail.
    + apply andb_false_iff. right. apply Nat.leb_gt. done.
  - intros Ho. rewrite Hout, Ho. by destruct (avail && _ && _).
  - done.
  - intros i file r Hfile Hr Hcat.
    assert (Hr0 : rs !! i
                  = Some (advise Date_parse currentUser now (foldersNeeded cc)
                            (file, classifyOf file))).
    { subst rs. change (List.map ?f ?l) with (f <$> l).
      by rewrite list_lookup_fmap, Hfile. }
    destruct (oracle (List.map f_name (unclassified files))) as [answers|] eqn:Ho.
    + destruct (Forall2_lookup_lr _ _ _ _ _ _ (Hmerged answers eq_refl) Hr0 Hr)
        as [->|(Hother & _)]; [done|]. by simpl in Hother.
    + rewrite Hout in Hr. cbn [results] in Hr.
      assert (Hrs : (if avail && (0 <? n)%nat && (n <=? 30)%nat then rs else rs) = rs)
        by (by destruct (avail && _ && _)).
      rewrite Hrs, Hr0 in Hr. by injection Hr as <-.
Qed.

Lemma oracle_merge_scope_witness :
  Forall2 (mergedFrom exampleAnswers)
    (results (analyzeFiles (fun _ => None) (js "me") (Civil 2024 0 8) true silent
                [named "random_file.xyz"; jpg "a.jpg"]))
    (results (analyzeFiles (fun _ => None) (js "me") (Civil 2024 0 8) true exampleOracle
                [named "random_file.xyz"; jpg "a.jpg"]))
  /\ List.map r_category
       (results (analyzeFiles (fun _ => None) (js "me") (Civil 2024 0 8) true
                   exampleOracle [named "random_file.xyz"; jpg "a.jpg"]))
     = [Document; Image]
  /\ analyzeFiles (fun _ => None) (js "me") (Civil 2024 0 8) false exampleOracle
       [named "random_file.xyz"; jpg "a.jpg"]
     = analyzeFiles (fun _ => None) (js "me") (Civil 2024 0 8) false silent
         [named "random_file.xyz"; jpg "a.jpg"].
Proof.
  split; [|split].
  - apply (proj1 (proj2 (proj2 (proj2 (proj2 (proj2
             (oracle_merge_scope (fun _ => None) (js "me") (Civil 2024 0 8) true
                exampleOracle [named "random_file.xyz"; jpg "a.jpg"]))))))).
    reflexivity.
  - vm_compute. reflexivity.
  - apply (proj1 (proj2 (proj2 (proj2
             (oracle_merge_scope (fun _ => None) (js "me") (Civil 2024 0 8) false
                exampleOracle [named "random_file.xyz"; jpg "a.jpg"]))))).
    by left.
Defined.

(** ** Suggested names *)

Section SuggestedNames.

Lemma slashFree_check (s : jsstring) : forallb (fun c => negb (c =? Path.SLASH)) s = true -> slashFree s.
Proof.
  rewrite forallb_forall. intros H Hin. apply list_elem_of_In, H in Hin.
  by rewrite N.eqb_refl in Hin.
Qed.

Lemma digits_slashFree (s : jsstring) : forallb is_digit s = true -> slashFree s.
Proof.
  rewrite forallb_forall. intros H Hin. apply list_elem_of_In, H in Hin.
  by vm_compute in Hin.
Qed.

Lemma String_Z_slashFree z : slashFree (String_Z z).
Proof.
  destruct z as [|p|p]; simpl; try apply String_N_slashFree.
  unfold slashFree. rewrite elem_of_cons. intros [H|H]; [done|].
  by apply (String_N_slashFree (N.pos p)).
Qed.

Lemma padStart0_slashFree n s : slashFree s -> slashFree (padStart0 n s).
Proof.
  intros Hs. unfold padStart0. apply slashFree_app. split; [|done].
  unfold slashFree. intros [H _]%elem_of_replicate. done.
Qed.

Lemma dateToken_slashFree d : slashFree (dateToken d).
Proof.
  destruct d as [c|]; simpl.
  - rewrite !slashFree_app.
    repeat split; try apply padStart0_slashFree; apply String_Z_slashFree.
  - by apply slashFree_check.
Qed.

Lemma extractDate_slashFree Date_parse fileName modifiedTime now :
  slashFree (extractDateFromFile Date_parse fileName modifiedTime now).
Proof.
  unfold extractDateFromFile, datePatterns. cbn [dateFromName].
  set (name := Path.basename _ _).
  destruct (exec yearFirstPattern name) as [m|] eqn:H1.
  - destruct (exec_yearFirst _ _ H1) as (g1 & g2 & g3 & Hg & [_ D1] & [_ D2] & [_ D3]).
    unfold group. rewrite Hg. simpl.
    destruct (length g1 =? 4)%nat; rewrite !slashFree_app;
      repeat split; by apply digits_slashFree.
  - destruct (exec yearLastPattern name) as [m|] eqn:H2.
    + destruct (exec_yearLast _ _ H2) as (g1 & g2 & g3 & Hg & [_ D1] & [_ D2] & [_ D3]).
      unfold group. rewrite Hg. simpl.
      destruct (length g1 =? 4)%nat; rewrite !slashFree_app;
        repeat split; by apply digits_slashFree.
    + destruct modifiedTime as [[|c t]|]; apply dateToken_slashFree.
Qed.

Lemma cleanFileName_slashFree fileName : slashFree (cleanFileName fileName).
Proof.
  destruct (cleanFileName_cut fileName) as (cut & -> & _ & Hkept & _).
  intros Hin. rewrite Forall_forall in Hkept. apply Hkept in Hin. by vm_compute in Hin.
Qed.

Lemma classifyOf_slashFree file : slashFree (classifyOf file).
Proof.
  assert (Hin : classifyOf file ∈ Shortcut :: folderCategories ++ fileCategories).
  { unfold classifyOf.
    destruct (isTrue (f_isSymlink file)); [rewrite classifyFile_symlink; left|].
    right. apply elem_of_app.
    destruct (isTrue (f_isDirectory file));
      [left; apply classifyFile_directory | right; apply classifyFile_file]. }
  assert (Hall : Forall slashFree (Shortcut :: folderCategories ++ fileCategories)).
  { apply Forall_forall. intros c Hc. apply slashFree_check.
    assert (Hb : forallb (fun s : jsstring => forallb (fun c => negb (c =? Path.SLASH)) s)
                   (Shortcut :: folderCategories ++ fileCategories) = true)
      by (vm_compute; reflexivity).
    rewrite forallb_forall in Hb. by apply Hb, list_elem_of_In. }
  rewrite Forall_forall in Hall. by apply Hall.
Qed.

Variable Date_parse : jsstring -> JsDate.
Variable currentUser : jsstring.
Variable now : civil.

(** The name built for an entry that is to be renamed. *)
Lemma suggest_shape file :
  exists label,
    label <> []
    /\ suggest Date_parse currentUser now file (classifyOf file)
       = extractDateFromFile Date_parse (f_name file) (f_modifiedTime file) now
           ++ js "_" ++ label ++ f_extension file
    /\ (isDocumentFile (f_extension file) = true ->
        exists rest, rest <> [] /\ label = currentUser ++ js "_" ++ rest)
    /\ (slashFree currentUser -> slashFree label).
Proof.
  unfold suggest.
  pose proof (cleanFileName_slashFree (f_name file)) as Hclean.
  pose proof (classifyOf_slashFree file) as Hcat.
  assert (Hund : slashFree (js "_")) by (by apply slashFree_check).
  destruct (isDocumentFile (f_extension file)).
  - case_bool_decide as Hc; simpl.
    + exists (currentUser ++ js "_" ++ Document). split; [by destruct currentUser|].
      split; [by rewrite <- !List.app_assoc|].
      split; [intros _; by exists Document|].
      intros Hu. rewrite !slashFree_app. repeat split; [done..|by apply slashFree_check].
    + exists (currentUser ++ js "_" ++ cleanFileName (f_name file)).
      split; [by destruct currentUser|].
      split; [by rewrite <- !List.app_assoc|].
      split; [intros _; by exists (cleanFileName (f_name file))|].
      intros Hu. by rewrite !slashFree_app.
  - destruct (str_eqb (classifyOf file) Screenshot).
    { exists Screenshot. split; [done|]. split; [done|]. split; [done|].
      intros _. by apply slashFree_check. }
    case_bool_decide as Hc; simpl.
    + unfold str_eqb. case_bool_decide as Ho; simpl.
      * exists (js "文件"). split; [done|]. split; [done|]. split; [done|].
        intros _. by apply slashFree_check.
      * exists (classifyOf file). split; [apply classifyOf_nonempty|].
        split; [done|]. split; [done|]. done.
    + exists (cleanFileName (f_name file)). by repeat split.
Qed.

End SuggestedNames.

(** X4: An entry that is not to be renamed is suggested its own name.  One
    that is gets the date token, an underscore, a non-empty label and the
    entry's extension; for a document extension the label starts with the
    user name and an underscore.  When the user name and the extension
    hold no separator the suggested name holds none: it names a file in
    the directory of the original. *)
Theorem suggestedName_shape :
  forall Date_parse currentUser now isOpencodeAvailable oracle files i file,
    files !! i = Some file ->
    exists r,
      results (analyzeFiles Date_parse currentUser now isOpencodeAvailable oracle files)
        !! i = Some r
      /\ (r_needsRename r = false -> r_suggestedName r = f_name file)
      /\ (r_needsRename r = true ->
          exists label,
            label <> []
            /\ r_suggestedName r
               = extractDateFromFile Date_parse (f_name file) (f_modifiedTime file) now
                   ++ js "_" ++ label ++ f_extension file
            /\ (isDocumentFile (f_extension file) = true ->
                exists rest, rest <> [] /\ label = currentUser ++ js "_" ++ rest)
            /\ (slashFree currentUser -> slashFree (f_extension file) ->
                slashFree (r_suggestedName r))).
Proof.
  intros Date_parse currentUser now avail oracle files i file Hfile.
  pose proof (analyze_results Date_parse currentUser now avail oracle files) as HF.
  destruct (Forall2_lookup_l _ _ _ _ _ HF Hfile) as (r & Hr & Hsame).
  exists r. split; [exact Hr|].
  destruct Hsame as (_ & Hn & Hrn & _ & _). simpl in Hn, Hrn.
  rewrite <- Hn, <- Hrn. split.
  - intros ->. done.
  - intros ->.
    destruct (suggest_shape Date_parse currentUser now file)
      as (label & Hne & Heq & Hdoc & Hfree).
    exists label. split; [done|]. split; [done|]. split; [done|].
    intros Hu He. rewrite Heq, !slashFree_app.
    split; [apply extractDate_slashFree|]. split; [by apply slashFree_check|].
    split; [by apply Hfree | done].
Qed.

Lemma suggestedName_shape_witness :
  exists r,
    results (analyzeFiles (fun _ => None) (js "me") (Civil 2024 0 8) false silent
               [named "IMG_20231215_143022.jpg"]) !! 0%nat = Some r
    /\ (r_needsRename r = false ->
        r_suggestedName r = f_name (named "IMG_20231215_143022.jpg"))
    /\ (r_needsRename r = true ->
        exists label,
          label <> []
          /\ r_suggestedName r
             = extractDateFromFile (fun _ => None)
                 (f_name (named "IMG_20231215_143022.jpg"))
                 (f_modifiedTime (named "IMG_20231215_143022.jpg")) (Civil 2024 0 8)
                 ++ js "_" ++ label ++ f_extension (named "IMG_20231215_143022.jpg")
          /\ (isDocumentFile (f_extension (named "IMG_20231215_143022.jpg")) = true ->
              exists rest, rest <> [] /\ label = js "me" ++ js "_" ++ rest)
          /\ (slashFree (js "me") ->
              slashFree (f_extension (named "IMG_20231215_143022.jpg")) ->
              slashFree (r_suggestedName r))).
Proof.
  apply (suggestedName_shape (fun _ => None) (js "me") (Civil 2024 0 8) false silent
           [named "IMG_20231215_143022.jpg"] 0%nat (named "IMG_20231215_143022.jpg")).
  reflexivity.
Defined.

(** ** More on duplicate detection *)

Section MoreDuplicateFacts.

Lemma groupStep_agree {K A} `{EqDecision K} (key key' : A -> option K) xs m :
  (forall x, x ∈ xs -> key x = key' x) ->
  fold_left (groupStep key) xs m = fold_left (groupStep key') xs m.
Proof.
  revert m. induction xs as [|x xs IH]; intros m H; [done|].
  cbn [fold_left]. unfold groupStep at 2 4. rewrite <- (H x) by left.
  apply IH. intros y Hy. apply H. by right.
Qed.

Lemma detect_as_groups h inputs :
  detectDuplicates h inputs
  = flat_map
      (fun '(k, group) =>
         if (1 <? length group)%nat
         then [ {| hash := k; files := markKeep group |} ] else [])
      (fold_left (groupStep (fun f => h (d_path f)))
         (hashCandidates (sizeGroupsOf inputs)) []).
Proof. unfold detectDuplicates, hashMapOf. by rewrite hashMapOf_group. Qed.

Lemma keyed_short (inputs : list DupInput) z :
  NoDup (List.map d_size (List.filter (fun f => negb (d_size f =? 0)) inputs)) ->
  (length (keyed sizeKey z inputs) <= 1)%nat.
Proof.
  induction inputs as [|f inputs IH]; [simpl; lia|].
  unfold keyed in *. cbn [List.filter].
  destruct (N.eqb_spec (d_size f) 0) as [H0|Hn]; cbn [negb List.map].
  - assert (Hk : sizeKey f <> Some z) by (rewrite sizeKey_Some; intros [? ?]; congruence).
    rewrite bool_decide_eq_false_2 by done. exact IH.
  - intros [Hnotin Hnd]%NoDup_cons. case_bool_decide as Hz; [|by apply IH].
    apply sizeKey_Some in Hz as [<- _].
    assert (Hnil : List.filter (fun x => bool_decide (sizeKey x = Some (d_size f))) inputs = []).
    { destruct (List.filter (fun x => bool_decide (sizeKey x = Some (d_size f))) inputs)
        as [|g l] eqn:E; [done|]. exfalso.
      assert (Hg : g ∈ List.filter (fun x => bool_decide (sizeKey x = Some (d_size f))) inputs)
        by (rewrite E; left).
      apply list_elem_of_In, filter_In in Hg as [Hgin Hk%bool_decide_eq_true].
      apply sizeKey_Some in Hk as [Hsz Hnz].
      apply Hnotin. rewrite <- Hsz. apply list_elem_of_fmap. exists g. split; [done|].
      apply list_elem_of_In, filter_In. split; [done|].
      apply negb_true_iff, N.eqb_neq. congruence. }
    rewrite Hnil. simpl. lia.
Qed.

Lemma group_hashes_NoDup (hm : OMap.t jsstring (list DupInput)) :
  NoDup (OMap.keys hm) ->
  NoDup (List.map hash
           (flat_map
              (fun '(k, group) =>
                 if (1 <? length group)%nat
                 then [ {| hash := k; files := markKeep group |} ] else []) hm))
  /\ forall g, g ∈ flat_map
                  (fun '(k, group) =>
                     if (1 <? length group)%nat
                     then [ {| hash := k; files := markKeep group |} ] else []) hm ->
               hash g ∈ OMap.keys hm.
Proof.
  induction hm as [|[k grp] hm IH]; intros Hnd.
  - split; [constructor | by intros g Hg%elem_of_nil].
  - unfold OMap.keys in Hnd. simpl in Hnd. apply NoDup_cons in Hnd as [Hk Hnd].
    destruct (IH Hnd) as [IH1 IH2]. cbn [flat_map].
    destruct (1 <? length grp)%nat; simpl.
    + split.
      * apply NoDup_cons. split; [|done].
        intros (g & Hg & Hin)%list_elem_of_fmap. apply Hk. rewrite Hg. by apply IH2.
      * intros g [->|Hg]%elem_of_cons; [left | right; by apply IH2].
    + split; [done|]. intros g Hg. right. by apply IH2.
Qed.

Lemma NoDup_map_inj {A B} (f : A -> B) (l : list A) x y :
  NoDup (List.map f l) -> x ∈ l -> y ∈ l -> f x = f y -> x = y.
Proof.
  induction l as [|a l IH]; intros Hnd Hx Hy Hf; [by apply elem_of_nil in Hx|].
  simpl in Hnd. apply NoDup_cons in Hnd as [Ha Hnd].
  apply elem_of_cons in Hx as [->|Hx]; apply elem_of_cons in Hy as [->|Hy].
  - done.
  - exfalso. apply Ha. rewrite Hf. apply list_elem_of_fmap. eauto.
  - exfalso. apply Ha. rewrite <- Hf. apply list_elem_of_fmap. eauto.
  - by apply IH.
Qed.

Lemma member_hash h inputs g m :
  g ∈ detectDuplicates h inputs -> m ∈ files g -> h (m_path m) = Some (hash g).
Proof.
  intros (grp & Hg & _ & Hgrp)%detect_group Hm.
  assert (Hin : toInput m ∈ grp).
  { rewrite <- (markKeep_toInput grp). apply list_elem_of_fmap. exists m.
    split; [done|]. by rewrite Hg in Hm. }
  rewrite Hgrp in Hin. apply keyed_elem in Hin as [_ Hh]. done.
Qed.

End MoreDuplicateFacts.

(** X5: The emitted groups have pairwise different hashes, and two members
    with the same path are members of the same group: no file is reported
    in two groups. *)
Theorem duplicate_groups_disjoint :
  forall (calculateFileHash : jsstring -> option jsstring) (inputs : list DupInput),
    NoDup (List.map hash (detectDuplicates calculateFileHash inputs))
    /\ forall g g' m m',
        g ∈ detectDuplicates calculateFileHash inputs ->
        g' ∈ detectDuplicates calculateFileHash inputs ->
        m ∈ files g -> m' ∈ files g' ->
        m_path m = m_path m' ->
        g = g'.
Proof.
  intros h inputs.
  assert (Hnd : NoDup (List.map hash (detectDuplicates h inputs))).
  { rewrite detect_as_groups. apply group_hashes_NoDup.
    by apply (group_fold (fun f => h (d_path f)) _ []); constructor. }
  split; [done|].
  intros g g' m m' Hg Hg' Hm Hm' Hpath.
  apply (NoDup_map_inj hash _ _ _ Hnd Hg Hg').
  pose proof (member_hash _ _ _ _ Hg Hm) as H1.
  pose proof (member_hash _ _ _ _ Hg' Hm') as H2.
  rewrite Hpath in H1. congruence.
Qed.

(** X6: Only files that share their non-zero size with another input are
    hashed: the result is the same for two hash functions that agree on
    those files, and it is empty, whatever the hash function, when the
    non-zero sizes of the inputs are pairwise different. *)
Theorem hashing_only_same_size :
  forall (inputs : list DupInput),
    (forall h h' : jsstring -> option jsstring,
        (forall f, f ∈ hashCandidates (sizeGroupsOf inputs) ->
                   h (d_path f) = h' (d_path f)) ->
        detectDuplicates h inputs = detectDuplicates h' inputs)
    /\ (forall f, f ∈ hashCandidates (sizeGroupsOf inputs) ->
                  f ∈ inputs /\ d_size f <> 0
                  /\ (2 <= length (List.filter (fun x => (d_size x =? d_size f)%N) inputs))%nat)
    /\ (NoDup (List.map d_size (List.filter (fun f => negb (d_size f =? 0)) inputs)) ->
        forall h, detectDuplicates h inputs = []).
Proof.
  intros inputs. split; [|split].
  - intros h h' Hagree. rewrite !detect_as_groups. f_equal.
    by apply groupStep_agree.
  - intros f Hf. apply candidate_entry in Hf as (gz & Hentry & Hlen & Hin & Hnz).
    split; [done|]. split; [done|].
    destruct (sizeGroups_entry _ _ _ Hentry) as [-> _].
    unfold keyed in Hlen.
    assert (Hext : List.filter (fun x => bool_decide (sizeKey x = Some (d_size f))) inputs
                   = List.filter (fun x => d_size x =? d_size f) inputs).
    { apply List.filter_ext. intros x. apply eq_true_iff_eq.
      rewrite bool_decide_eq_true, sizeKey_Some, N.eqb_eq. tauto. }
    rewrite Hext in Hlen. lia.
  - intros Hnd h. rewrite detect_as_groups.
    assert (Hc : hashCandidates (sizeGroupsOf inputs) = []).
    { unfold hashCandidates. apply flat_map_all_nil. intros [z gz] Hentry.
      destruct (sizeGroups_entry _ _ _ Hentry) as [-> _].
      pose proof (keyed_short inputs z Hnd) as Hl.
      destruct (Nat.ltb_spec 1 (length (keyed sizeKey z inputs))); [lia | done]. }
    by rewrite Hc.
Qed.

Lemma duplicate_groups_disjoint_witness :
  exampleGroup = exampleGroup.
Proof.
  assert (Hin : exampleGroup ∈ detectDuplicates exampleHash exampleInputs)
    by (vm_compute; left).
  apply (proj2 (duplicate_groups_disjoint exampleHash exampleInputs)
           exampleGroup exampleGroup
           {| m_path := js "/d/a.bin"; m_name := js "a.bin"; m_size := 3; isKeep := true |}
           {| m_path := js "/d/a.bin"; m_name := js "a.bin"; m_size := 3; isKeep := true |}
           Hin Hin).
  - vm_compute. left.
  - vm_compute. left.
  - reflexivity.
Defined.

Lemma hashing_only_same_size_witness :
  detectDuplicates exampleHash exampleInputs = detectDuplicates exampleHash' exampleInputs
  /\ detectDuplicates exampleHash
       [ {| d_path := js "/d/a.bin"; d_size := 3; d_name := js "a.bin" |};
         {| d_path := js "/d/e.bin"; d_size := 0; d_name := js "e.bin" |};
         {| d_path := js "/d/c.bin"; d_size := 5; d_name := js "c.bin" |};
         {| d_path := js "/d/f.bin"; d_size := 0; d_name := js "f.bin" |} ] = [].
Proof.
  split.
  - apply (proj1 (hashing_only_same_size exampleInputs) exampleHash exampleHash').
    intros f Hf. vm_compute in Hf.
    apply elem_of_cons in Hf as [->|Hf]; [reflexivity|].
    apply elem_of_cons in Hf as [->|Hf]; [reflexivity|].
    by apply elem_of_nil in Hf.
  - apply (proj2 (proj2 (hashing_only_same_size _))).
    vm_compute. repeat constructor; rewrite ?elem_of_cons, ?elem_of_nil; intuition discriminate.
Defined.

(** ** What a run leaves alone *)

Section MkdirFacts.
Import FS.
Implicit Types (p q : path) (t : node).

Lemma mkdirp_file p t t' q data :
  mkdirp p t = Ok t' ->
  lookup q t = Some (File data) -> lookup q t' = Some (File data).
Proof.
  revert t t' q. induction p as [|x p IH]; intros t t' q.
  - destruct t; [done|]. by intros [= <-].
  - destruct t as [|m]; [done|]. rewrite mkdirp_cons.
    destruct (mkdirp p (default (Dir ∅) (m !! x))) as [c|e] eqn:Hc; [|done].
    intros [= <-]. destruct q as [|y q]; [done|]. rewrite !lookup_step.
    destruct (decide (y = x)) as [->|Hne].
    + rewrite lookup_insert_eq. destruct (m !! x) as [c0|] eqn:Hx; [|done].
      simpl in Hc. by apply IH.
    + by rewrite lookup_insert_ne.
Qed.

Lemma mkdirp_exists p t t' q :
  mkdirp p t = Ok t' -> exists_ q t = true -> exists_ q t' = true.
Proof.
  unfold exists_. revert t t' q. induction p as [|x p IH]; intros t t' q.
  - destruct t; [done|]. by intros [= <-].
  - destruct t as [|m]; [done|]. rewrite mkdirp_cons.
    destruct (mkdirp p (default (Dir ∅) (m !! x))) as [c|e] eqn:Hc; [|done].
    intros [= <-]. destruct q as [|y q]; [done|]. rewrite !lookup_step.
    destruct (decide (y = x)) as [->|Hne].
    + rewrite lookup_insert_eq. destruct (m !! x) as [c0|] eqn:Hx; [|done].
      simpl in Hc. by apply IH.
    + by rewrite lookup_insert_ne.
Qed.

Lemma mkdirp_isDir p t t' : mkdirp p t = Ok t' -> isDir p t' = true.
Proof.
  unfold isDir. revert t t'. induction p as [|x p IH]; intros t t'.
  - destruct t; [done|]. by intros [= <-].
  - destruct t as [|m]; [done|]. rewrite mkdirp_cons.
    destruct (mkdirp p (default (Dir ∅) (m !! x))) as [c|e] eqn:Hc; [|done].
    intros [= <-]. rewrite lookup_step, lookup_insert_eq. by eapply IH.
Qed.

Lemma copy_keeps_file src dst t t1 q data :
  copyFile src dst t = Ok t1 ->
  lookup q t = Some (File data) -> q <> dst ->
  lookup q t1 = Some (File data).
Proof.
  intros (c & _ & Hpar & Hkind & ->)%copy_ok Hq Hne.
  apply lookup_File_update; [|done].
  destruct (isPrefix dst q) eqn:Hpre; [|done]. exfalso.
  assert (Hd : isDir dst t = true).
  { apply (lookup_prefix_dir q); [by eexists | done | congruence]. }
  unfold isDir in Hd. by destruct (lookup dst t) as [[|]|].
Qed.

Lemma unlink_keeps_file src t t1 q data :
  unlink src t = Ok t1 ->
  lookup q t = Some (File data) -> q <> src ->
  lookup q t1 = Some (File data).
Proof.
  unfold unlink. destruct (lookup src t) as [[c|m]|] eqn:Hs; [|done..].
  intros [= <-] Hq Hne. apply lookup_File_update; [|done].
  eapply file_not_above; [exact Hs | by eexists | congruence].
Qed.

End MkdirFacts.

Section BackupPaths.
Import Path.

Lemma normalize_nonempty p : normalize p <> [].
Proof.
  unfold normalize. destruct p as [|c p]; [done|].
  destruct (unsplit _) as [|b body]; [|destruct (hasTrailingSlash _), (isAbsolute _); done].
  destruct (isAbsolute _); [done|]. by destruct (hasTrailingSlash _).
Qed.

Lemma join_nonempty args : join args <> [].
Proof.
  unfold join. destruct (unsplit _); [done | apply normalize_nonempty].
Qed.

Lemma basename_plain_slashFree p : slashFree (basename p []).
Proof. unfold basename. simpl. apply lastSegment_slashFree. Qed.

Variable Date_now : nat -> Z.

Lemma backupName_ok dup tick :
  normal (basename dup [] ++ js "_" ++ String_Z (Date_now tick))
  /\ slashFree (basename dup [] ++ js "_" ++ String_Z (Date_now tick)).
Proof.
  split.
  - assert (Hin : 95 ∈ basename dup [] ++ js "_" ++ String_Z (Date_now tick)).
    { apply elem_of_app. right. left. }
    repeat split; intros E; rewrite E in Hin.
    + by apply elem_of_nil in Hin.
    + apply list_elem_of_singleton in Hin. by vm_compute in Hin.
    + apply elem_of_cons in Hin as [Hin|Hin%list_elem_of_singleton]; by vm_compute in Hin.
  - rewrite !slashFree_app. split; [apply basename_plain_slashFree|].
    split; [by apply slashFree_check | apply String_Z_slashFree].
Qed.

Lemma isPrefix_app (a b : list jsstring) : FS.isPrefix a (a ++ b) = true.
Proof.
  induction a as [|x a IH]; [done|]. simpl.
  by rewrite bool_decide_eq_true_2.
Qed.

Lemma backupPath_inside tempDir tick0 dup tick :
  FS.isPrefix (resolve (backupDirAt tempDir Date_now tick0))
    (resolve (backupPathOf Date_now (backupDirAt tempDir Date_now tick0) dup tick))
  = true.
Proof.
  unfold backupPathOf. destruct (backupName_ok dup tick) as [Hn Hs].
  rewrite resolve_join_name; [apply isPrefix_app | apply join_nonempty | done..].
Qed.

End BackupPaths.

Section RunFrame.
Import FS.
Variable tempDir : jsstring.
Variable Date_now : nat -> Z.

Lemma createCategories_keep folder cats t created ops t' created' ops' err q data :
  createCategories folder cats (t, created, ops) = (t', created', ops', err) ->
  lookup q t = Some (File data) -> lookup q t' = Some (File data).
Proof.
  revert t created ops. induction cats as [|c cats IH]; intros t created ops; simpl.
  - by intros [= <- <- <- <-].
  - destruct (negb (existsSync _ t)); [|apply IH].
    destruct (mkdirp _ t) as [t1|e] eqn:Hm.
    + intros Hrest Hq. eapply IH; [exact Hrest|]. by eapply mkdirp_file.
    + by intros [= <- <- <- <-].
Qed.

Lemma processDuplicates_keep backupDir dups t ops tick q data :
  lookup q t = Some (File data) ->
  Forall (fun d => Path.resolve d <> q) dups ->
  (forall d k, Path.resolve (backupPathOf Date_now backupDir d k) <> q) ->
  lookup q (fst (fst (fold_left (processDuplicate Date_now backupDir) dups
                        (t, ops, tick)))) = Some (File data).
Proof.
  intros Hq Hd Hb. revert t ops tick Hq.
  induction Hd as [|d dups Hne _ IH]; intros t ops tick Hq; [done|].
  cbn [fold_left].
  destruct (processDuplicate_cases Date_now backupDir t ops tick d)
    as [(e & _ & ->)|(t1 & t2 & c & Hc & _ & _ & Hu & ->)]; [by apply IH|].
  apply IH. eapply unlink_keeps_file; [exact Hu | | congruence].
  eapply copy_keeps_file; [exact Hc | done |]. intros E. by apply (Hb d tick).
Qed.

End RunFrame.

(** X7: A run, whether it succeeds or not, leaves in place, with its bytes,
    every regular file that is neither a planned file nor inside a planned
    directory, is not listed as a duplicate, and is not inside the run's
    backup directory: moving never overwrites, and creating directories
    and backing up never touch other files. *)
Theorem run_keeps_other_files :
  forall tempDir Date_now plan w q data,
    FS.lookup q (disk w) = Some (FS.File data) ->
    Forall (fun file => FS.isPrefix (Path.resolve (p_path file)) q = false)
      (plan_files plan) ->
    Forall (fun d => Path.resolve d <> q) (duplicatesToDelete plan) ->
    FS.isPrefix (Path.resolve (backupDirAt tempDir Date_now (ticks w))) q = false ->
    FS.lookup q (disk (snd (executeOrganize tempDir Date_now plan w)))
    = Some (FS.File data).
Proof.
  intros tempDir Date_now plan w q data Hq Hfiles Hdups Hback.
  unfold executeOrganize.
  destruct (FS.mkdirp _ (disk w)) as [t0|e] eqn:Hb; [|done].
  pose proof (mkdirp_file _ _ _ _ _ Hb Hq) as Hq0.
  destruct (createCategories _ _ _) as [[[t1 created] ops1] err] eqn:Hc.
  pose proof (createCategories_keep _ _ _ _ _ _ _ _ _ _ _ Hc Hq0) as Hq1.
  destruct err as [e|]; [done|].
  pose proof (processFiles_keep (folderPath plan) (plan_files plan) t1 ops1 q data
                Hq1 Hfiles) as Hq2.
  destruct (fold_left (processFile _) _ _) as [t2 ops2]. simpl in Hq2.
  pose proof (processDuplicates_keep Date_now
                (backupDirAt tempDir Date_now (ticks w))
                (duplicatesToDelete plan) t2 ops2 (S (ticks w)) q data Hq2 Hdups)
    as Hq3.
  destruct (fold_left (processDuplicate _ _) _ _) as [[t3 ops3] tick3].
  simpl in *. apply Hq3. intros d k E.
  pose proof (backupPath_inside Date_now tempDir (ticks w) d k) as Hin.
  rewrite E in Hin. congruence.
Qed.

Lemma run_keeps_other_files_witness :
  FS.lookup [js "d"; js "keep.txt"]
    (disk (snd (executeOrganize (js "/tmp") exampleClock
                  {| folderPath := js "/d"; categories := [js "pics"];
                     plan_files := [moveTo "/d/x.png" "pics"; moveTo "/d/y.png" "pics"];
                     duplicatesToDelete := [] |}
                  exampleWorld)))
  = Some (FS.File [3]).
Proof.
  apply run_keeps_other_files.
  - reflexivity.
  - repeat constructor.
  - constructor.
  - vm_compute. reflexivity.
Defined.

(** ** The log of a run *)

Section RunLog.
Import FS.
Variable Date_now : nat -> Z.

Lemma createCategories_log folder cats t created ops t' created' ops' err :
  Forall (fun p => existsSync p t = true) created ->
  NoDup created ->
  createCategories folder cats (t, created, ops) = (t', created', ops', err) ->
  exists mk,
    ops' = ops ++ mk
    /\ created' = created ++ List.map from mk
    /\ Forall (mkdirEntry folder cats) mk
    /\ NoDup created'.
Proof.
  revert t created ops. induction cats as [|c cats IH]; intros t created ops Hex Hnd;
    simpl.
  - intros [= <- <- <- <-]. exists []. by rewrite !List.app_nil_r.
  - destruct (existsSync (Path.join [folder; c]) t) eqn:He; simpl.
    + intros (mk & -> & -> & Hmk & Hnd')%IH; [|done..].
      exists mk. repeat split; [|done].
      eapply Forall_impl; [exact Hmk|]. intros op (c' & Hc' & ->).
      exists c'. split; [by right | done].
    + destruct (mkdirp _ t) as [t1|e] eqn:Hm.
      * assert (Hnot : Path.join [folder; c] ∉ created).
        { intros Hin. rewrite Forall_forall in Hex. apply Hex in Hin. congruence. }
        assert (Hno : arr_includes created (Path.join [folder; c]) = false).
        { apply not_true_is_false. by rewrite arr_includes_elem. }
        rewrite Hno.
        intros (mk & -> & -> & Hmk & Hnd')%IH.
        -- exists ({| type := Mkdir; from := Path.join [folder; c]; to := None;
                      backupPath := None |} :: mk).
           split; [by rewrite <- List.app_assoc|].
           split; [by rewrite <- List.app_assoc|]. split; [|done].
           constructor.
           ++ exists c. split; [left | done].
           ++ eapply Forall_impl; [exact Hmk|]. intros op (c' & Hc' & ->).
              exists c'. split; [by right | done].
        -- apply Forall_app. split.
           ++ eapply Forall_impl; [exact Hex|]. intros p Hp.
              unfold existsSync in *. by eapply mkdirp_exists.
           ++ apply Forall_singleton. unfold existsSync, exists_.
              pose proof (mkdirp_isDir _ _ _ Hm) as Hd. unfold isDir in Hd.
              by destruct (lookup _ t1).
        -- apply NoDup_app. split; [done|]. split; [|apply NoDup_singleton].
           intros p Hp ->%list_elem_of_singleton. done.
      * intros [= <- <- <- <-]. exists []. by rewrite !List.app_nil_r.
Qed.

Lemma processFiles_log folder files t ops :
  exists t' fl,
    fold_left (processFile folder) files (t, ops) = (t', ops ++ fl)
    /\ Forall (fileEntry files) fl.
Proof.
  revert t ops. induction files as [|file files IH]; intros t ops.
  - exists t, []. by rewrite List.app_nil_r.
  - cbn [fold_left].
    destruct (processFile folder (t, ops) file) as [t1 ops1] eqn:E.
    apply processFile_cases in E as [[-> ->]|(fp & _ & _ & _ & ->)].
    + destruct (IH t ops) as (t' & fl & -> & Hf). exists t', fl. split; [done|].
      eapply Forall_impl; [exact Hf|]. intros op (f & tg & Hin & ->).
      exists f, tg. split; [by right | done].
    + destruct (IH t1 (ops ++ [ {| type := if p_needsMove file then Move else Rename;
                                     from := p_path file; to := Some fp;
                                     backupPath := None |} ]))
        as (t' & fl & -> & Hf).
      eexists t', (_ :: fl). rewrite <- List.app_assoc. split; [done|].
      constructor.
      * exists file, fp. split; [left | done].
      * eapply Forall_impl; [exact Hf|]. intros op (f & tg & Hin & ->).
        exists f, tg. split; [by right | done].
Qed.

Lemma processDuplicates_log backupDir dups t ops tick :
  exists t' dl,
    fold_left (processDuplicate Date_now backupDir) dups (t, ops, tick)
    = (t', ops ++ dl, (tick + length dups)%nat)
    /\ Forall (deleteEntry dups) dl.
Proof.
  revert t ops tick. induction dups as [|d dups IH]; intros t ops tick.
  - exists t, []. by rewrite List.app_nil_r, Nat.add_0_r.
  - cbn [fold_left].
    replace (tick + length (d :: dups))%nat with (S tick + length dups)%nat
      by (simpl; lia).
    destruct (processDuplicate_cases Date_now backupDir t ops tick d)
      as [(e & _ & ->)|(t1 & t2 & c & _ & _ & _ & _ & ->)].
    + destruct (IH t ops (S tick)) as (t' & dl & -> & Hf). exists t', dl.
      split; [done|]. eapply Forall_impl; [exact Hf|].
      intros op (p & b & Hin & ->). exists p, b. split; [by right | done].
    + destruct (IH t2 (ops ++ [deleteOp Date_now backupDir d tick]) (S tick))
        as (t' & dl & -> & Hf).
      eexists t', (_ :: dl). rewrite <- List.app_assoc. split; [done|].
      constructor.
      * exists d, (backupPathOf Date_now backupDir d tick). split; [left | done].
      * eapply Forall_impl; [exact Hf|].
        intros op (p & b & Hin & ->). exists p, b. split; [by right | done].
Qed.

Lemma countType_mkdirs folder cats mk :
  Forall (mkdirEntry folder cats) mk ->
  countType Move mk = 0%nat /\ countType Rename mk = 0%nat
  /\ countType Delete mk = 0%nat.
Proof.
  intros H. repeat split; apply countType_none;
    (eapply Forall_impl; [exact H|]); by intros op (c & _ & ->).
Qed.

Lemma countType_fileEntries files fl :
  Forall (fileEntry files) fl ->
  (countType Move fl + countType Rename fl = length fl)%nat
  /\ countType Delete fl = 0%nat.
Proof.
  intros H.
  assert (H' : Forall (fun op => type op = Move \/ type op = Rename) fl).
  { eapply Forall_impl; [exact H|]. intros op (f & tg & _ & ->). simpl.
    destruct (p_needsMove f); tauto. }
  destruct (countType_files fl H') as (? & ? & _). done.
Qed.

Lemma countType_deletes dups dl :
  Forall (deleteEntry dups) dl ->
  countType Move dl = 0%nat /\ countType Rename dl = 0%nat
  /\ countType Delete dl = length dl.
Proof.
  intros H. split; [|split].
  - apply countType_none. eapply Forall_impl; [exact H|]. by intros op (p & b & _ & ->).
  - apply countType_none. eapply Forall_impl; [exact H|]. by intros op (p & b & _ & ->).
  - apply countType_only. eapply Forall_impl; [exact H|]. by intros op (p & b & _ & ->).
Qed.

End RunLog.

(** X8: The log that a successful run pushes lists the created category
    directories first, each once, then the moved and renamed files in plan
    order, then the removed duplicates; the four counts it returns are the
    numbers of entries of each kind, [createdDirs] being the number of
    directory entries; the clock is read twice and once more for each
    listed duplicate, the last reading being the log's time stamp. *)
Theorem run_log_shape :
  forall tempDir Date_now plan w t0 st,
    let backupDir := backupDirAt tempDir Date_now (ticks w) in
    FS.mkdirp (Path.resolve backupDir) (disk w) = FS.Ok t0 ->
    createCategories (folderPath plan) (categories plan) (t0, [], []) = (st, None) ->
    exists mk fl dl t3,
      executeOrganize tempDir Date_now plan w
      = (ExecSuccess (countType Move fl) (countType Rename fl) (length dl) (length mk),
         {| disk := t3;
            undoStack :=
              undoStack w ++
                [ {| timestamp :=
                       Date_now (S (ticks w) + length (duplicatesToDelete plan))%nat;
                     operations := mk ++ fl ++ dl |} ];
            ticks := S (S (ticks w) + length (duplicatesToDelete plan)) |})
      /\ Forall (mkdirEntry (folderPath plan) (categories plan)) mk
      /\ NoDup (List.map from mk)
      /\ Forall (fileEntry (plan_files plan)) fl
      /\ (countType Move fl + countType Rename fl = length fl)%nat
      /\ Forall (deleteEntry (duplicatesToDelete plan)) dl.
Proof.
  intros tempDir Date_now plan w t0 [[t1 created] ops1] backupDir Hb Hc.
  destruct (createCategories_log _ _ _ _ _ _ _ _ _ (Forall_nil_2 _) (NoDup_nil_2) Hc)
    as (mk & Hops & Hcreated & Hmk & Hnd).
  simpl in Hops, Hcreated. subst ops1 created.
  destruct (processFiles_log (folderPath plan) (plan_files plan) t1 mk)
    as (t2 & fl & Hf & Hfl).
  destruct (processDuplicates_log Date_now backupDir (duplicatesToDelete plan)
              t2 (mk ++ fl) (S (ticks w)))
    as (t3 & dl & Hd & Hdl).
  exists mk, fl, dl, t3.
  destruct (countType_mkdirs _ _ _ Hmk) as (M1 & M2 & M3).
  destruct (countType_fileEntries _ _ Hfl) as (F1 & F2).
  destruct (countType_deletes _ _ Hdl) as (D1 & D2 & D3).
  split; [|by repeat split].
  unfold executeOrganize. fold backupDir. rewrite Hb, Hc, Hf, Hd.
  rewrite <- List.app_assoc, !countType_app, M1, M2, M3, F2, D1, D2, D3.
  rewrite length_map, !Nat.add_0_r. simpl. done.
Qed.

Lemma run_log_shape_witness :
  exists mk fl dl t3,
    executeOrganize (js "/tmp") exampleClock examplePlan exampleWorld
    = (ExecSuccess (countType Move fl) (countType Rename fl) (length dl) (length mk),
       {| disk := t3;
          undoStack :=
            undoStack exampleWorld ++
              [ {| timestamp :=
                     exampleClock (S (ticks exampleWorld)
                                   + length (duplicatesToDelete examplePlan))%nat;
                   operations := mk ++ fl ++ dl |} ];
          ticks := S (S (ticks exampleWorld) + length (duplicatesToDelete examplePlan)) |})
    /\ Forall (mkdirEntry (folderPath examplePlan) (categories examplePlan)) mk
    /\ NoDup (List.map from mk)
    /\ Forall (fileEntry (plan_files examplePlan)) fl
    /\ (countType Move fl + countType Rename fl = length fl)%nat
    /\ Forall (deleteEntry (duplicatesToDelete examplePlan)) dl.
Proof.
  eapply (run_log_shape (js "/tmp") exampleClock examplePlan exampleWorld).
  - vm_compute. reflexivity.
  - vm_compute. reflexivity.
Defined.

(** ** Undo, whatever the log *)

Section UndoBounds.

Lemma restoredCount_cons op ops :
  restoredCount (op :: ops)
  = ((match type op with Mkdir => 0 | _ => 1 end) + restoredCount ops)%nat.
Proof. unfold restoredCount, countType. simpl. destruct (type op); simpl; lia. Qed.

Lemma restoredCount_rev ops : restoredCount (rev ops) = restoredCount ops.
Proof.
  induction ops as [|op ops IH]; [done|]. simpl.
  rewrite restoredCount_app, IH, (restoredCount_cons op ops), (restoredCount_cons op []).
  change (restoredCount []) with 0%nat. lia.
Qed.

Lemma undoOperation_count t n op :
  let m := match type op with Mkdir => 0%nat | _ => 1%nat end in
  (n <= snd (undoOperation (t, n) op) <= n + m)%nat.
Proof.
  unfold undoOperation.
  destruct (type op), (nonEmpty (to op)), (nonEmpty (backupPath op)); simpl;
    repeat match goal with
           | |- context [match ?x with FS.Ok _ => _ | FS.Err _ => _ end] => destruct x; simpl
           end; lia.
Qed.

Lemma undo_count ops t n :
  (n <= snd (fold_left undoOperation ops (t, n)) <= n + restoredCount ops)%nat.
Proof.
  revert t n. induction ops as [|op ops IH]; intros t n.
  - simpl. unfold restoredCount, countType. simpl. lia.
  - cbn [fold_left]. rewrite restoredCount_cons.
    pose proof (undoOperation_count t n op) as H1. cbv zeta in H1.
    destruct (undoOperation (t, n) op) as [t1 n1]. simpl in H1.
    specialize (IH t1 n1). lia.
Qed.

End UndoBounds.

(** X9: With a non-empty stack undo always reports success: it pops the
    newest log and only that one, leaves the older logs as they are, and
    counts at most the moves, renames and duplicate removals of the popped
    log, never a directory; entries that cannot be undone are passed over.
    After the only log has been popped, undo fails with 没有可撤销的操作. *)
Theorem undo_pops_newest :
  forall w older u,
    undoStack w = older ++ [u] ->
    exists n t,
      undoOrganize w
      = (UndoSuccess n, {| disk := t; undoStack := older; ticks := ticks w |})
      /\ (t, n) = fold_right (fun op st => undoOperation st op) (disk w, 0%nat)
                    (operations u)
      /\ (n <= restoredCount (operations u))%nat
      /\ (older = [] ->
          undoOrganize {| disk := t; undoStack := older; ticks := ticks w |}
          = (UndoFailure NOTHING_TO_UNDO,
             {| disk := t; undoStack := older; ticks := ticks w |})).
Proof.
  intros w older u Hst. unfold undoOrganize at 1. rewrite Hst, rev_unit.
  pose proof (undo_count (rev (operations u)) (disk w) 0) as Hn.
  rewrite restoredCount_rev in Hn.
  rewrite fold_right_backwards.
  destruct (fold_left undoOperation (rev (operations u)) (disk w, 0%nat)) as [t n].
  exists n, t. rewrite rev_involutive. split; [done|]. split; [done|].
  split; [simpl in Hn; lia|]. by intros ->.
Qed.

Lemma undo_pops_newest_witness :
  exists n t,
    undoOrganize staleWorld
    = (UndoSuccess n, {| disk := t; undoStack := []; ticks := ticks staleWorld |})
    /\ (t, n) = fold_right (fun op st => undoOperation st op) (disk staleWorld, 0%nat)
                  (operations staleLog)
    /\ (n <= restoredCount (operations staleLog))%nat
    /\ (([] : list UndoInfo) = [] ->
        undoOrganize {| disk := t; undoStack := []; ticks := ticks staleWorld |}
        = (UndoFailure NOTHING_TO_UNDO,
           {| disk := t; undoStack := []; ticks := ticks staleWorld |})).
Proof.
  apply (undo_pops_newest staleWorld [] staleLog).
  reflexivity.
Defined.

(** ** The AI log keeps the newest 200 entries *)

Section LogBound.
Import AILog.

Lemma sliceLast_short {A} n (l : list A) : (length l <= n)%nat -> sliceLast n l = l.
Proof.
  intros H. unfold sliceLast. by replace (length l - n)%nat with 0%nat by lia.
Qed.

Lemma sliceLast_length {A} n (l : list A) :
  length (sliceLast n l) = Nat.min n (length l).
Proof. unfold sliceLast. rewrite length_drop. lia. Qed.

Lemma sliceLast_snoc {A} n (l : list A) x :
  (1 <= n)%nat -> sliceLast n (sliceLast n l ++ [x]) = sliceLast n (l ++ [x]).
Proof.
  intros Hn. destruct (Nat.le_gt_cases (length l) n) as [Hle|Hgt].
  - by rewrite (sliceLast_short n l).
  - unfold sliceLast at 1 3. rewrite !length_app, sliceLast_length. simpl.
    replace (Nat.min n (length l) + 1 - n)%nat with 1%nat by lia.
    unfold sliceLast.
    rewrite (drop_app_le l [x]) by lia.
    rewrite (drop_app_le (drop _ l) [x]) by (rewrite length_drop; lia).
    rewrite drop_drop. f_equal. f_equal. lia.
Qed.

Lemma addAILog_logs r ty c d s :
  aiLogs (addAILog r ty c d s) = sliceLast 200 (aiLogs s ++ [entryOf r ty c d]).
Proof.
  unfold addAILog. cbn [aiLogs].
  destruct (Nat.ltb_spec 200 (length (aiLogs s ++ [entryOf r ty c d]))); [done|].
  by rewrite sliceLast_short.
Qed.

Lemma calls_logs calls s all :
  aiLogs s = sliceLast 200 all ->
  aiLogs (fold_left call calls s) = sliceLast 200 (all ++ List.map entryOfCall calls).
Proof.
  revert s all. induction calls as [|c calls IH]; intros s all Hs.
  - by rewrite List.app_nil_r.
  - cbn [fold_left List.map].
    rewrite (IH _ (all ++ [entryOfCall c])).
    + by rewrite <- List.app_assoc.
    + unfold call. rewrite addAILog_logs, Hs. apply sliceLast_snoc. lia.
Qed.

Lemma calls_sent calls s :
  mainWindow (fold_left call calls s) = mainWindow s
  /\ sent (fold_left call calls s)
     = sent s ++ (if mainWindow s then List.map entryOfCall calls else []).
Proof.
  revert s. induction calls as [|c calls IH]; intros s.
  - split; [done|]. destruct (mainWindow s); by rewrite List.app_nil_r.
  - cbn [fold_left]. destruct (IH (call s c)) as [-> ->].
    unfold call, addAILog. cbn [mainWindow sent]. split; [done|].
    destruct (mainWindow s); [|done]. by rewrite <- List.app_assoc.
Qed.

End LogBound.

(** X10: After any number of calls of [addAILog] on a log of at most 200
    entries, the log holds the newest 200 of the old and the added entries,
    oldest first, so never more than 200; every added entry has gone to the
    window if there is one, also those that have been dropped since. *)
Theorem aiLogs_newest_200 :
  forall (s : AILog.State) (calls : list AILog.Call),
    (length (AILog.aiLogs s) <= 200)%nat ->
    let s' := fold_left AILog.call calls s in
    AILog.aiLogs s'
    = AILog.sliceLast 200 (AILog.aiLogs s ++ List.map AILog.entryOfCall calls)
    /\ (length (AILog.aiLogs s') <= 200)%nat
    /\ length (AILog.aiLogs s')
       = Nat.min 200 (length (AILog.aiLogs s) + length calls)
    /\ AILog.mainWindow s' = AILog.mainWindow s
    /\ AILog.sent s'
       = AILog.sent s ++ (if AILog.mainWindow s
                          then List.map AILog.entryOfCall calls else []).
Proof.
  intros s calls Hlen s'.
  assert (Hlogs : AILog.aiLogs s'
                  = AILog.sliceLast 200
                      (AILog.aiLogs s ++ List.map AILog.entryOfCall calls)).
  { apply calls_logs. by rewrite sliceLast_short. }
  destruct (calls_sent calls s) as [Hw Hs].
  rewrite Hlogs, sliceLast_length, length_app, length_map.
  repeat split; [lia | done | done].
Qed.

Lemma aiLogs_newest_200_witness :
  let s' := fold_left AILog.call [exampleCall] emptyLog in
  AILog.aiLogs s'
  = AILog.sliceLast 200 (AILog.aiLogs emptyLog ++ List.map AILog.entryOfCall [exampleCall])
  /\ (length (AILog.aiLogs s') <= 200)%nat
  /\ length (AILog.aiLogs s')
     = Nat.min 200 (length (AILog.aiLogs emptyLog) + length [exampleCall])
  /\ AILog.mainWindow s' = AILog.mainWindow emptyLog
  /\ AILog.sent s'
     = AILog.sent emptyLog ++ (if AILog.mainWindow emptyLog
                               then List.map AILog.entryOfCall [exampleCall] else []).
Proof.
  apply (aiLogs_newest_200 emptyLog [exampleCall]).
  vm_compute. lia.
Defined.

(** * [FileService] *)

Section ServiceHistory.
Import FileService FileServiceRun.

Lemma pushHistory_snoc h e :
  pushHistory h e
  = (if (maxHistorySize <=? length h)%nat then tail h else h) ++ [e].
Proof.
  unfold pushHistory. cbv zeta. rewrite length_app. change (length [e]) with 1%nat.
  destruct (Nat.leb_spec maxHistorySize (length h)) as [Hle|Hgt].
  - destruct (Nat.ltb_spec maxHistorySize (length h + 1)); [|lia].
    destruct h; [simpl in Hle; unfold maxHistorySize in Hle; lia | done].
  - destruct (Nat.ltb_spec maxHistorySize (length h + 1)); [lia | done].
Qed.

Lemma pushHistory_length h e :
  (length h <= maxHistorySize)%nat -> (length (pushHistory h e) <= maxHistorySize)%nat.
Proof.
  intros H. rewrite pushHistory_snoc, length_app. change (length [e]) with 1%nat.
  destruct (Nat.leb_spec maxHistorySize (length h)).
  - unfold maxHistorySize in *. destruct h; simpl in *; lia.
  - lia.
Qed.

Lemma removeFirst_length hid h : (length (removeFirst hid h) <= length h)%nat.
Proof.
  induction h as [|x h IH]; simpl; [lia|]. destruct (str_eqb (id x) hid); simpl; lia.
Qed.

Lemma find_fresh hid older e :
  Forall (fun h => id h <> hid) older -> id e = hid ->
  List.find (fun h => str_eqb (id h) hid) (older ++ [e]) = Some e
  /\ removeFirst hid (older ++ [e]) = older.
Proof.
  intros Hf He. induction Hf as [|x older Hx _ [IH1 IH2]]; simpl.
  - unfold str_eqb. by rewrite bool_decide_eq_true_2.
  - unfold str_eqb in *. rewrite bool_decide_eq_false_2 by done. by rewrite IH2.
Qed.

Lemma undoOrganize_length historyId s :
  (length (history (snd (undoOrganize historyId s))) <= length (history s))%nat.
Proof.
  unfold undoOrganize. destruct (nonEmpty historyId) as [hid|].
  - destruct (List.find _ (history s)); simpl; [apply removeFirst_length | lia].
  - destruct (rev (history s)) as [|h rest] eqn:E; simpl; [lia|].
    rewrite length_rev. rewrite <- (length_rev (history s)), E. simpl. lia.
Qed.

End ServiceHistory.

(** X11: A failed run leaves the history as it was.  A successful one returns
    a non-empty identifier made of the clock reading and the random digits,
    and appends its entry under that identifier, after dropping the oldest
    entry when ten are there already: a history of at most ten entries stays
    so, through runs and through undo.  When no older entry has the same
    identifier, undoing by the returned identifier rolls back this run's
    operations and removes exactly its entry. *)
Theorem fileService_history :
  forall Date_now random36 plan s tick,
    let out := FileServiceRun.executeOrganize Date_now random36 plan s tick in
    let s1 := snd (fst out) in
    let older :=
      if (10 <=? length (FileService.history s))%nat
      then tail (FileService.history s) else FileService.history s in
    (forall e, fst (fst out) = FileServiceRun.RunFailure e ->
               FileService.history s1 = FileService.history s)
    /\ (forall hid,
           fst (fst out) = FileServiceRun.RunSuccess hid ->
           hid = String_Z (Date_now tick) ++ js "-" ++ random36 tick
           /\ hid <> []
           /\ exists entry,
               FileService.history s1 = older ++ [entry]
               /\ FileService.id entry = hid
               /\ FileService.folderPath entry = FileServiceRun.sourceFolder plan
               /\ (Forall (fun h => FileService.id h <> hid) (FileService.history s) ->
                   FileService.undoOrganize (Some hid) s1
                   = (FileService.Success,
                      {| FileService.disk :=
                           FileService.rollbackOperations
                             (FileService.operations entry) (FileService.disk s1);
                         FileService.history := older |})))
    /\ ((length (FileService.history s) <= 10)%nat ->
        (length (FileService.history s1) <= 10)%nat)
    /\ (forall historyId,
           (length (FileService.history
                      (snd (FileService.undoOrganize historyId s)))
            <= length (FileService.history s))%nat).
Proof.
  intros Date_now random36 plan s tick out s1 older.
  subst out s1. unfold FileServiceRun.executeOrganize.
  destruct (FileServiceRun.steps _ _ _) as [[[t ops] tick'] [e|]]; simpl.
  - split; [done|]. split; [done|]. split; [done|]. intros ?. apply undoOrganize_length.
  - split; [done|]. split; [|split; [apply pushHistory_length | intros ?; apply undoOrganize_length]].
    intros hid [= <-]. split; [done|].
    assert (Hne : FileServiceRun.generateId Date_now random36 tick <> []).
    { unfold FileServiceRun.generateId. intros E.
      apply (f_equal (@length N)) in E. rewrite !length_app in E. simpl in E. lia. }
    split; [done|].
    eexists. rewrite pushHistory_snoc. split; [reflexivity|].
    split; [done|]. split; [done|].
    intros Hfresh.
    assert (Hold : Forall (fun h => FileService.id h
                                    <> FileServiceRun.generateId Date_now random36 tick)
                     older).
    { subst older. destruct (10 <=? _)%nat; [|done].
      destruct (FileService.history s); [done | by apply Forall_cons in Hfresh as [_ ?]]. }
    unfold FileService.undoOrganize.
    destruct (FileServiceRun.generateId Date_now random36 tick) as [|c r] eqn:Hid;
      [done|].
    cbn [nonEmpty FileService.history FileService.disk].
    match goal with
    | |- context [List.find _ (?o ++ [?e])] =>
      destruct (find_fresh (c :: r) o e Hold eq_refl) as [-> ->]
    end.
    done.
Qed.

Lemma fileService_history_witness :
  js "1700000000000-k3j9x0q1z"
  = String_Z (exampleClock 0) ++ js "-" ++ exampleRandom 0
  /\ js "1700000000000-k3j9x0q1z" <> []
  /\ exists entry,
      FileService.history
        (snd (fst (FileServiceRun.executeOrganize exampleClock exampleRandom
                     exampleRun exampleService 0)))
      = [] ++ [entry]
      /\ FileService.id entry = js "1700000000000-k3j9x0q1z"
      /\ FileService.folderPath entry = js "/d"
      /\ (Forall (fun h => FileService.id h <> js "1700000000000-k3j9x0q1z") [] ->
          FileService.undoOrganize (Some (js "1700000000000-k3j9x0q1z"))
            (snd (fst (FileServiceRun.executeOrganize exampleClock exampleRandom
                         exampleRun exampleService 0)))
          = (FileService.Success,
             {| FileService.disk :=
                  FileService.rollbackOperations (FileService.operations entry)
                    (FileService.disk
                       (snd (fst (FileServiceRun.executeOrganize exampleClock
                                    exampleRandom exampleRun exampleService 0))));
                FileService.history := [] |})).
Proof.
  apply (proj1 (proj2 (fileService_history exampleClock exampleRandom exampleRun
                         exampleService 0))
           (js "1700000000000-k3j9x0q1z")).
  vm_compute. reflexivity.
Defined.

(** ** Rolling back a run of the service *)

Section ServiceRollback.
Import FS FileService FileServiceRun.
Variable Date_now : nat -> Z.

Lemma isPrefix_split (p q : list jsstring) :
  isPrefix p q = true -> exists r, q = p ++ r.
Proof.
  revert q. induction p as [|x p IH]; intros q; [by exists q|].
  destruct q as [|y q]; [done|]. simpl.
  intros [->%bool_decide_eq_true [r ->]%IH]%andb_true_iff. by exists r.
Qed.

Lemma lookup_app (p r : list jsstring) t :
  lookup (p ++ r) t = match lookup p t with Some c => lookup r c | None => None end.
Proof.
  revert t. induction p as [|x p IH]; intros t; [done|].
  simpl. destruct t as [|m]; [done|]. destruct (m !! x); [apply IH | done].
Qed.

Lemma rmdir_keeps_file p t t' q data :
  rmdir p t = Ok t' ->
  lookup q t = Some (File data) -> lookup q t' = Some (File data).
Proof.
  unfold rmdir. destruct (lookup p t) as [[c|m]|] eqn:Hp; [done| |done].
  case_bool_decide as Hm; [|done]. case_bool_decide; [done|].
  intros [= <-] Hq. apply lookup_File_update; [|done].
  destruct (isPrefix p q) eqn:Hpre; [|done]. exfalso.
  apply isPrefix_split in Hpre as [r ->].
  rewrite lookup_app, Hp, Hm in Hq. by destruct r.
Qed.

Lemma rollback_dir_keeps t op q data :
  type op = CreateDir ->
  lookup q t = Some (File data) ->
  lookup q (rollbackOperation t op) = Some (File data).
Proof.
  intros Hty Hq. unfold rollbackOperation. rewrite Hty.
  destruct (rmdir _ t) as [t'|e] eqn:Hr; [|done]. by eapply rmdir_keeps_file.
Qed.

Lemma rollback_dirs_keep ops t q data :
  Forall (fun op => type op = CreateDir) ops ->
  lookup q t = Some (File data) ->
  lookup q (rollbackOperations ops t) = Some (File data).
Proof.
  unfold rollbackOperations. intros Hops%List.Forall_rev. revert t.
  induction Hops as [|op l Hty _ IH]; intros t Hq; [done|].
  cbn [fold_left]. apply IH. by apply rollback_dir_keeps.
Qed.

Lemma createDirs_spec root cats t ops k t' ops' k' err :
  createDirs Date_now root cats (t, ops, k) = ((t', ops', k'), err) ->
  exists new,
    ops' = ops ++ new
    /\ Forall (fun op => type op = CreateDir) new
    /\ forall q data, lookup q t = Some (File data) -> lookup q t' = Some (File data).
Proof.
  revert t ops k. induction cats as [|c cats IH]; intros t ops k; simpl.
  - intros [= <- <- <- <-]. exists []. by rewrite List.app_nil_r.
  - destruct (mkdirp _ t) as [t1|e] eqn:Hm.
    + intros (new & -> & Hnew & Hkeep)%IH.
      eexists (_ :: new). rewrite <- List.app_assoc. split; [done|].
      split; [by constructor|]. intros q data Hq. apply Hkeep. by eapply mkdirp_file.
    + intros [= <- <- <- <-]. exists []. by rewrite List.app_nil_r.
Qed.

Lemma destination_fresh root t file :
  lookup (Path.resolve (destination root t file)) t = None.
Proof.
  unfold destination, fileExists, makeUniqueName.
  destruct (existsSync (Path.join [Path.join [root; rf_category file]; rf_newName file]) t)
    eqn:He.
  - apply exists_false. apply resolveConflict_unused.
  - by apply exists_false.
Qed.

Lemma moveFiles_inverse root files t ops k t' ops' k' err :
  moveFiles Date_now root files (t, ops, k) = ((t', ops', k'), err) ->
  exists new,
    ops' = ops ++ new
    /\ Forall (fun op => type op = Move) new
    /\ fold_left rollbackOperation (rev new) t' = t.
Proof.
  revert t ops k. induction files as [|file files IH]; intros t ops k; simpl.
  - intros [= <- <- <- <-]. exists []. by rewrite List.app_nil_r.
  - destruct (negb (rf_selected file)); [apply IH|].
    pose proof (destination_fresh root t file) as Hfresh.
    destruct (rename _ _ t) as [t1|e] eqn:Hr.
    + intros (new & -> & Hty & Hinv)%IH.
      eexists (_ :: new). rewrite <- List.app_assoc. split; [done|].
      split; [by constructor|].
      cbn [rev]. rewrite fold_left_app, Hinv. cbn [fold_left].
      unfold rollbackOperation. cbn [type targetPath sourcePath operation].
      destruct (absent_string _ _ Hfresh) as (c & r & Hd). rewrite Hd in *.
      cbn [nonEmpty]. by rewrite (rename_inverse _ _ _ _ Hfresh Hr).
    + intros [= <- <- <- <-]. exists []. by rewrite List.app_nil_r.
Qed.

Lemma steps_keep plan t k t' ops' k' err q data :
  duplicates plan = None ->
  steps Date_now plan (t, [], k) = ((t', ops', k'), err) ->
  lookup q t = Some (File data) ->
  lookup q (rollbackOperations ops' t') = Some (File data).
Proof.
  intros Hdup. unfold steps. rewrite Hdup.
  destruct (createDirs _ _ _ _) as [[[t1 ops1] k1] e1] eqn:H1.
  apply createDirs_spec in H1 as (dirs & Hops1 & Hdirs & Hkeep).
  simpl in Hops1. subst ops1.
  destruct e1 as [e1|].
  { intros [= <- <- <- <-] Hq. apply rollback_dirs_keep; [done | by apply Hkeep]. }
  destruct (moveFiles _ _ _ _) as [[[t2 ops2] k2] e2] eqn:H2.
  apply moveFiles_inverse in H2 as (moves & -> & _ & Hinv).
  assert (Hall : forall q data,
             lookup q t = Some (File data) ->
             lookup q (rollbackOperations (dirs ++ moves) t2) = Some (File data)).
  { intros q' data' Hq. unfold rollbackOperations.
    rewrite rev_app_distr, fold_left_app, Hinv.
    apply (rollback_dirs_keep dirs); [done | by apply Hkeep]. }
  destruct e2; intros [= <- <- <- <-]; apply Hall.
Qed.

End ServiceRollback.

(** X12: A run of the service without duplicate groups loses no file.  If it
    fails, the roll-back moves back what had been moved: every regular file
    of the tree before the run is at its path with its bytes, and the
    history is unchanged.  If it succeeds, undoing it at once does the
    same. *)
Theorem fileService_no_loss :
  forall Date_now random36 plan s tick q data,
    FileServiceRun.duplicates plan = None ->
    FS.lookup q (FileService.disk s) = Some (FS.File data) ->
    let out := FileServiceRun.executeOrganize Date_now random36 plan s tick in
    let s1 := snd (fst out) in
    match fst (fst out) with
    | FileServiceRun.RunFailure _ =>
      FS.lookup q (FileService.disk s1) = Some (FS.File data)
      /\ FileService.history s1 = FileService.history s
    | FileServiceRun.RunSuccess _ =>
      fst (FileService.undoOrganize None s1) = FileService.Success
      /\ FS.lookup q (FileService.disk (snd (FileService.undoOrganize None s1)))
         = Some (FS.File data)
    end.
Proof.
  intros Date_now random36 plan s tick q data Hdup Hq out s1. subst out s1.
  unfold FileServiceRun.executeOrganize.
  destruct (FileServiceRun.steps _ _ _) as [[[t ops] tick'] err] eqn:Hsteps.
  pose proof (steps_keep _ _ _ _ _ _ _ _ _ _ Hdup Hsteps Hq) as Hkeep.
  destruct err as [e|]; simpl; [done|].
  unfold FileService.undoOrganize. cbn [nonEmpty FileService.history].
  rewrite pushHistory_snoc, rev_unit. done.
Qed.

Lemma fileService_no_loss_witness :
  fst (FileService.undoOrganize None
         (snd (fst (FileServiceRun.executeOrganize exampleClock exampleRandom
                      exampleRun exampleService 0))))
  = FileService.Success
  /\ FS.lookup [js "d"; js "y.png"]
       (FileService.disk
          (snd (FileService.undoOrganize None
                  (snd (fst (FileServiceRun.executeOrganize exampleClock exampleRandom
                               exampleRun exampleService 0))))))
     = Some (FS.File [2]).
Proof.
  apply (fileService_no_loss exampleClock exampleRandom exampleRun exampleService 0
           [js "d"; js "y.png"] [2]); reflexivity.
Defined.

(** ** Undo by identifier *)

Section UndoById.
Import FileService.

Lemma find_none hid h :
  Forall (fun x => id x <> hid) h ->
  List.find (fun x => str_eqb (id x) hid) h = None.
Proof.
  induction 1 as [|x h Hx _ IH]; [done|]. simpl.
  unfold str_eqb. by rewrite bool_decide_eq_false_2.
Qed.

Lemma find_first hid pre x post :
  Forall (fun y => id y <> hid) pre -> id x = hid ->
  List.find (fun y => str_eqb (id y) hid) (pre ++ x :: post) = Some x
  /\ removeFirst hid (pre ++ x :: post) = pre ++ post.
Proof.
  intros Hpre Hx. induction Hpre as [|y pre Hy _ [IH1 IH2]]; simpl.
  - unfold str_eqb. by rewrite bool_decide_eq_true_2.
  - unfold str_eqb in *. rewrite bool_decide_eq_false_2 by done. by rewrite IH2.
Qed.

Lemma rollback_skipped ops t :
  Forall (fun op => type op = Rename
                    \/ (type op <> CreateDir /\ nonEmpty (targetPath op) = None)) ops ->
  rollbackOperations ops t = t.
Proof.
  unfold rollbackOperations. intros H%List.Forall_rev.
  induction H as [|op l Hop _ IH]; [done|]. cbn [fold_left].
  assert (rollbackOperation t op = t) as ->; [|done].
  unfold rollbackOperation. destruct Hop as [->|[Hty ->]]; [done|].
  by destruct (type op).
Qed.

End UndoById.

(** X13: [FileService.undoOrganize] with an identifier rolls back the first
    entry of the history that has it and removes that entry and no other,
    the rest keeping its order; an identifier that no entry has gives the
    failure 没有可撤销的操作 and changes nothing; the empty string counts as
    no identifier, and without identifier the newest entry is rolled back
    and removed.  A roll-back passes over every [rename] entry and every
    entry without target path. *)
Theorem fileService_undo_by_id :
  forall (hid : jsstring) (s : FileService.State),
    hid <> [] ->
    (Forall (fun h => FileService.id h <> hid) (FileService.history s) ->
     FileService.undoOrganize (Some hid) s
     = (FileService.Failure (js "没有可撤销的操作"), s))
    /\ (forall pre h post,
           FileService.history s = pre ++ h :: post ->
           Forall (fun x => FileService.id x <> hid) pre ->
           FileService.id h = hid ->
           FileService.undoOrganize (Some hid) s
           = (FileService.Success,
              {| FileService.disk :=
                   FileService.rollbackOperations (FileService.operations h)
                     (FileService.disk s);
                 FileService.history := pre ++ post |}))
    /\ FileService.undoOrganize (Some []) s = FileService.undoOrganize None s
    /\ (forall older h,
           FileService.history s = older ++ [h] ->
           FileService.undoOrganize None s
           = (FileService.Success,
              {| FileService.disk :=
                   FileService.rollbackOperations (FileService.operations h)
                     (FileService.disk s);
                 FileService.history := older |}))
    /\ (forall ops t,
           Forall (fun op => FileService.type op = FileService.Rename
                             \/ (FileService.type op <> FileService.CreateDir
                                 /\ nonEmpty (FileService.targetPath op) = None)) ops ->
           FileService.rollbackOperations ops t = t).
Proof.
  intros hid s Hne. destruct hid as [|c r]; [done|].
  split; [|split; [|split; [|split]]].
  - intros Hnone. unfold FileService.undoOrganize. cbn [nonEmpty].
    by rewrite find_none.
  - intros pre h post Hh Hpre Hid. unfold FileService.undoOrganize. cbn [nonEmpty].
    rewrite Hh. by destruct (find_first (c :: r) pre h post Hpre Hid) as [-> ->].
  - reflexivity.
  - intros older h Hh. unfold FileService.undoOrganize. cbn [nonEmpty].
    by rewrite Hh, rev_unit, rev_involutive.
  - intros. by apply rollback_skipped.
Qed.

Lemma fileService_undo_by_id_witness :
  FileService.undoOrganize (Some (js "run-3")) twoRuns
  = (FileService.Failure (js "没有可撤销的操作"), twoRuns)
  /\ FileService.undoOrganize (Some (js "run-1")) twoRuns
     = (FileService.Success,
        {| FileService.disk :=
             FileService.rollbackOperations
               (FileService.operations (emptyRun "run-1")) (FileService.disk twoRuns);
           FileService.history := [] ++ [emptyRun "run-2"] |}).
Proof.
  split.
  - apply (proj1 (fileService_undo_by_id (js "run-3") twoRuns ltac:(discriminate))).
    repeat constructor; discriminate.
  - apply (proj1 (proj2 (fileService_undo_by_id (js "run-1") twoRuns
                           ltac:(discriminate)))
             [] (emptyRun "run-1") [emptyRun "run-2"]).
    + reflexivity.
    + constructor.
    + reflexivity.
Defined.

(** * [data/mockData.ts] *)

Section ObjectFacts.
Import JSObject.
Context {V : Type}.

Lemma insertIndexed_perm (x : N * (jsstring * V)) l :
  Permutation (insertIndexed x l) (x :: l).
Proof.
  induction l as [|y l IH]; [done|]. simpl.
  destruct (fst x <=? fst y); [done|].
  rewrite IH. apply perm_swap.
Qed.

Lemma sorted_perm (l : list (N * (jsstring * V))) :
  Permutation (fold_right insertIndexed [] l) l.
Proof.
  induction l as [|x l IH]; [done|]. simpl.
  rewrite insertIndexed_perm. by constructor.
Qed.

Lemma entries_perm (m : OMap.t jsstring V) : Permutation (entries m) m.
Proof.
  unfold entries. rewrite sorted_perm.
  unfold indexed, named. induction m as [|kv m IH]; [done|].
  cbn [flat_map List.filter]. destruct (arrayIndex (fst kv)); simpl.
  - by constructor.
  - rewrite <- Permutation_middle. by constructor.
Qed.

Lemma entries_elem (m : OMap.t jsstring V) kv : kv ∈ entries m <-> kv ∈ m.
Proof. by rewrite entries_perm. Qed.

Lemma entries_keys_NoDup (m : OMap.t jsstring V) :
  NoDup (OMap.keys m) -> NoDup (List.map fst (entries m)).
Proof.
  intros H. unfold OMap.keys in H.
  assert (Hp : Permutation (List.map fst (entries m)) (List.map fst m))
    by apply Permutation_map, entries_perm.
  by rewrite Hp.
Qed.

Variable key : V -> jsstring.

Lemma pushTo_ok obj x :
  key x ∉ inherited ->
  pushTo obj (key x) x = Some (groupStep (fun y => Some (key y)) obj x).
Proof.
  intros Hk. unfold pushTo, groupStep.
  destruct (OMap.get obj (key x)) as [l|]; [done|].
  assert (arr_includes inherited (key x) = false) as ->; [|done].
  apply not_true_is_false. by rewrite arr_includes_elem.
Qed.

Lemma pushTo_throws obj x :
  key x ∈ inherited -> key x ∉ OMap.keys obj -> pushTo obj (key x) x = None.
Proof.
  intros Hk Hobj. unfold pushTo.
  apply omap_get_None in Hobj. rewrite Hobj.
  by apply arr_includes_elem in Hk as ->.
Qed.

Lemma groupStep_keys obj x k :
  k ∈ OMap.keys (groupStep (fun y => Some (key y)) obj x) ->
  k ∈ OMap.keys obj \/ k = key x.
Proof.
  unfold groupStep. rewrite omap_keys_set. case_bool_decide; [by left|].
  rewrite elem_of_app, list_elem_of_singleton. tauto.
Qed.

Lemma groupInto_spec xs obj :
  Forall (fun k => k ∉ inherited) (OMap.keys obj) ->
  (Forall (fun x => key x ∉ inherited) xs ->
   groupInto key xs obj = Some (fold_left (groupStep (fun y => Some (key y))) xs obj))
  /\ (Exists (fun x => key x ∈ inherited) xs -> groupInto key xs obj = None).
Proof.
  revert obj. induction xs as [|x xs IH]; intros obj Hobj.
  - split; [done | by intros H%Exists_nil].
  - assert (Hnext : key x ∉ inherited ->
                    Forall (fun k => k ∉ inherited)
                      (OMap.keys (groupStep (fun y => Some (key y)) obj x))).
    { intros Hx. apply Forall_forall. intros k [Hk| ->]%groupStep_keys; [|done].
      rewrite Forall_forall in Hobj. by apply Hobj. }
    cbn [groupInto fold_left]. split.
    + intros [Hx Hxs]%Forall_cons. rewrite pushTo_ok by done.
      by apply IH; [apply Hnext|].
    + intros Hex. destruct (decide (key x ∈ inherited)) as [Hin|Hx].
      * rewrite pushTo_throws; [done | done |].
        intros Hk. rewrite Forall_forall in Hobj. by apply (Hobj (key x)).
      * apply Exists_cons in Hex as [?|Hex]; [done|].
        rewrite pushTo_ok by done. by apply IH; [apply Hnext|].
Qed.

Lemma keyed_withKey k xs :
  keyed (fun y : V => Some (key y)) k xs = withKey key k xs.
Proof.
  unfold keyed, withKey. apply List.filter_ext. intros x. unfold str_eqb.
  apply eq_true_iff_eq. rewrite !bool_decide_eq_true. split; congruence.
Qed.

(** The object that a grouping loop builds, when it does not throw. *)
Lemma groupInto_Some xs obj :
  groupInto key xs [] = Some obj ->
  Forall (fun x => key x ∉ inherited) xs
  /\ NoDup (OMap.keys obj)
  /\ forall k l, (k, l) ∈ obj <-> l = withKey key k xs /\ l <> [].
Proof.
  intros H.
  assert (Hall : Forall (fun x => key x ∉ inherited) xs).
  { apply Forall_forall. intros x Hx Hin.
    destruct (groupInto_spec xs [] (Forall_nil_2 _)) as [_ Hthrow].
    rewrite Hthrow in H; [done|]. apply Exists_exists. eauto. }
  split; [done|].
  destruct (groupInto_spec xs [] (Forall_nil_2 _)) as [Hok _].
  rewrite (Hok Hall) in H. injection H as <-.
  destruct (group_fold (fun y => Some (key y)) xs []) as [Hnd Hget]; [constructor|].
  split; [done|]. intros k l. rewrite omap_elem_get by done.
  rewrite Hget, keyed_withKey. simpl.
  destruct (withKey key k xs) as [|y l']; split.
  - done.
  - by intros [-> ?].
  - intros [= <-]. done.
  - by intros [-> _].
Qed.

Lemma sumLen_set (m : OMap.t jsstring (list V)) k x :
  list_sum (List.map (fun kv => length (snd kv))
              (OMap.set m k (default [] (OMap.get m k) ++ [x])))
  = S (list_sum (List.map (fun kv => length (snd kv)) m)).
Proof.
  induction m as [|[k' v'] m IH]; [done|]. simpl.
  destruct (decide (k = k')) as [->|Hne]; simpl.
  - rewrite length_app. simpl. lia.
  - rewrite IH. lia.
Qed.

Lemma sumLen_group xs (m : OMap.t jsstring (list V)) :
  list_sum (List.map (fun kv => length (snd kv))
              (fold_left (groupStep (fun y => Some (key y))) xs m))
  = (list_sum (List.map (fun kv => length (snd kv)) m) + length xs)%nat.
Proof.
  revert m. induction xs as [|x xs IH]; intros m; simpl; [lia|].
  rewrite IH. unfold groupStep. rewrite sumLen_set. lia.
Qed.

End ObjectFacts.

Lemma list_sum_perm (l l' : list nat) : Permutation l l' -> list_sum l = list_sum l'.
Proof. induction 1; simpl; lia. Qed.

Lemma filter_partition_length {A} (p : A -> bool) (l : list A) :
  (length (List.filter (fun x => negb (p x)) l) + length (List.filter p l))%nat
  = length l.
Proof. induction l as [|x l IH]; [done|]. simpl. destruct (p x); simpl; lia. Qed.

Lemma duplicateCount_sum (gs : list MockData.DuplicateGroup) n :
  Forall (fun g => (1 <= length (MockData.g_files g))%nat) gs ->
  (fold_left (fun sum g => (sum + length (MockData.g_files g) - 1)%nat) gs n
   + length gs)%nat
  = (n + length (flat_map MockData.g_files gs))%nat.
Proof.
  intros H. revert n. induction H as [|g gs Hg _ IH]; intros n; simpl; [lia|].
  rewrite length_app. specialize (IH (n + length (MockData.g_files g) - 1)%nat). lia.
Qed.

(** X14: [generateOrganizePlan] throws exactly when the category of some item,
    or its hash (the string "no-hash" standing in for a missing or empty
    one), is the name of a property of [Object.prototype]. *)
Theorem generateOrganizePlan_throws :
  forall files : list MockData.FileItem,
    MockData.generateOrganizePlan files = None
    <-> exists f, f ∈ files
                  /\ (MockData.category f ∈ JSObject.inherited
                      \/ MockData.hashKey f ∈ JSObject.inherited).
Proof.
  intros files. unfold MockData.generateOrganizePlan.
  destruct (groupInto_spec MockData.category files [] (Forall_nil_2 _))
    as [Hc1 Hc2].
  destruct (groupInto_spec MockData.hashKey files [] (Forall_nil_2 _))
    as [Hh1 Hh2].
  destruct (decide (Forall (fun x => MockData.category x ∉ JSObject.inherited) files))
    as [Hc|Hc].
  - rewrite (Hc1 Hc).
    destruct (decide (Forall (fun x => MockData.hashKey x ∉ JSObject.inherited) files))
      as [Hh|Hh].
    + rewrite (Hh1 Hh). split; [done|].
      intros (f & Hf & [Hin|Hin]); rewrite Forall_forall in Hc, Hh.
      * by apply Hc in Hf.
      * by apply Hh in Hf.
    + apply not_Forall_Exists in Hh; [|intros x; apply not_dec, _].
      assert (Hex : Exists (fun x => MockData.hashKey x ∈ JSObject.inherited) files).
      { eapply Exists_impl; [exact Hh|]. intros x Hx. simpl in Hx.
        by destruct (decide (MockData.hashKey x ∈ JSObject.inherited)). }
      rewrite (Hh2 Hex). split; [|done]. intros _.
      apply Exists_exists in Hex as (f & Hf & Hin). eauto.
  - apply not_Forall_Exists in Hc; [|intros x; apply not_dec, _].
    assert (Hex : Exists (fun x => MockData.category x ∈ JSObject.inherited) files).
    { eapply Exists_impl; [exact Hc|]. intros x Hx. simpl in Hx.
      by destruct (decide (MockData.category x ∈ JSObject.inherited)). }
    rewrite (Hc2 Hex). split; [|done]. intros _.
    apply Exists_exists in Hex as (f & Hf & Hin). eauto.
Qed.

Lemma generateOrganizePlan_throws_witness :
  MockData.generateOrganizePlan [mockItem "a.jpg" (js "constructor") None] = None.
Proof.
  apply (proj2 (generateOrganizePlan_throws [mockItem "a.jpg" (js "constructor") None])).
  exists (mockItem "a.jpg" (js "constructor") None). split; [left|].
  left. vm_compute. do 0 right. left.
Defined.

Section PlanFacts.
Import MockData.

Lemma NoDup_filter_keys {K A} (p : K * A -> bool) (l : list (K * A)) :
  NoDup (List.map fst l) -> NoDup (List.map fst (List.filter p l)).
Proof.
  induction l as [|x l IH]; [done|]. simpl. intros [Hx Hnd]%NoDup_cons.
  destruct (p x); simpl; [|by apply IH].
  apply NoDup_cons. split; [|by apply IH].
  intros (y & Hy & Hin%list_elem_of_In%filter_In)%list_elem_of_fmap.
  apply Hx. apply list_elem_of_fmap. exists y. split; [done|].
  apply list_elem_of_In. tauto.
Qed.

Lemma filter_elem {A} (p : A -> bool) (l : list A) x :
  x ∈ List.filter p l <-> x ∈ l /\ p x = true.
Proof. by rewrite !list_elem_of_In, filter_In. Qed.

(** The plan, once the two grouping loops have run. *)
Lemma generateOrganizePlan_Some items plan :
  generateOrganizePlan items = Some plan ->
  exists cats hm,
    JSObject.groupInto category items [] = Some cats
    /\ JSObject.groupInto hashKey items [] = Some hm
    /\ files plan = items
    /\ categories plan = cats
    /\ duplicates plan
       = List.map (fun '(h, fs) => {| g_hash := h; g_files := fs; keepIndex := 0%Z |})
           (List.filter (fun '(_, fs) => (1 <? length fs)%nat) (JSObject.entries hm))
    /\ categoriesNeedingFolders plan
       = List.map fst (List.filter needsFolder (JSObject.entries cats))
    /\ categorizedCount (stats plan)
       = List.map (fun '(k, v) => (k, length v)) (JSObject.entries cats)
    /\ totalFiles (stats plan)
       = length (List.filter (fun f => negb (truthy (isDirectory f))) items)
    /\ totalFolders (stats plan)
       = length (List.filter (fun f => truthy (isDirectory f)) items)
    /\ duplicateCount (stats plan)
       = fold_left (fun sum g => (sum + length (g_files g) - 1)%nat) (duplicates plan) 0%nat.
Proof.
  unfold generateOrganizePlan.
  destruct (JSObject.groupInto category items []) as [cats|]; [|done].
  destruct (JSObject.groupInto hashKey items []) as [hm|]; [|done].
  intros [= <-]. exists cats, hm. by repeat split.
Qed.

End PlanFacts.

(** X15: When [generateOrganizePlan] returns, a category is listed for a folder
    exactly when at least three items, directories included, have it and it
    is none of 快捷方式, 其他 and 文件夹; [categories] holds for each
    category that occurs its items in input order; the counts per category
    are the sizes of these lists and add up to the number of items, as do
    [totalFiles] and [totalFolders]. *)
Theorem mock_plan_categories :
  forall items plan,
    MockData.generateOrganizePlan items = Some plan ->
    MockData.files plan = items
    /\ (forall c l, (c, l) ∈ MockData.categories plan
                    <-> l = withKey MockData.category c items /\ l <> [])
    /\ (forall c, c ∈ MockData.categoriesNeedingFolders plan
                  <-> (3 <= length (withKey MockData.category c items))%nat
                      /\ c <> Shortcut /\ c <> Other /\ c <> Folder)
    /\ NoDup (MockData.categoriesNeedingFolders plan)
    /\ (forall c n, (c, n) ∈ MockData.categorizedCount (MockData.stats plan)
                    <-> n = length (withKey MockData.category c items) /\ n <> 0%nat)
    /\ list_sum (List.map snd (MockData.categorizedCount (MockData.stats plan)))
       = length items
    /\ (MockData.totalFiles (MockData.stats plan)
        + MockData.totalFolders (MockData.stats plan))%nat = length items.
Proof.
  intros items plan
    (cats & hm & Hcats & _ & Hfiles & Hc & _ & Hneed & Hcount & Htf & Htd & _)%generateOrganizePlan_Some.
  pose proof (groupInto_Some MockData.category items cats Hcats) as (Hall & Hnd & Hmem).
  rewrite Hfiles, Hc, Hneed, Hcount, Htf, Htd.
  split; [done|]. split; [done|]. split; [|split; [|split; [|split]]].
  - intros c. rewrite list_elem_of_fmap. split.
    + intros ([c' l] & -> & [Hin Hp]%filter_elem).
      apply entries_elem, Hmem in Hin as [-> _]. simpl.
      unfold MockData.needsFolder in Hp. cbn [fst snd] in Hp.
      rewrite !andb_true_iff, !negb_true_iff in Hp.
      destruct Hp as [[[H3%Nat.leb_le H1%bool_decide_eq_false] H2%bool_decide_eq_false]
                        H4%bool_decide_eq_false].
      done.
    + intros (H3 & H1 & H2 & H4).
      exists (c, withKey MockData.category c items). split; [done|].
      apply filter_elem. split.
      * apply entries_elem, Hmem. split; [done|].
        intros E. rewrite E in H3. simpl in H3. lia.
      * unfold MockData.needsFolder, str_eqb. cbn [fst snd].
        rewrite !andb_true_iff, !negb_true_iff, !bool_decide_eq_false, Nat.leb_le.
        done.
  - apply NoDup_filter_keys. by apply entries_keys_NoDup.
  - intros c n. rewrite list_elem_of_fmap. split.
    + intros ([c' l] & Heq & Hin). injection Heq as Hc' Hn'. subst c n.
      apply entries_elem, Hmem in Hin as [-> Hne]. split; [done|].
      by destruct (withKey MockData.category c' items).
    + intros [-> Hne]. exists (c, withKey MockData.category c items).
      split; [done|]. apply entries_elem, Hmem. split; [done|].
      intros E. by rewrite E in Hne.
  - rewrite List.map_map.
    assert (Hp : Permutation
                   (List.map (fun x => snd (let '(k, v) := x in (k, length v)))
                      (JSObject.entries cats))
                   (List.map (fun kv => length (snd kv)) cats)).
    { rewrite (List.map_ext _ (fun kv => length (snd kv))) by (by intros [k v]).
      apply Permutation_map, entries_perm. }
    rewrite (list_sum_perm _ _ Hp).
    destruct (groupInto_spec MockData.category items [] (Forall_nil_2 _)) as [Hok _].
    rewrite (Hok Hall) in Hcats. injection Hcats as <-.
    by rewrite sumLen_group.
  - apply filter_partition_length.
Qed.

Lemma mock_plan_categories_witness :
  exists plan,
    MockData.generateOrganizePlan mockItems = Some plan
    /\ MockData.categoriesNeedingFolders plan = [Image]
    /\ (Image ∈ MockData.categoriesNeedingFolders plan
        <-> (3 <= length (withKey MockData.category Image mockItems))%nat
            /\ Image <> Shortcut /\ Image <> Other /\ Image <> Folder).
Proof.
  eexists. split; [vm_compute; reflexivity|]. split; [vm_compute; reflexivity|].
  apply (proj1 (proj2 (proj2 (mock_plan_categories mockItems _ ltac:(vm_compute; reflexivity))))
           Image).
Defined.

(** X16: The duplicate groups are the hashes that at least two items have, each
    with all the items of that hash in input order and [keepIndex] 0, the
    items without a hash counting as having the hash "no-hash": two items
    without hash form a group.  [duplicateCount] is the number of grouped
    items less the number of groups. *)
Theorem mock_plan_duplicates :
  forall items plan,
    MockData.generateOrganizePlan items = Some plan ->
    NoDup (List.map MockData.g_hash (MockData.duplicates plan))
    /\ (forall g, g ∈ MockData.duplicates plan
                  <-> MockData.keepIndex g = 0%Z
                      /\ MockData.g_files g
                         = withKey MockData.hashKey (MockData.g_hash g) items
                      /\ (2 <= length (MockData.g_files g))%nat)
    /\ (MockData.duplicateCount (MockData.stats plan)
        + length (MockData.duplicates plan))%nat
       = length (flat_map MockData.g_files (MockData.duplicates plan))
    /\ (forall a b,
           a ∈ items -> b ∈ items -> a <> b ->
           MockData.hash a = None -> MockData.hash b = None ->
           exists g, g ∈ MockData.duplicates plan
                     /\ MockData.g_hash g = js "no-hash"
                     /\ a ∈ MockData.g_files g /\ b ∈ MockData.g_files g).
Proof.
  intros items plan
    (cats & hm & _ & Hhm & _ & _ & Hdup & _ & _ & _ & _ & Hcount)%generateOrganizePlan_Some.
  pose proof (groupInto_Some MockData.hashKey items hm Hhm) as (Hall & Hnd & Hmem).
  assert (Hgroups : forall g, g ∈ MockData.duplicates plan
            <-> MockData.keepIndex g = 0%Z
                /\ MockData.g_files g = withKey MockData.hashKey (MockData.g_hash g) items
                /\ (2 <= length (MockData.g_files g))%nat).
  { intros g. rewrite Hdup, list_elem_of_fmap. split.
    - intros ([h l] & -> & [Hin Hp]%filter_elem). simpl.
      apply entries_elem, Hmem in Hin as [-> _]. apply Nat.ltb_lt in Hp.
      repeat split; lia.
    - intros (Hk & Hf & Hl). exists (MockData.g_hash g, MockData.g_files g). split.
      + destruct g; simpl in *. by subst.
      + apply filter_elem. split; [|apply Nat.ltb_lt; lia].
        apply entries_elem, Hmem. split; [done|].
        intros E. rewrite E in Hl. simpl in Hl. lia. }
  split; [|split; [done|split]].
  - rewrite Hdup, List.map_map.
    rewrite (List.map_ext _ fst) by (by intros [h l]).
    apply NoDup_filter_keys. by apply entries_keys_NoDup.
  - rewrite Hcount.
    rewrite (duplicateCount_sum (MockData.duplicates plan) 0); [lia|].
    apply Forall_forall. intros g Hg%Hgroups. lia.
  - intros a b Ha Hb Hab Hha Hhb.
    set (l := withKey MockData.hashKey (js "no-hash") items).
    assert (Hin : forall x, x ∈ items -> MockData.hash x = None -> x ∈ l).
    { intros x Hx Hh. apply filter_elem. split; [done|].
      unfold str_eqb, MockData.hashKey. rewrite Hh. by apply bool_decide_eq_true. }
    exists {| MockData.g_hash := js "no-hash"; MockData.g_files := l;
              MockData.keepIndex := 0%Z |}.
    split; [|by repeat split; apply Hin].
    apply Hgroups. simpl. split; [done|]. split; [done|].
    pose proof (Hin a Ha Hha) as Hal. pose proof (Hin b Hb Hhb) as Hbl.
    destruct l as [|x [|y l']]; simpl; [by apply elem_of_nil in Hal| |lia].
    apply list_elem_of_singleton in Hal, Hbl. congruence.
Qed.

Lemma mock_plan_duplicates_witness :
  exists g,
    g ∈ [ {| MockData.g_hash := js "no-hash";
             MockData.g_files := [mockItem "a.jpg" Image None; mockItem "c.jpg" Image None];
             MockData.keepIndex := 0%Z |} ]
    /\ MockData.g_hash g = js "no-hash"
    /\ mockItem "a.jpg" Image None ∈ MockData.g_files g
    /\ mockItem "c.jpg" Image None ∈ MockData.g_files g.
Proof.
  assert (Hplan : exists plan, MockData.generateOrganizePlan mockItems = Some plan
                    /\ MockData.duplicates plan
                       = [ {| MockData.g_hash := js "no-hash";
                              MockData.g_files :=
                                [mockItem "a.jpg" Image None; mockItem "c.jpg" Image None];
                              MockData.keepIndex := 0%Z |} ]).
  { eexists. split; vm_compute; reflexivity. }
  destruct Hplan as (plan & Hplan & Hd). rewrite <- Hd.
  apply (proj2 (proj2 (proj2 (mock_plan_duplicates mockItems plan Hplan)))
           (mockItem "a.jpg" Image None) (mockItem "c.jpg" Image None)).
  - left.
  - right. right. left.
  - discriminate.
  - reflexivity.
  - reflexivity.
Defined.

(** * Names of hexadecimal digits *)

Section HexNames.

Lemma rep_all {A} (mem : N -> bool) lo s (k : jsstring -> option A) v :
  forallb mem s = true -> (lo <= length s)%nat -> k [] = Some v ->
  rep mem lo None s k = Some v.
Proof.
  revert lo. induction s as [|c s IH]; intros lo Hall Hlo Hk.
  - simpl in Hlo. assert (lo = 0%nat) as -> by lia. done.
  - simpl in Hall. apply andb_prop in Hall as [Hc Hs].
    cbn [rep option_map]. rewrite Hc.
    rewrite (IH (pred lo) Hs); [done | simpl in Hlo; lia | done].
Qed.

Lemma isHexDigit_class c : isHexDigit c = true -> class_mem true af09 c = true.
Proof.
  unfold isHexDigit, class_mem, af09, is_digit, swapcase. cbn [existsb item_mem].
  rewrite !orb_true_iff, !andb_true_iff, !N.leb_le. intros H.
  destruct (N.leb_spec 65 c), (N.leb_spec c 90); cbn [andb];
    try (destruct (N.leb_spec 97 c), (N.leb_spec c 122); cbn [andb]);
    rewrite ?orb_true_iff, ?andb_true_iff, ?N.leb_le; lia.
Qed.

End HexNames.

(** X17: A file whose base name has at least eight characters, all of them
    hexadecimal digits, has a messy name; so has every file named by eight
    or more decimal digits, a date such as 20231215 included. *)
Theorem hex_names_are_messy :
  forall fileName,
    let name := Path.basename fileName (Path.extname fileName) in
    (8 <= length name)%nat ->
    (forallb isHexDigit name = true -> isMessyFileName fileName = true)
    /\ (forallb is_digit name = true -> isMessyFileName fileName = true).
Proof.
  intros fileName name Hlen.
  assert (Hhex : forallb isHexDigit name = true -> isMessyFileName fileName = true).
  { intros Hall. unfold isMessyFileName. fold name.
    destruct (Nat.ltb_spec (length name) 4); [lia|].
    unfold messyPatterns. cbn [existsb].
    assert (Ht : test (Pi [Rep af09 8 None; Eos]) name = true); [|by rewrite Ht].
    unfold test, exec, Pi. cbn [anchored]. unfold match_here. cbn [icase body cat fold_right].
    rewrite run_Seq. cbn [run].
    erewrite rep_all; [done | | done | reflexivity].
    rewrite forallb_forall in Hall |- *. intros c Hc. by apply isHexDigit_class, Hall. }
  split; [done|]. intros Hd. apply Hhex.
  rewrite forallb_forall in Hd |- *. intros c Hc. unfold isHexDigit. by rewrite (Hd c Hc).
Qed.

Lemma hex_names_are_messy_witness :
  isMessyFileName (js "20231215.pdf") = true
  /\ isMessyFileName (js "DeadBeef00.bin") = true.
Proof.
  split.
  - apply (proj2 (hex_names_are_messy (js "20231215.pdf") ltac:(vm_compute; lia))).
    reflexivity.
  - apply (proj1 (hex_names_are_messy (js "DeadBeef00.bin") ltac:(vm_compute; lia))).
    reflexivity.
Defined.

(** * From the renderer to the handlers *)

Section ExecutingFacts.

Lemma processFile_unflagged folder st file :
  p_needsMove file = false -> p_needsRename file = false ->
  processFile folder st file = st.
Proof.
  intros Hm Hr. destruct st as [t ops]. unfold processFile, targetPathOf.
  rewrite Hm, Hr. unfold str_eqb. by rewrite bool_decide_eq_true_2.
Qed.

Lemma processFiles_unflagged folder files st :
  Forall (fun file => p_needsMove file = false /\ p_needsRename file = false) files ->
  fold_left (processFile folder) files st = st.
Proof.
  intros H. revert st. induction H as [|file files [Hm Hr] _ IH]; intros st; [done|].
  cbn [fold_left]. by rewrite processFile_unflagged.
Qed.

Lemma organizePlan_unflagged folder plan :
  Forall (fun file => p_needsMove file = false /\ p_needsRename file = false)
    (plan_files (App.organizePlan folder plan)).
Proof.
  unfold App.organizePlan. cbn [plan_files]. apply Forall_forall.
  intros file (f & -> & _)%list_elem_of_fmap. done.
Qed.

End ExecutingFacts.

(** X18: The plan that the Executing component sends has no file flagged for a
    move or a rename, so the handler passes over every file of it: a
    successful run reports no moved and no renamed file, and logs only
    directory creations and duplicate removals. *)
Theorem executing_moves_nothing :
  forall tempDir Date_now folder (plan : MockData.OrganizePlan) w m r d c,
    fst (executeOrganize tempDir Date_now (App.organizePlan folder plan) w)
    = ExecSuccess m r d c ->
    m = 0%nat /\ r = 0%nat
    /\ exists log,
        undoStack (snd (executeOrganize tempDir Date_now (App.organizePlan folder plan) w))
        = undoStack w ++ [log]
        /\ Forall (fun op => type op = Mkdir \/ type op = Delete) (operations log).
Proof.
  intros tempDir Date_now folder plan w m r d c.
  pose proof (organizePlan_unflagged folder plan) as Hflags.
  set (sent := App.organizePlan folder plan) in *.
  unfold executeOrganize.
  change (folderPath sent) with folder.
  destruct (FS.mkdirp _ (disk w)) as [t0|e]; [|done].
  destruct (createCategories _ _ _) as [[[t1 created] ops1] [e|]] eqn:Hc; [done|].
  apply createCategories_ops in Hc as (mk & Hops & Hmk). simpl in Hops. subst ops1.
  rewrite (processFiles_unflagged folder (plan_files sent) (t1, mk) Hflags).
  match goal with
  | |- context [fold_left (processDuplicate ?dn ?bd) ?dups ?st] =>
    destruct (processDuplicates_ops dn bd dups t1 mk (S (ticks w)))
      as (t3 & dl & -> & Hdl & _)
  end.
  simpl. intros [= <- <- <- <-].
  rewrite !countType_app.
  rewrite (countType_none Move mk), (countType_none Rename mk),
    (countType_none Move dl), (countType_none Rename dl).
  - split; [done|]. split; [done|]. eexists. split; [done|]. simpl.
    apply Forall_app. split.
    + eapply Forall_impl; [exact Hmk|]. intros op ->. by left.
    + eapply Forall_impl; [exact Hdl|]. intros op [-> _]. by right.
  - eapply Forall_impl; [exact Hdl|]. by intros op [-> _].
  - eapply Forall_impl; [exact Hdl|]. by intros op [-> _].
  - eapply Forall_impl; [exact Hmk|]. by intros op ->.
  - eapply Forall_impl; [exact Hmk|]. by intros op ->.
Qed.

Lemma executing_moves_nothing_witness :
  0%nat = 0%nat /\ 0%nat = 0%nat
  /\ exists log,
      undoStack (snd (executeOrganize (js "/tmp") exampleClock
                        (App.organizePlan (js "/d") exampleDesktopPlan) exampleWorld))
      = undoStack exampleWorld ++ [log]
      /\ Forall (fun op => type op = Mkdir \/ type op = Delete) (operations log).
Proof.
  apply (executing_moves_nothing (js "/tmp") exampleClock (js "/d") exampleDesktopPlan
           exampleWorld 0 0 2 2).
  vm_compute. reflexivity.
Defined.

(** X19: The Executing component asks for a directory for every category that
    occurs among the items of a generated plan, and for no other: the
    number of items of a category plays no part. *)
Theorem executing_requests_every_category :
  forall folder items plan,
    MockData.generateOrganizePlan items = Some plan ->
    NoDup (categories (App.organizePlan folder plan))
    /\ forall c, c ∈ categories (App.organizePlan folder plan)
                 <-> exists f, f ∈ items /\ MockData.category f = c.
Proof.
  intros folder items plan
    (cats & hm & Hcats & _ & _ & Hc & _)%generateOrganizePlan_Some.
  pose proof (groupInto_Some MockData.category items cats Hcats) as (_ & Hnd & Hmem).
  unfold App.organizePlan. cbn [categories]. rewrite Hc.
  split; [by apply entries_keys_NoDup|].
  intros c. rewrite list_elem_of_fmap. split.
  - intros ([c' l] & -> & Hin). apply (proj1 (entries_elem _ _)) in Hin.
    apply Hmem in Hin as [-> Hne]. simpl.
    destruct (withKey MockData.category c' items) as [|f l'] eqn:E; [done|].
    assert (Hf : f ∈ withKey MockData.category c' items) by (rewrite E; left).
    apply filter_elem in Hf as [Hf Hk%bool_decide_eq_true]. eauto.
  - intros (f & Hf & <-).
    exists (MockData.category f, withKey MockData.category (MockData.category f) items).
    split; [done|]. apply (proj2 (entries_elem _ _)), Hmem. split; [done|].
    intros E.
    assert (Hin : f ∈ withKey MockData.category (MockData.category f) items).
    { apply filter_elem. split; [done|]. by apply bool_decide_eq_true. }
    rewrite E in Hin. by apply elem_of_nil in Hin.
Qed.

Lemma executing_requests_every_category_witness :
  NoDup (categories (App.organizePlan (js "/d") mockPlan))
  /\ forall c, c ∈ categories (App.organizePlan (js "/d") mockPlan)
               <-> exists f, f ∈ mockItems /\ MockData.category f = c.
Proof.
  apply (executing_requests_every_category (js "/d") mockItems mockPlan).
  vm_compute. reflexivity.
Defined.

(** * The duplicates of a desktop plan *)

Lemma groupInto_same {V} (key : V -> jsstring) k xs l :
  Forall (fun x => key x = k) xs ->
  JSObject.groupInto key xs [(k, l)] = Some [(k, l ++ xs)].
Proof.
  intros H. revert l. induction H as [|x xs Hx _ IH]; intros l.
  - by rewrite app_nil_r.
  - cbn [JSObject.groupInto]. unfold JSObject.pushTo. rewrite Hx.
    cbn [OMap.get OMap.set]. rewrite !decide_True by done.
    rewrite IH. by rewrite <- List.app_assoc.
Qed.

Lemma groupInto_const {V} (key : V -> jsstring) k xs :
  k ∉ JSObject.inherited -> xs <> [] ->
  Forall (fun x => key x = k) xs ->
  JSObject.groupInto key xs [] = Some [(k, xs)].
Proof.
  intros Hk Hne H. destruct H as [|x xs Hx H]; [done|].
  cbn [JSObject.groupInto]. unfold JSObject.pushTo. rewrite Hx.
  cbn [OMap.get OMap.set].
  assert (arr_includes JSObject.inherited k = false) as ->.
  { apply not_true_is_false. intros Hin. apply Hk. by apply arr_includes_elem. }
  by rewrite groupInto_same.
Qed.

Lemma entries_single {V} (k : jsstring) (v : V) : JSObject.entries [(k, v)] = [(k, v)].
Proof.
  unfold JSObject.entries, JSObject.indexed, JSObject.named. simpl.
  by destruct (JSObject.arrayIndex k).
Qed.

Lemma othersThan_shifted {A} (g : nat -> nat) (l : list A) :
  (forall i, g i <> 0%nat) ->
  List.map snd
    (List.filter (fun ix : nat * A => negb (Z.of_nat (fst ix) =? 0)%Z)
       (imap (fun i x => (g i, x)) l)) = l.
Proof.
  revert g. induction l as [|x l IH]; intros g Hg; [done|].
  cbn [imap List.filter fst].
  destruct (Z.eqb_spec (Z.of_nat (g 0%nat)) 0) as [E|_].
  { specialize (Hg 0%nat). lia. }
  cbn [negb List.map snd]. f_equal.
  apply (IH (fun i => g (S i))). intros i. apply Hg.
Qed.

Lemma othersThan_first {A} (l : list A) : App.othersThan 0 l = tail l.
Proof.
  destruct l as [|x l]; [done|]. unfold App.othersThan.
  cbn [imap List.filter fst]. cbn [Z.of_nat Z.eqb negb tail].
  apply (othersThan_shifted S). lia.
Qed.

Section DesktopFacts.

Variable Date_value : jsstring -> option Z.
Variable Date_now : nat -> Z.

Lemma convert_paths scannedFiles rs tick :
  List.map MockData.path (App.convertToFileItems Date_value Date_now scannedFiles rs tick)
  = List.map App.path scannedFiles.
Proof.
  unfold App.convertToFileItems. apply list_eq. intros i.
  rewrite !list_lookup_fmap, list_lookup_imap.
  by destruct (scannedFiles !! i).
Qed.

Lemma convert_length scannedFiles rs tick :
  length (App.convertToFileItems Date_value Date_now scannedFiles rs tick)
  = length scannedFiles.
Proof. unfold App.convertToFileItems. apply length_imap. Qed.

Lemma convert_no_hash scannedFiles rs tick :
  Forall (fun f => MockData.hashKey f = js "no-hash")
    (App.convertToFileItems Date_value Date_now scannedFiles rs tick).
Proof.
  apply Forall_forall. intros f Hf. unfold App.convertToFileItems in Hf.
  apply elem_of_lookup_imap_1 in Hf as (i & sf & -> & _). done.
Qed.

End DesktopFacts.

Lemma keepIndexOf_markKeep group :
  group <> [] -> App.keepIndexOf (markKeep group) = 0%Z.
Proof. by destruct group. Qed.

Lemma markKeep_paths group : List.map m_path (markKeep group) = List.map d_path group.
Proof.
  unfold markKeep. apply list_eq. intros i.
  rewrite !list_lookup_fmap, list_lookup_imap. by destruct (group !! i).
Qed.

Lemma detected_nonempty h inputs :
  Forall (fun d => files d <> []) (detectDuplicates h inputs).
Proof.
  unfold detectDuplicates. apply Forall_forall. intros d Hd.
  apply list_elem_of_In, in_flat_map in Hd as ([k group] & _ & Hd).
  destruct group as [|a [|b group]]; simpl in Hd; [done|done|].
  destruct Hd as [<-|[]]. done.
Qed.

Lemma detected_keep_first h inputs :
  Forall (fun d => App.keepIndexOf (files d) = 0%Z) (detectDuplicates h inputs).
Proof.
  unfold detectDuplicates. apply Forall_forall. intros d Hd.
  apply list_elem_of_In, in_flat_map in Hd as ([k group] & _ & Hd).
  destruct group as [|a [|b group]]; simpl in Hd; [done|done|].
  destruct Hd as [<-|[]]. done.
Qed.

Lemma map_tail {A B} (f : A -> B) (l : list A) : List.map f (tail l) = tail (List.map f l).
Proof. by destruct l. Qed.

Section ConvertedFacts.

Variable Date_now : nat -> Z.

Lemma convertMember_paths h tick (members : list DupMember) :
  List.map MockData.path
    (imap (fun idx f => App.convertMember Date_now h (tick + 2 * idx) idx f) members)
  = List.map m_path members.
Proof.
  apply list_eq. intros i.
  rewrite !list_lookup_fmap, list_lookup_imap. by destruct (members !! i).
Qed.

Lemma converted_to_delete dups tick :
  Forall (fun d => App.keepIndexOf (files d) = 0%Z) dups ->
  flat_map (fun g => List.map MockData.path
                       (App.othersThan (MockData.keepIndex g) (MockData.g_files g)))
    (App.convertDuplicates Date_now dups tick)
  = flat_map (fun d => List.map m_path (tail (files d))) dups.
Proof.
  intros H. revert tick. induction H as [|d dups Hd _ IH]; intros tick; [done|].
  cbn [App.convertDuplicates flat_map MockData.keepIndex MockData.g_files].
  rewrite IH, Hd, othersThan_first. f_equal.
  rewrite !map_tail. f_equal. apply convertMember_paths.
Qed.

End ConvertedFacts.

Lemma extra_count (dups : list DuplicateGroup) n :
  Forall (fun d => files d <> []) dups ->
  fold_left (fun sum d => (sum + length (files d) - 1)%nat) dups n
  = (n + length (flat_map (fun d => List.map m_path (tail (files d))) dups))%nat.
Proof.
  intros H. revert n. induction H as [|d dups Hd _ IH]; intros n; simpl; [lia|].
  rewrite IH, length_app, length_map. destruct (files d); [done|]. simpl. lia.
Qed.

Section PlanFacts.

Variable Date_value : jsstring -> option Z.
Variable Date_now : nat -> Z.

Lemma planFrom_cases scannedFiles rs dups tick plan :
  scannedFiles <> [] ->
  App.planFrom Date_value Date_now scannedFiles rs dups tick = Some plan ->
  exists generated,
    MockData.generateOrganizePlan
      (App.convertToFileItems Date_value Date_now scannedFiles (Some rs) tick)
    = Some generated
    /\ (dups = [] -> plan = generated)
    /\ (dups <> [] ->
        plan = App.withDuplicates generated
                 (App.convertDuplicates Date_now dups (tick + length scannedFiles))
                 (fold_left (fun sum d => (sum + length (files d) - 1)%nat) dups 0%nat)).
Proof.
  intros Hne. unfold App.planFrom. destruct scannedFiles as [|sf rest]; [done|].
  destruct (MockData.generateOrganizePlan _) as [generated|]; [|done].
  destruct dups as [|d dups]; simpl; intros [= <-]; exists generated; by repeat split.
Qed.

End PlanFacts.

(** X20: The items made from a scan carry no hash, so the generated plan holds
    one group, keyed no-hash, of all of them with the first kept.  When the
    duplicate detection finds nothing the plan keeps that group: it counts
    every scanned entry but the first as a duplicate, and the Executing
    component lists the paths of all of them for removal. *)
Theorem desktop_plan_no_hash_group :
  forall Date_value Date_now Date_parse currentUser now isOpencodeAvailable oracle
         calculateFileHash scannedFiles tick plan,
    (2 <= length scannedFiles)%nat ->
    detectDuplicates calculateFileHash (App.filesForDupCheck scannedFiles) = [] ->
    App.handleScanComplete Date_value Date_now Date_parse currentUser now
      isOpencodeAvailable oracle calculateFileHash scannedFiles tick = Some plan ->
    MockData.duplicates plan
    = [ {| MockData.g_hash := js "no-hash"; MockData.g_files := MockData.files plan;
           MockData.keepIndex := 0 |} ]
    /\ List.map MockData.path (MockData.files plan) = List.map App.path scannedFiles
    /\ MockData.duplicateCount (MockData.stats plan) = (length scannedFiles - 1)%nat
    /\ forall folder,
        duplicatesToDelete (App.organizePlan folder plan)
        = List.map App.path (tail scannedFiles).
Proof.
  intros Date_value Date_now Date_parse currentUser now isOpencodeAvailable oracle
    calculateFileHash scannedFiles tick plan Hlen Hnone.
  unfold App.handleScanComplete. rewrite Hnone. intros Hplan.
  apply planFrom_cases in Hplan as (generated & Hgen & Heq & _);
    [|intros ->; simpl in Hlen; lia].
  rewrite (Heq eq_refl). clear Heq plan.
  set (items := App.convertToFileItems _ _ _ _ _) in *.
  assert (Hl : length items = length scannedFiles) by apply convert_length.
  assert (Hhm : JSObject.groupInto MockData.hashKey items []
                = Some [(js "no-hash", items)]).
  { apply groupInto_const.
    - vm_compute. intros H. repeat (apply elem_of_cons in H as [H|H]; [done|]).
      by apply elem_of_nil in H.
    - intros E. rewrite E in Hl. simpl in Hl. lia.
    - apply convert_no_hash. }
  apply generateOrganizePlan_Some in Hgen
    as (cats & hm & _ & Hhm' & Hfiles & _ & Hdups & _ & _ & _ & _ & Hcount).
  rewrite Hhm in Hhm'. injection Hhm' as <-.
  rewrite entries_single in Hdups. cbn [List.filter] in Hdups.
  assert ((1 <? length items)%nat = true) as Hgt by (apply Nat.ltb_lt; lia).
  rewrite Hgt in Hdups. cbn [List.map] in Hdups.
  rewrite Hfiles. split; [done|].
  split; [apply convert_paths|].
  split.
  - rewrite Hcount, Hdups. simpl. lia.
  - intros folder. unfold App.organizePlan. cbn [duplicatesToDelete].
    rewrite Hdups. cbn [flat_map MockData.keepIndex MockData.g_files].
    rewrite app_nil_r, othersThan_first, !map_tail. f_equal. apply convert_paths.
Qed.

Lemma desktop_plan_no_hash_group_witness :
  MockData.duplicates exampleDesktopPlan
  = [ {| MockData.g_hash := js "no-hash";
         MockData.g_files := MockData.files exampleDesktopPlan;
         MockData.keepIndex := 0 |} ]
  /\ List.map MockData.path (MockData.files exampleDesktopPlan)
     = List.map App.path exampleScan
  /\ MockData.duplicateCount (MockData.stats exampleDesktopPlan)
     = (length exampleScan - 1)%nat
  /\ forall folder,
      duplicatesToDelete (App.organizePlan folder exampleDesktopPlan)
      = List.map App.path (tail exampleScan).
Proof.
  apply (desktop_plan_no_hash_group exampleDates exampleClock (fun _ => None) (js "me")
           (Civil 2024 0 8) false silent (fun _ => Some (js "h1")) exampleScan 0%nat
           exampleDesktopPlan).
  - vm_compute. lia.
  - vm_compute. reflexivity.
  - vm_compute. reflexivity.
Defined.

(** X21: When the duplicate detection finds groups, the plan takes them in
    place of its own: the Executing component lists for removal the
    members of each detected group but its first, in the order of the
    groups, and the plan counts exactly these. *)
Theorem desktop_plan_detected_duplicates :
  forall Date_value Date_now Date_parse currentUser now isOpencodeAvailable oracle
         calculateFileHash scannedFiles tick plan,
    detectDuplicates calculateFileHash (App.filesForDupCheck scannedFiles) <> [] ->
    App.handleScanComplete Date_value Date_now Date_parse currentUser now
      isOpencodeAvailable oracle calculateFileHash scannedFiles tick = Some plan ->
    List.map MockData.g_hash (MockData.duplicates plan)
    = List.map hash (detectDuplicates calculateFileHash (App.filesForDupCheck scannedFiles))
    /\ (forall folder,
         duplicatesToDelete (App.organizePlan folder plan)
         = flat_map (fun d => List.map m_path (tail (files d)))
             (detectDuplicates calculateFileHash (App.filesForDupCheck scannedFiles)))
    /\ MockData.duplicateCount (MockData.stats plan)
       = length (flat_map (fun d => List.map m_path (tail (files d)))
                   (detectDuplicates calculateFileHash
                      (App.filesForDupCheck scannedFiles))).
Proof.
  intros Date_value Date_now Date_parse currentUser now isOpencodeAvailable oracle
    calculateFileHash scannedFiles tick plan Hsome.
  unfold App.handleScanComplete.
  pose proof (detected_nonempty calculateFileHash (App.filesForDupCheck scannedFiles))
    as Hne.
  pose proof (detected_keep_first calculateFileHash (App.filesForDupCheck scannedFiles))
    as Hkeep.
  set (dups := detectDuplicates _ _) in *.
  intros Hplan.
  apply planFrom_cases in Hplan as (generated & _ & _ & Heq).
  2: { intros ->. by apply Hsome. }
  rewrite (Heq Hsome). clear Heq plan.
  cbn [App.withDuplicates MockData.duplicates MockData.stats MockData.duplicateCount].
  split; [|split].
  - generalize (tick + length scannedFiles)%nat. clear.
    induction dups as [|d dups IH]; intros n; [done|].
    cbn [App.convertDuplicates List.map MockData.g_hash]. by rewrite IH.
  - intros folder. unfold App.organizePlan.
    cbn [duplicatesToDelete App.withDuplicates MockData.duplicates].
    by apply converted_to_delete.
  - by rewrite extra_count.
Qed.

Lemma desktop_plan_detected_duplicates_witness :
  List.map MockData.g_hash (MockData.duplicates twinPlan)
  = List.map hash (detectDuplicates (fun _ => Some (js "h1"))
                     (App.filesForDupCheck twinScan))
  /\ (forall folder,
       duplicatesToDelete (App.organizePlan folder twinPlan)
       = flat_map (fun d => List.map m_path (tail (files d)))
           (detectDuplicates (fun _ => Some (js "h1")) (App.filesForDupCheck twinScan)))
  /\ MockData.duplicateCount (MockData.stats twinPlan)
     = length (flat_map (fun d => List.map m_path (tail (files d)))
                 (detectDuplicates (fun _ => Some (js "h1"))
                    (App.filesForDupCheck twinScan))).
Proof.
  apply (desktop_plan_detected_duplicates exampleDates exampleClock (fun _ => None)
           (js "me") (Civil 2024 0 8) false silent (fun _ => Some (js "h1")) twinScan
           0%nat twinPlan).
  - vm_compute. discriminate.
  - vm_compute. reflexivity.
Defined.

(** * The edits of the preview *)

Lemma executeOrganize_unflagged tempDir Date_now (p q : Plan) w :
  folderPath p = folderPath q -> categories p = categories q ->
  duplicatesToDelete p = duplicatesToDelete q ->
  Forall (fun file => p_needsMove file = false /\ p_needsRename file = false)
    (plan_files p) ->
  Forall (fun file => p_needsMove file = false /\ p_needsRename file = false)
    (plan_files q) ->
  executeOrganize tempDir Date_now p w = executeOrganize tempDir Date_now q w.
Proof.
  intros Hf Hc Hd Hp Hq. unfold executeOrganize. rewrite Hf, Hc, Hd.
  destruct (FS.mkdirp _ (disk w)) as [t0|e]; [|done].
  destruct (createCategories _ _ _) as [[[t1 created] ops1] [e|]]; [done|].
  by rewrite !processFiles_unflagged.
Qed.

(** X22: Ticking or unticking a file in the preview, or saving a name typed for
    it, changes nothing of what a run does: the handler leaves the same
    disk, undo log and counts as for the plan before the edit. *)
Theorem preview_file_edits_keep_run :
  forall tempDir Date_now folder (plan : MockData.OrganizePlan) w fileId
         editingFileId editingName,
    executeOrganize tempDir Date_now
      (App.organizePlan folder (PreviewPlan.toggleFileSelection fileId plan)) w
    = executeOrganize tempDir Date_now (App.organizePlan folder plan) w
    /\ executeOrganize tempDir Date_now
         (App.organizePlan folder
            (PreviewPlan.saveFileName editingFileId editingName plan)) w
       = executeOrganize tempDir Date_now (App.organizePlan folder plan) w.
Proof.
  intros tempDir Date_now folder plan w fileId editingFileId editingName.
  split.
  - apply executeOrganize_unflagged; try done; apply organizePlan_unflagged.
  - unfold PreviewPlan.saveFileName.
    destruct editingFileId as [[|c r]|]; [done| |done].
    destruct (trim editingName) as [|c' r']; [done|].
    apply executeOrganize_unflagged; try done; apply organizePlan_unflagged.
Qed.

Lemma others_all {A} (g : nat -> nat) (target : Z) (l : list A) :
  (forall i, Z.of_nat (g i) <> target) ->
  List.map snd
    (List.filter (fun ix : nat * A => negb (Z.of_nat (fst ix) =? target)%Z)
       (imap (fun i x => (g i, x)) l)) = l.
Proof.
  revert g. induction l as [|x l IH]; intros g Hg; [done|].
  cbn [imap List.filter fst].
  destruct (Z.eqb_spec (Z.of_nat (g 0%nat)) target) as [E|_]; [by apply Hg in E|].
  cbn [negb List.map snd]. f_equal.
  apply (IH (fun i => g (S i))). intros i. apply Hg.
Qed.

Lemma others_at {A} (n k : nat) (l : list A) :
  List.map snd
    (List.filter (fun ix : nat * A => negb (Z.of_nat (fst ix) =? Z.of_nat (n + k))%Z)
       (imap (fun i x => ((n + i)%nat, x)) l))
  = take k l ++ drop (S k) l.
Proof.
  revert n k. induction l as [|x l IH]; intros n k.
  - by rewrite take_nil, drop_nil.
  - cbn [imap List.filter fst]. destruct k as [|k].
    + destruct (Z.eqb_spec (Z.of_nat (n + 0)) (Z.of_nat (n + 0))) as [_|E]; [|done].
      cbn [negb take drop app]. rewrite drop_0.
      apply (others_all (fun i => (n + S i)%nat)). intros i. lia.
    + destruct (Z.eqb_spec (Z.of_nat (n + 0)) (Z.of_nat (n + S k))) as [E|_]; [lia|].
      cbn [negb List.map snd take drop app]. f_equal.
      replace (n + S k)%nat with (S n + k)%nat by lia.
      rewrite <- (IH (S n) k). do 2 f_equal.
      apply imap_ext. intros i y _. simpl. f_equal. lia.
Qed.

Lemma othersThan_nth {A} (k : nat) (l : list A) :
  App.othersThan (Z.of_nat k) l = take k l ++ drop (S k) l.
Proof. apply (others_at 0 k l). Qed.

Lemma othersThan_subset {A} (k : Z) (l : list A) x :
  x ∈ App.othersThan k l -> x ∈ l.
Proof.
  unfold App.othersThan.
  intros ([i y] & -> & Hin)%list_elem_of_fmap.
  apply filter_elem in Hin as [Hin _].
  apply elem_of_lookup_imap_1 in Hin as (i' & y' & [= -> ->] & Hl).
  by eapply list_elem_of_lookup_2.
Qed.

Lemma updated_listing folder (plan : MockData.OrganizePlan) groupHash (k : nat) :
  duplicatesToDelete
    (App.organizePlan folder
       (PreviewPlan.updateDuplicateKeep groupHash (Z.of_nat k) plan))
  = flat_map
      (fun g => List.map MockData.path
                  (if str_eqb (MockData.g_hash g) groupHash
                   then take k (MockData.g_files g) ++ drop (S k) (MockData.g_files g)
                   else App.othersThan (MockData.keepIndex g) (MockData.g_files g)))
      (MockData.duplicates plan).
Proof.
  unfold App.organizePlan, PreviewPlan.updateDuplicateKeep.
  cbn [duplicatesToDelete PreviewPlan.withGroups MockData.duplicates].
  induction (MockData.duplicates plan) as [|g gs IH]; [done|].
  cbn [List.map flat_map]. rewrite IH. f_equal.
  destruct (str_eqb (MockData.g_hash g) groupHash); [|done].
  cbn [MockData.keepIndex MockData.g_files]. by rewrite othersThan_nth.
Qed.

Lemma listing_within (groupHash : jsstring) (k : nat) gs p :
  p ∈ flat_map
        (fun g => List.map MockData.path
                    (if str_eqb (MockData.g_hash g) groupHash
                     then take k (MockData.g_files g) ++ drop (S k) (MockData.g_files g)
                     else App.othersThan (MockData.keepIndex g) (MockData.g_files g)))
        gs ->
  p ∈ List.map MockData.path (flat_map MockData.g_files gs).
Proof.
  intros (g & Hg & Hp)%list_elem_of_In%in_flat_map.
  apply list_elem_of_In in Hg, Hp.
  apply list_elem_of_fmap in Hp as (f & -> & Hf).
  apply list_elem_of_fmap. exists f. split; [done|].
  apply list_elem_of_In, in_flat_map. exists g.
  split; [by apply list_elem_of_In|]. apply list_elem_of_In.
  destruct (str_eqb (MockData.g_hash g) groupHash).
  - apply elem_of_app in Hf as [Hf|Hf].
    + by apply (subseteq_take k).
    + by apply (subseteq_drop (S k)).
  - by eapply othersThan_subset.
Qed.

(** X23: After the keeper of a group has been set in the preview to its member
    of index [k], the plan sent for execution does not list that member
    for removal and lists every other member of the group, provided the
    paths of the members of all groups differ. *)
Theorem keeper_reassigned :
  forall folder (plan : MockData.OrganizePlan) g f (k : nat),
    g ∈ MockData.duplicates plan ->
    MockData.g_files g !! k = Some f ->
    NoDup (List.map MockData.path (flat_map MockData.g_files (MockData.duplicates plan))) ->
    (MockData.path f
     ∉ duplicatesToDelete
         (App.organizePlan folder
            (PreviewPlan.updateDuplicateKeep (MockData.g_hash g) (Z.of_nat k) plan)))
    /\ forall f', f' ∈ MockData.g_files g -> MockData.path f' <> MockData.path f ->
         MockData.path f'
         ∈ duplicatesToDelete
             (App.organizePlan folder
                (PreviewPlan.updateDuplicateKeep (MockData.g_hash g) (Z.of_nat k) plan)).
Proof.
  intros folder plan g f k Hg Hk Hnd. rewrite updated_listing.
  apply list_elem_of_split in Hg as (gs1 & gs2 & Hgs). rewrite Hgs in *.
  rewrite !flat_map_app. cbn [flat_map].
  rewrite flat_map_app, !List.map_app in Hnd. cbn [flat_map] in Hnd.
  rewrite List.map_app in Hnd.
  assert (Hself : str_eqb (MockData.g_hash g) (MockData.g_hash g) = true)
    by (by apply bool_decide_eq_true_2).
  rewrite !Hself.
  apply NoDup_app in Hnd as (_ & Hd1 & Hnd).
  apply NoDup_app in Hnd as (Hgnd & Hd2 & _).
  assert (Hf : MockData.path f ∈ List.map MockData.path (MockData.g_files g)).
  { apply list_elem_of_fmap. exists f. split; [done|]. by eapply list_elem_of_lookup_2. }
  split.
  - rewrite !elem_of_app. intros [Hin|[Hin|Hin]].
    + apply listing_within in Hin. by apply (Hd1 _ Hin), elem_of_app; left.
    + rewrite <- (take_drop_middle _ _ _ Hk) in Hgnd.
      rewrite List.map_app in Hgnd, Hin. cbn [List.map] in Hgnd.
      apply NoDup_app in Hgnd as (_ & Hdisj & Htail).
      apply NoDup_cons in Htail as [Hnot _].
      apply elem_of_app in Hin as [Hin|Hin]; [|done].
      apply (Hdisj _ Hin). left.
    + apply listing_within in Hin. by apply (Hd2 _ Hf).
  - intros f' Hf' Hne. rewrite !elem_of_app. right. left.
    apply list_elem_of_fmap. exists f'. split; [done|].
    rewrite <- (take_drop_middle _ _ _ Hk) in Hf'.
    apply elem_of_app in Hf' as [Hf'|Hf']; [apply elem_of_app; by left|].
    apply elem_of_cons in Hf' as [->|Hf']; [done|]. apply elem_of_app; by right.
Qed.

Lemma keeper_reassigned_witness :
  (MockData.path (mockItem "c.jpg" Image None)
   ∉ duplicatesToDelete
       (App.organizePlan (js "/Downloads")
          (PreviewPlan.updateDuplicateKeep (MockData.g_hash mockGroup) (Z.of_nat 1)
             mockPlan)))
  /\ forall f', f' ∈ MockData.g_files mockGroup ->
       MockData.path f' <> MockData.path (mockItem "c.jpg" Image None) ->
       MockData.path f'
       ∈ duplicatesToDelete
           (App.organizePlan (js "/Downloads")
              (PreviewPlan.updateDuplicateKeep (MockData.g_hash mockGroup) (Z.of_nat 1)
                 mockPlan)).
Proof.
  apply (keeper_reassigned (js "/Downloads") mockPlan mockGroup
           (mockItem "c.jpg" Image None) 1).
  - vm_compute. left.
  - reflexivity.
  - apply (bool_decide_unpack _). vm_compute. exact I.
Defined.
